(** * PYFires: contextual fire detection -- verification of the detection core

    Shallow embedding of [pyfires/PYF_detection.py] and of the stage-5 and
    FRP routines, the derived datasets, the diffusion filter and the
    radiometric conversions of [pyfires/PYF_basic.py].

    Numbers.  The Python code computes on numpy / dask floating-point
    arrays.  A scalar is embedded as a value of [fl]: a rational number, one
    of the two infinities, or NaN.  The special values follow IEEE-754 as
    numpy exposes it: NaN is absorbing, every ordered comparison with NaN is
    false, [x / 0] is an infinity for [x <> 0] and NaN for [x = 0]
    (zero is unsigned and stands for [+0.0]).  Arithmetic on finite values
    is exact, except where a comparison decides on a sum of rounded terms:
    the histogram search of [compute_background_rad] rounds every quotient
    and every addition to double precision ([round64]).

    Arrays.  A 2-D array is a function from (row, column) to its cell; the
    common shape [(rows, cols)] of the grids of one run is passed where the
    code depends on it (ravel, reductions, filters).  [xr.where] and the
    arithmetic operators act cell by cell.

    Real numbers.  The functions that go through [np.exp], [np.log], a real
    power or a square root are embedded on real numbers, one array cell at
    a time. *)

From Stdlib Require Import String.
From Stdlib Require Import QArith Qround Qminmax Qabs Qpower Lqa.
From Stdlib Require Import ZArith Lia List Bool.
From Stdlib Require Import Reals Lra.
From Stdlib Require Import Qreals Rpower.
Import ListNotations.

Local Open Scope Q_scope.

(** Linear arithmetic over the rationals and over the reals. *)
Ltac qlra := Lqa.lra.
Ltac rlra := Lra.lra.

(* ================================================================== *)
(** ** Floating-point scalars *)
(* ================================================================== *)

Module Float.

Inductive fl : Type :=
| NaN
| NInf
| PInf
| Fin (q : Q).

Definition of_Z (z : Z) : fl := Fin (inject_Z z).

(** [np.isnan], [np.isfinite]. *)
Definition isnan (x : fl) : bool :=
  match x with NaN => true | _ => false end.

Definition isfinite (x : fl) : bool :=
  match x with Fin _ => true | _ => false end.

(** Strict rational order as a boolean. *)
Definition Qlt_bool (a b : Q) : bool := negb (Qle_bool b a).

(** Ordered comparisons: false as soon as one side is NaN. *)
Definition flt (x y : fl) : bool :=
  match x, y with
  | NaN, _ | _, NaN => false
  | NInf, NInf => false
  | NInf, _ => true
  | _, NInf => false
  | PInf, _ => false
  | Fin _, PInf => true
  | Fin a, Fin b => Qlt_bool a b
  end.

Definition fle (x y : fl) : bool :=
  match x, y with
  | NaN, _ | _, NaN => false
  | NInf, _ => true
  | _, NInf => false
  | _, PInf => true
  | PInf, Fin _ => false
  | Fin a, Fin b => Qle_bool a b
  end.

Definition fgt (x y : fl) : bool := flt y x.
Definition fge (x y : fl) : bool := fle y x.

Definition feqb (x y : fl) : bool :=
  match x, y with
  | NInf, NInf | PInf, PInf => true
  | Fin a, Fin b => Qeq_bool a b
  | _, _ => false
  end.

Definition fneg (x : fl) : fl :=
  match x with
  | NaN => NaN
  | NInf => PInf
  | PInf => NInf
  | Fin a => Fin (- a)
  end.

Definition fadd (x y : fl) : fl :=
  match x, y with
  | NaN, _ | _, NaN => NaN
  | PInf, NInf | NInf, PInf => NaN
  | PInf, _ | _, PInf => PInf
  | NInf, _ | _, NInf => NInf
  | Fin a, Fin b => Fin (a + b)
  end.

Definition fsub (x y : fl) : fl := fadd x (fneg y).

(** Sign of a rational: -1, 0 or 1. *)
Definition Qsgn (a : Q) : Z := Z.sgn (Qnum a).

(** An infinity of the given sign; the sign 0 gives NaN (0 * inf). *)
Definition inf_of_sign (s : Z) : fl :=
  match s with
  | Z0 => NaN
  | Zpos _ => PInf
  | Zneg _ => NInf
  end.

Definition fmul (x y : fl) : fl :=
  match x, y with
  | NaN, _ | _, NaN => NaN
  | Fin a, Fin b => Fin (a * b)
  | Fin a, PInf | PInf, Fin a => inf_of_sign (Qsgn a)
  | Fin a, NInf | NInf, Fin a => inf_of_sign (- Qsgn a)
  | PInf, PInf | NInf, NInf => PInf
  | PInf, NInf | NInf, PInf => NInf
  end.

Definition fdiv (x y : fl) : fl :=
  match x, y with
  | NaN, _ | _, NaN => NaN
  | Fin a, Fin b =>
      if Qeq_bool b 0 then inf_of_sign (Qsgn a) else Fin (a / b)
  | Fin _, PInf | Fin _, NInf => Fin 0
  | PInf, Fin b => if Qlt_bool b 0 then NInf else PInf
  | NInf, Fin b => if Qlt_bool b 0 then PInf else NInf
  | PInf, PInf | PInf, NInf | NInf, PInf | NInf, NInf => NaN
  end.

(** Equality of values up to the representation of the rational. *)
Definition feq (x y : fl) : Prop :=
  match x, y with
  | NaN, NaN | NInf, NInf | PInf, PInf => True
  | Fin a, Fin b => a == b
  | _, _ => False
  end.

End Float.

Export Float.

Declare Scope fl_scope.
Delimit Scope fl_scope with fl.
Bind Scope fl_scope with fl.
Infix "+" := fadd : fl_scope.
Infix "-" := fsub : fl_scope.
Infix "*" := fmul : fl_scope.
Infix "/" := fdiv : fl_scope.
Infix "<?" := flt (at level 70, no associativity) : fl_scope.
Infix "<=?" := fle (at level 70, no associativity) : fl_scope.
Infix ">?" := fgt (at level 70, no associativity) : fl_scope.
Infix ">=?" := fge (at level 70, no associativity) : fl_scope.
Infix "==?" := feqb (at level 70, no associativity) : fl_scope.
Infix "=f=" := feq (at level 70, no associativity).

(* ================================================================== *)
(** ** Rounding to double precision *)
(* ================================================================== *)

(** The exponent [e] of a non-zero rational: [2^e <= |q| < 2^(e+1)]. *)
Definition binade (q : Q) : Z :=
  let e := (Z.log2 (Z.abs (Qnum q)) - Z.log2 (Zpos (Qden q)))%Z in
  if Qlt_bool (Qabs q) (2 ^ e) then (e - 1)%Z else e.

(** The nearest integer, a tie going to the even one. *)
Definition round_half_even (x : Q) : Z :=
  let f := Qfloor x in
  match Qcompare (x - inject_Z f) (1 # 2) with
  | Lt => f
  | Gt => (f + 1)%Z
  | Eq => if Z.even f then f else (f + 1)%Z
  end.

(** The nearest number with a significand of 53 bits, the rounding of
    every operation on [float64] values.  The exponent is not bounded: the
    values rounded below are frequencies and their running sums, far from
    overflow and underflow. *)
Definition round64 (q : Q) : Q :=
  if Qeq_bool q 0 then 0
  else
    let ulp := 2 ^ (binade q - 52) in
    inject_Z (round_half_even (q / ulp)) * ulp.

Definition fround (x : fl) : fl :=
  match x with
  | Fin q => Fin (round64 q)
  | _ => x
  end.

(* ================================================================== *)
(** ** Arrays *)
(* ================================================================== *)

(** A 2-D array: cell at (row, column). *)
Definition grid (A : Type) : Type := nat -> nat -> A.

(** A scalar broadcast against an array. *)
Definition full {A : Type} (v : A) : grid A := fun _ _ => v.

Definition map1 {A B : Type} (f : A -> B) (x : grid A) : grid B :=
  fun i j => f (x i j).

Definition map2 {A B C : Type} (f : A -> B -> C)
  (x : grid A) (y : grid B) : grid C :=
  fun i j => f (x i j) (y i j).

(** [xr.where(cond, a, b)]. *)
Definition where_ {A : Type} (c : grid bool) (a b : grid A) : grid A :=
  fun i j => if c i j then a i j else b i j.

(** [np.zeros_like] / [da.zeros_like]. *)
Definition zeros_like {A : Type} (_ : grid A) : grid fl := full (Fin 0).

(** Cell-wise arithmetic and comparisons of arrays. *)
Declare Scope grid_scope.
Delimit Scope grid_scope with grid.
Notation "x .+ y" := (map2 fadd x y) (at level 50, left associativity) : grid_scope.
Notation "x .- y" := (map2 fsub x y) (at level 50, left associativity) : grid_scope.
Notation "x .* y" := (map2 fmul x y) (at level 40, left associativity) : grid_scope.
Notation "x ./ y" := (map2 fdiv x y) (at level 40, left associativity) : grid_scope.
Notation "x .< y" := (map2 flt x y) (at level 70, no associativity) : grid_scope.
Notation "x .> y" := (map2 fgt x y) (at level 70, no associativity) : grid_scope.
Notation "x .>= y" := (map2 fge x y) (at level 70, no associativity) : grid_scope.
Notation "x .== y" := (map2 feqb x y) (at level 70, no associativity) : grid_scope.

(** A numeric literal broadcast against an array. *)
Definition lit (q : Q) : grid fl := full (Fin q).

(** Row-major flattening of an array of the given shape ([ndarray.ravel]). *)
Definition ravel {A : Type} (shape : nat * nat) (g : grid A) : list A :=
  flat_map (fun i => map (fun j => g i j) (seq 0 (snd shape))) (seq 0 (fst shape)).

(** Sum of a list of floats, left to right. *)
Definition fsum (l : list fl) : fl := fold_left fadd l (Fin 0).

Definition fmax (a b : fl) : fl := if flt a b then b else a.

(* ================================================================== *)
(** ** Module constants ([pyfires.PYF_Consts]) *)
(* ================================================================== *)

(** The constants module is imported as [PYFc] by both source files; the
    record lists the names they read from it. *)
Record PYF_Consts : Type := {
  mir_thresh_bt : fl;
  mir_thresh_sza_adj : fl;
  mir_thresh_limit : fl;
  btd_thresh_bt : fl;
  btd_thresh_sza_adj : fl;
  btd_thresh_limit : fl;
  kern_thresh_btd : fl;
  kern_thresh_sza_adj : fl;
  lsm_land_val : Z;
  stage1_pass_thresh : fl;
  sigma : fl;
  rad_to_bt_dict : list (string * fl)
}.

(** Dictionary lookup, [d[key]]; [None] stands for [KeyError]. *)
Fixpoint dict_get {V : Type} (d : list (string * V)) (key : string) : option V :=
  match d with
  | [] => None
  | (k, v) :: rest => if String.eqb k key then Some v else dict_get rest key
  end.

(* ================================================================== *)
(** ** High-pass kernels and filters *)
(* ================================================================== *)

(** The five integer arrays written out in [_make_kern]. *)
Definition arr_3 : list (list Z) :=
  [[-1; -1; -1];
   [-1; 9; -1];
   [-1; -1; -1]]%Z.

Definition arr_5 : list (list Z) :=
  [[-1; -1; -1; -1; -1];
   [-1; -1; -1; -1; -1];
   [-1; -1; 25; -1; -1];
   [-1; -1; -1; -1; -1];
   [-1; -1; -1; -1; -1]]%Z.

Definition arr_7 : list (list Z) :=
  [[-1; -1; -1; -1; -1; -1; -1];
   [-1; -1; -1; -1; -1; -1; -1];
   [-1; -1; -1; -1; -1; -1; -1];
   [-1; -1; -1; 49; -1; -1; -1];
   [-1; -1; -1; -1; -1; -1; -1];
   [-1; -1; -1; -1; -1; -1; -1];
   [-1; -1; -1; -1; -1; -1; -1]]%Z.

Definition arr_9 : list (list Z) :=
  [[-1; -1; -1; -1; -1; -1; -1; -1; -1];
   [-1; -1; -1; -1; -1; -1; -1; -1; -1];
   [-1; -1; -1; -1; -1; -1; -1; -1; -1];
   [-1; -1; -1; -1; -1; -1; -1; -1; -1];
   [-1; -1; -1; -1; 81; -1; -1; -1; -1];
   [-1; -1; -1; -1; -1; -1; -1; -1; -1];
   [-1; -1; -1; -1; -1; -1; -1; -1; -1];
   [-1; -1; -1; -1; -1; -1; -1; -1; -1];
   [-1; -1; -1; -1; -1; -1; -1; -1; -1]]%Z.

Definition arr_11 : list (list Z) :=
  [[-1; -1; -1; -1; -1; -1; -1; -1; -1; -1; -1];
   [-1; -1; -1; -1; -1; -1; -1; -1; -1; -1; -1];
   [-1; -1; -1; -1; -1; -1; -1; -1; -1; -1; -1];
   [-1; -1; -1; -1; -1; -1; -1; -1; -1; -1; -1];
   [-1; -1; -1; -1; -1; -1; -1; -1; -1; -1; -1];
   [-1; -1; -1; -1; -1; 121; -1; -1; -1; -1; -1];
   [-1; -1; -1; -1; -1; -1; -1; -1; -1; -1; -1];
   [-1; -1; -1; -1; -1; -1; -1; -1; -1; -1; -1];
   [-1; -1; -1; -1; -1; -1; -1; -1; -1; -1; -1];
   [-1; -1; -1; -1; -1; -1; -1; -1; -1; -1; -1];
   [-1; -1; -1; -1; -1; -1; -1; -1; -1; -1; -1]]%Z.

(** [np.sum] of an integer array. *)
Definition np_sum_Z (arr : list (list Z)) : Z :=
  fold_left Z.add (concat arr) 0%Z.

(** [_make_kern]: [None] stands for the [ValueError] of the last branch.
    The result is [arr / np.sum(arr)], a float array. *)
Definition _make_kern (ksize : Z) : option (list (list fl)) :=
  let arr :=
    if (ksize =? 3)%Z then Some arr_3
    else if (ksize =? 5)%Z then Some arr_5
    else if (ksize =? 7)%Z then Some arr_7
    else if (ksize =? 9)%Z then Some arr_9
    else if (ksize =? 11)%Z then Some arr_11
    else None in
  match arr with
  | None => None
  | Some arr =>
      Some (map (map (fun w => fdiv (of_Z w) (of_Z (np_sum_Z arr)))) arr)
  end.

(** Index extension of the filters' default boundary mode, 'reflect':
    (d c b a | a b c d | d c b a). *)
Definition reflect (n : nat) (i : Z) : nat :=
  let p := (2 * Z.of_nat n)%Z in
  let m := (i mod p)%Z in
  Z.to_nat (if (m <? Z.of_nat n)%Z then m else (p - 1 - m)%Z).

(** The cells of [dask_image.ndfilters.convolve(image, weights)] with its
    defaults (mode 'reflect', origin 0):
    [out[i, j] = sum_{a, b} weights[a, b] * image[i + h - a, j + h - b]]
    where [h] is half the kernel size. *)
Definition convolve_cells (shape : nat * nat) (image : grid fl)
  (weights : list (list fl)) : grid fl :=
  fun i j =>
    let hr := Z.of_nat (length weights / 2) in
    fsum (flat_map (fun a =>
            let row := nth a weights [] in
            let hc := Z.of_nat (length row / 2) in
            map (fun b =>
                   fmul (nth b row (Fin 0))
                        (image (reflect (fst shape) (Z.of_nat i + hr - Z.of_nat a))
                               (reflect (snd shape) (Z.of_nat j + hc - Z.of_nat b))))
                (seq 0 (length row)))
          (seq 0 (length weights))).

(** The overlap depth of the filter, half the kernel size along each axis,
    must not exceed the extent of the image along that axis. *)
Definition depth_fits (shape : nat * nat) (weights : list (list fl)) : bool :=
  (length weights / 2 <=? fst shape)%nat
  && (length (hd [] weights) / 2 <=? snd shape)%nat.

(** [dask_image.ndfilters.convolve(image, weights)]: the filter runs over
    overlapping blocks, and [None] stands for the [ValueError] raised when
    the overlap depth is larger than the image. *)
Definition convolve (shape : nat * nat) (image : grid fl)
  (weights : list (list fl)) : option (grid fl) :=
  if depth_fits shape weights then Some (convolve_cells shape image weights)
  else None.

(** The cells of the 3x3 footprint centred on (i, j), row by row, borders
    reflected. *)
Definition window3 (shape : nat * nat) (i j : nat) : list (nat * nat) :=
  flat_map (fun di =>
              map (fun dj => (reflect (fst shape) (Z.of_nat i + di),
                              reflect (snd shape) (Z.of_nat j + dj)))
                  [-1; 0; 1]%Z)
           [-1; 0; 1]%Z.

(** [maximum_filter(image, (3, 3))] with its default mode 'reflect'. *)
Definition maximum_filter3 (shape : nat * nat) (image : grid fl) : grid fl :=
  fun i j =>
    match map (fun p => image (fst p) (snd p)) (window3 shape i j) with
    | [] => NaN
    | v :: vs => fold_left fmax vs v
    end.

(** [np.ones((3, 3))]. *)
Definition ones3 : list (list fl) :=
  [[Fin 1; Fin 1; Fin 1]; [Fin 1; Fin 1; Fin 1]; [Fin 1; Fin 1; Fin 1]].

(* ================================================================== *)
(** ** Stage 1 thresholds *)
(* ================================================================== *)

(** [set_initial_thresholds]: the six threshold constants are keyword
    arguments of the Python function. *)
Definition set_initial_thresholds (sza : grid fl)
  (mir_thresh_bt mir_thresh_sza_adj mir_thresh_limit
   btd_thresh_bt btd_thresh_sza_adj btd_thresh_limit : fl)
  : grid fl * grid fl :=
  let mir_thresh := (full mir_thresh_bt .+ full mir_thresh_sza_adj .* sza)%grid in
  let mir_thresh :=
    where_ (mir_thresh .< full mir_thresh_limit)%grid
           (full mir_thresh_limit) mir_thresh in
  let btd_thresh := (full btd_thresh_bt .+ full btd_thresh_sza_adj .* sza)%grid in
  let btd_thresh :=
    where_ (btd_thresh .< full btd_thresh_limit)%grid
           (full btd_thresh_limit) btd_thresh in
  (mir_thresh, btd_thresh).

(* ================================================================== *)
(** ** Stage 1 tests *)
(* ================================================================== *)

(** The shape of the two fixed-threshold tests of [stage1_tests],
    [xr.where(x >= thresh, main_testarr + 1, 0)]. *)
Definition gate_test (x thresh main_testarr : grid fl) : grid fl :=
  where_ (x .>= thresh)%grid (main_testarr .+ lit 1)%grid (lit 0).

Section Stage1.

(** The module constants. *)
Variable PYFc : PYF_Consts.

(** [da.nanstd]: the standard deviation of the non-NaN cells of an array
    (a square root, kept abstract). *)
Variable nanstd : nat * nat -> grid fl -> fl.

(** [do_apply_stg1b_kern2]: [None] stands for the [ValueError] of
    [_make_kern] or of [convolve]. *)
Definition do_apply_stg1b_kern2 (shape : nat * nat) (in_variable : grid fl)
  (ksize : Z) : option (grid fl * fl) :=
  match _make_kern ksize with
  | None => None
  | Some kern =>
      match convolve shape in_variable kern with
      | None => None
      | Some out_ker =>
          let out_std := nanstd shape out_ker in
          Some (out_ker, out_std)
      end
  end.

(** The loop over [ksizes] of [stage1_tests] (stage 1b). *)
Fixpoint stage1b_loop (shape : nat * nat) (in_btd btd_kern_thr : grid fl)
  (ksizes : list Z) (main_testarr : grid fl) : option (grid fl) :=
  match ksizes with
  | [] => Some main_testarr
  | ksize :: rest =>
      match do_apply_stg1b_kern2 shape in_btd ksize with
      | None => None
      | Some (kerval, stdval) =>
          let tmpdata : grid Z :=
            where_ (kerval .>= (full stdval .* btd_kern_thr))%grid
                   (full 1%Z) (full 0%Z) in
          let main_testarr :=
            where_ (map1 (fun t => (t >? 0)%Z) tmpdata)
                   (main_testarr .+ lit 1)%grid main_testarr in
          stage1b_loop shape in_btd btd_kern_thr rest main_testarr
      end
  end.

(** [set_initial_thresholds(in_sza)]: the call of [stage1_tests], with
    the default arguments, which are the module constants. *)
Definition stage1_thresholds (in_sza : grid fl) : grid fl * grid fl :=
  set_initial_thresholds in_sza
    PYFc.(mir_thresh_bt) PYFc.(mir_thresh_sza_adj) PYFc.(mir_thresh_limit)
    PYFc.(btd_thresh_bt) PYFc.(btd_thresh_sza_adj) PYFc.(btd_thresh_limit).

(** [stage1_tests].
    The result is the [uint8] data of [pfp_arr]. *)
Definition stage1_tests (shape : nat * nat)
  (in_mir in_btd in_vid in_sza : grid fl) (in_lsm : grid Z)
  (ksizes : list Z) (kern_thresh_btd kern_thresh_sza_adj : fl)
  (do_lsm_mask : bool) (lsm_land_val : Z) : option (grid Z) :=
  let btd_kern_thr :=
    (full kern_thresh_btd .+ full kern_thresh_sza_adj .* in_sza)%grid in
  let '(mir_thresh, btd_thresh) := stage1_thresholds in_sza in
  let main_testarr := zeros_like in_mir in
  match stage1b_loop shape in_btd btd_kern_thr ksizes main_testarr with
  | None => None
  | Some main_testarr =>
      let main_testarr := gate_test in_mir mir_thresh main_testarr in
      let main_testarr := gate_test in_btd btd_thresh main_testarr in
      let main_testarr :=
        if do_lsm_mask
        then where_ (map1 (fun l => (l =? lsm_land_val)%Z) in_lsm)
                    main_testarr (lit 0)
        else main_testarr in
      let main_testarr :=
        where_ (in_vid .>= lit 0)%grid main_testarr (lit 0) in
      Some (where_ (main_testarr .>= full PYFc.(stage1_pass_thresh))%grid
                   (full 1%Z) (full 0%Z))
  end.

End Stage1.

(* ================================================================== *)
(** ** Night-time detection *)
(* ================================================================== *)

(** Boolean-mask indexing of a flat array, [vals[mask]]. *)
Definition bool_index {A : Type} (vals : list A) (mask : list bool) : list A :=
  map fst (filter snd (combine vals mask)).

(** Number of histogram bins used by [compute_background_rad]. *)
Definition nbins : nat := 800.

(** The outer bin edges [np.histogram] derives from [range]: [None] stands
    for its [ValueError] (max smaller than min); an empty range is widened
    by one half on each side. *)
Definition hist_outer_edges (hist_range : Q * Q) : option (Q * Q) :=
  let (lo, hi) := hist_range in
  if Qlt_bool hi lo then None
  else if Qeq_bool lo hi then Some (lo - (1 # 2), hi + (1 # 2))
  else Some (lo, hi).

(** The bin a sample falls in: samples outside [lo, hi] (and non-finite
    ones) are not counted, bin [k] is [edge k, edge (k+1)), and the last
    bin also holds [hi]. *)
Definition bin_index (n : nat) (lo hi : Q) (v : fl) : option nat :=
  match v with
  | Fin q =>
      if Qle_bool lo q && Qle_bool q hi then
        let k := Z.to_nat (Qfloor ((q - lo) * inject_Z (Z.of_nat n) / (hi - lo))) in
        Some (if (k =? n)%nat then (n - 1)%nat else k)
      else None
  | _ => None
  end.

(** A sample's bin is bin [k]. *)
Definition is_bin (k : nat) (b : option nat) : bool :=
  match b with
  | Some k' => (k' =? k)%nat
  | None => false
  end.

(** Edge [k] of [n] equal bins over [lo, hi] ([np.linspace(lo, hi, n + 1)]). *)
Definition bin_edge (n : nat) (lo hi : Q) (k : nat) : Q :=
  lo + inject_Z (Z.of_nat k) * (hi - lo) / inject_Z (Z.of_nat n).

(** [np.histogram(a, bins=n, range=hist_range)]: the counts and the
    [n + 1] edges. *)
Definition np_histogram (a : list fl) (n : nat) (hist_range : Q * Q)
  : option (list Z * list Q) :=
  match hist_outer_edges hist_range with
  | None => None
  | Some (lo, hi) =>
      let sample_bins := map (bin_index n lo hi) a in
      Some (map (fun k => Z.of_nat (List.length (filter (is_bin k) sample_bins)))
                (seq 0 n),
            map (bin_edge n lo hi) (seq 0 (S n)))
  end.

(** [np.nanmax] of a flat float array: the maximum of the non-NaN entries,
    NaN when there is none. *)
Definition nanmax (l : list fl) : fl :=
  fold_left (fun acc x => if isnan x then acc
                          else if isnan acc then x else fmax acc x) l NaN.

(** The search loop of [compute_background_rad]: the value of [i] when the
    loop is left, either at the [break] or after the last index.  The
    running sum is a [float64]: every addition is rounded. *)
Fixpoint cum_loop (hist : list fl) (rad_sum_thr cum_sum : fl) (i : nat) : nat :=
  match hist with
  | [] => pred i
  | h :: rest =>
      let cum_sum := fround (fadd cum_sum h) in
      if fgt cum_sum rad_sum_thr then i
      else cum_loop rest rad_sum_thr cum_sum (S i)
  end.

(** The body of [compute_background_rad], with the number of histogram
    bins as a parameter.  [hist / np.sum(hist)] divides the integer counts
    as [float64] values (the counts of a scene are converted without
    error), each quotient rounded. *)
Definition background_rad_bins (n_bins : nat) (shape : nat * nat)
  (indata insza : grid fl) (sza_thr rad_sum_thr : fl) (hist_range : Q * Q)
  : option fl :=
  let cum_sum := Fin 0 in
  let tmp := ravel shape indata in
  let tmp := bool_index tmp (map (fun s => fgt s sza_thr) (ravel shape insza)) in
  let tmp := bool_index tmp (map (fun t => fgt t (Fin 0)) tmp) in
  match np_histogram tmp n_bins hist_range with
  | None => None
  | Some (hist, bins) =>
      let total := fold_left Z.add hist 0%Z in
      let hist := map (fun c => fround (fdiv (of_Z c) (of_Z total))) hist in
      if fle (nanmax hist) (Fin 0) || isnan (nanmax hist) then
        Some (Fin (-999))
      else
        let i := cum_loop hist rad_sum_thr cum_sum 0 in
        Some (Fin (nth i bins 0))
  end.

(** [compute_background_rad]: the histogram has 800 bins; [None] stands
    for the exception of [np.histogram] on a reversed range. *)
Definition compute_background_rad : nat * nat -> grid fl -> grid fl ->
  fl -> fl -> Q * Q -> option fl :=
  background_rad_bins nbins.

(** The default of [rad_sum_thr], the [float64] value of the literal
    [0.99]. *)
Definition default_rad_sum_thr : fl := Fin (round64 (99 # 100)).

(** The [opts] dictionary of [run_basic_night_detection]. *)
Record night_opts : Type := {
  def_fire_rad_vis : fl;
  def_fire_rad_vid : fl;
  sza_thresh : fl;
  vid_thresh : fl
}.

Definition default_night_opts : night_opts :=
  {| def_fire_rad_vis := Fin (1 # 2);
     def_fire_rad_vid := Fin (1 # 2);
     sza_thresh := Fin 97;
     vid_thresh := Fin (2 # 100) |}.

(** What [run_basic_night_detection] returns: one float array on its two
    early exits, the pair [(out_dets, def_dets)] otherwise. *)
Inductive night_result : Type :=
| EarlyZeros (z : grid fl)
| Detections (out_dets def_dets : grid Z).

(** [x.astype(np.uint8)] of a boolean array. *)
Definition astype_uint8 (b : grid bool) : grid Z :=
  map1 (fun c : bool => if c then 1%Z else 0%Z) b.

(** A [uint8] array read as floats. *)
Definition to_float (m : grid Z) : grid fl := map1 of_Z m.

(** Candidate selection of [run_basic_night_detection] (bright VIS
    radiance, suitable VISDIFF radiance, potential fire pixel). *)
Definition night_candidates (in_vi2_rad in_vid : grid fl) (in_pfp : grid Z)
  (thr_vis : fl) (opts : night_opts) : grid Z :=
  let out_dets := astype_uint8 (in_vi2_rad .> full (fmul thr_vis (Fin 2)))%grid in
  let out_dets :=
    where_ (in_vid .> full opts.(vid_thresh))%grid out_dets (full 0%Z) in
  where_ (map1 (fun p => (p =? 1)%Z) in_pfp) out_dets (full 0%Z).

(** The 3x3 sum filter over the candidates,
    [convolve(out_dets.data, np.ones((3, 3)))].  The step is reached on a
    scene with at least one pixel ([np.nanmax] has raised otherwise), where
    the overlap depth 1 fits and [convolve] returns these cells. *)
Definition det_sum (shape : nat * nat) (out_dets : grid Z) : grid fl :=
  convolve_cells shape (to_float out_dets) ones3.

(** The 3x3 window step of [run_basic_night_detection]: from the
    candidates to [out_dets] before the definite detections are applied. *)
Definition night_window_step (shape : nat * nat) (in_vid : grid fl)
  (out_dets : grid Z) : grid Z :=
  let det_sum := det_sum shape out_dets in
  let det_max := maximum_filter3 shape in_vid in
  let det_pos := where_ (det_sum .== lit 1)%grid in_vid (lit 0) in
  let det_pos : grid Z :=
    where_ (det_pos .== det_max)%grid (full 1%Z) (full 0%Z) in
  where_ (det_sum .== lit 1)%grid det_pos out_dets.

(** [np.nanmax] of a boolean array: [None] stands for the [ValueError]
    numpy raises on an array without cells. *)
Definition nanmax_bool (l : list bool) : option bool :=
  match l with
  | [] => None
  | _ => Some (existsb (fun b => b) l)
  end.

(** [run_basic_night_detection]; [None] stands for an exception. *)
Definition run_basic_night_detection (shape : nat * nat)
  (in_vi2_rad in_sza in_vid : grid fl) (in_pfp : grid Z) (opts : night_opts)
  : option night_result :=
  match nanmax_bool (ravel shape (in_sza .> full opts.(sza_thresh))%grid) with
  | None => None
  | Some false => Some (EarlyZeros (zeros_like in_vi2_rad))
  | Some true =>
      match compute_background_rad shape in_vi2_rad in_sza opts.(sza_thresh)
                                   default_rad_sum_thr (0, 2) with
      | None => None
      | Some thr_vis =>
          if feqb thr_vis (Fin (-999)) then
            Some (EarlyZeros (zeros_like in_vi2_rad))
          else
            let def_dets :=
              astype_uint8 (in_vi2_rad .> full opts.(def_fire_rad_vis))%grid in
            let def_dets :=
              where_ (in_vid .> full opts.(def_fire_rad_vid))%grid
                     def_dets (full 0%Z) in
            let def_dets :=
              where_ (in_sza .> full opts.(sza_thresh))%grid
                     def_dets (full 0%Z) in
            let out_dets := night_candidates in_vi2_rad in_vid in_pfp thr_vis opts in
            let out_dets := night_window_step shape in_vid out_dets in
            let out_dets :=
              where_ (map1 (fun d => (d >? 0)%Z) def_dets) (full 1%Z) out_dets in
            let out_dets :=
              where_ (in_sza .> full opts.(sza_thresh))%grid out_dets (full 0%Z) in
            Some (Detections out_dets def_dets)
      end
  end.

(* ================================================================== *)
(** ** Stage 5 confidence and FRP ([PYF_basic.py]) *)
(* ================================================================== *)

(** [comp_stat]. *)
Definition comp_stat (x a b : grid fl) : grid fl :=
  let out := ((x .- a) ./ (b .- a))%grid in
  let out := where_ (x .< a)%grid (lit 0) out in
  let out := where_ (x .> b)%grid (lit 1) out in
  out.

(** The product [c1 * c2 * c3 * c4 * c5] that [do_stage5] hands to
    [np.power]; the body of [do_stage5] up to its last assignment. *)
Definition stage5_product
  (btd mea_btd std_btd bt_mir mea_mir std_mir sza nwin ncld nwat : grid fl)
  : grid fl :=
  let nig_sza := lit 60 in
  let sza_thr := where_ (sza .> nig_sza)%grid nig_sza sza in
  let z4 := ((bt_mir .- mea_mir) ./ std_mir)%grid in
  let zdt := ((btd .- mea_btd) ./ std_btd)%grid in
  let min_c1_day := lit 287 in
  let min_c1_nig := lit 280 in
  let max_c1_day := lit 327 in
  let max_c1_nig := lit 310 in
  let min_c2 := lit (9 # 10) in
  let max_c2 := lit 6 in
  let min_c3_day := lit 2 in
  let min_c3_nig := lit (3 # 2) in
  let max_c3_day := lit 6 in
  let max_c3_nig := lit 5 in
  let c1_grad := ((min_c1_nig .- min_c1_day) ./ nig_sza)%grid in
  let min_c1 := (min_c1_day .+ c1_grad .* sza_thr)%grid in
  let c1_grad := ((max_c1_nig .- max_c1_day) ./ nig_sza)%grid in
  let max_c1 := (max_c1_day .+ c1_grad .* sza_thr)%grid in
  let c3_grad := ((min_c3_nig .- min_c3_day) ./ nig_sza)%grid in
  let min_c3 := (min_c3_day .+ c3_grad .* sza_thr)%grid in
  let c3_grad := ((max_c3_nig .- max_c3_day) ./ nig_sza)%grid in
  let max_c3 := (max_c3_day .+ c3_grad .* sza_thr)%grid in
  let c1 := comp_stat bt_mir min_c1 max_c1 in
  let c2 := comp_stat z4 min_c2 max_c2 in
  let c3 := comp_stat zdt min_c3 max_c3 in
  let c4 := (lit 1 .- comp_stat (ncld ./ (nwin ./ lit 2)) (lit 0) (lit 1))%grid in
  let c5 := (lit 1 .- comp_stat (nwat ./ (nwin ./ lit 2)) (lit 0) (lit 1))%grid in
  (c1 .* c2 .* c3 .* c4 .* c5)%grid.

(** The value of a fifth root is in general irrational: the result of
    [np.power(x, 1./5.)] is a real number, an infinity or NaN. *)
Inductive rfl : Type :=
| RNaN
| RNInf
| RPInf
| RFin (r : R).

(** The fifth root of a non-negative rational. *)
Definition root5 (q : Q) : R :=
  if Qeq_bool q 0 then 0%R else Rpower (Q2R q) (/ 5)%R.

(** [np.power(x, 1./5.)]: NaN for NaN and for negative finite [x], 0 at 0,
    [+inf] at both infinities (the exponent is not an odd integer). *)
Definition np_power_fifth (x : fl) : rfl :=
  match x with
  | NaN => RNaN
  | PInf | NInf => RPInf
  | Fin q => if Qlt_bool q 0 then RNaN else RFin (root5 q)
  end.

(** [do_stage5]. *)
Definition do_stage5
  (btd mea_btd std_btd bt_mir mea_mir std_mir sza nwin ncld nwat : grid fl)
  : grid rfl :=
  let outarr_conf :=
    map1 np_power_fifth
         (stage5_product btd mea_btd std_btd bt_mir mea_mir std_mir
                         sza nwin ncld nwat) in
  outarr_conf.

(** The entries of [data_dict] that [calc_frp] reads. *)
Record data_dict : Type := {
  platform_name : string;
  pix_area : grid fl;
  MIR__BT : grid fl;
  mean_mir : grid fl;
  fire_dets : grid fl
}.

(** [calc_frp]: the array stored under ['frp_est']; [None] stands for the
    [KeyError] of a platform without calibration constant. *)
Definition calc_frp (PYFc : PYF_Consts) (dd : data_dict) : option (grid fl) :=
  match dict_get PYFc.(rad_to_bt_dict) dd.(platform_name) with
  | None => None
  | Some a_val =>
      let frp_est :=
        ((dd.(pix_area) .* full PYFc.(sigma) ./ full a_val)
         .* (dd.(MIR__BT) .- dd.(mean_mir)))%grid in
      let frp_est := where_ (dd.(mean_mir) .> lit 0)%grid frp_est (lit 0) in
      let frp_est := where_ (dd.(fire_dets) .> lit 0)%grid frp_est (lit 0) in
      Some frp_est
  end.

(** The MIR radiance with the expected thermal part removed, as
    [compute_fire_datasets] derives it; [exp_rad] is the array
    [calc_rad_fromtb] returns for the long-wave brightness temperature. *)
Definition mir_rad_no_ir (MIR_RAD exp_rad : grid fl) : grid fl :=
  let mir_diffrad := (MIR_RAD .- exp_rad)%grid in
  where_ (map1 isfinite mir_diffrad) mir_diffrad (lit 0).

(* ================================================================== *)
(** ** Reference definitions and example inputs *)
(* ================================================================== *)

(** The high-pass stencil of size [n]: [n * n] at the centre cell and [-1]
    at every other cell. *)
Definition stencil_cell (n a b : nat) : fl :=
  if ((a =? n / 2) && (b =? n / 2))%nat then of_Z (Z.of_nat (n * n))
  else Fin (-1).

(** Cell (a, b) of a kernel. *)
Definition kern_cell (k : list (list fl)) (a b : nat) : fl :=
  nth b (nth a k []) NaN.

(** A kernel has [n] rows of [n] cells and is the stencil of size [n]. *)
Definition is_stencil (n : nat) (k : list (list fl)) : bool :=
  (List.length k =? n)%nat
  && forallb (fun row => (List.length row =? n)%nat) k
  && forallb (fun a =>
                forallb (fun b => feqb (kern_cell k a b) (stencil_cell n a b))
                        (seq 0 n))
             (seq 0 n).

(** The normalisation as the specification words it: the integer array
    divided by the sum of the absolute values of its weights. *)
Definition kern_by_abs_sum (arr : list (list Z)) : list (list fl) :=
  map (map (fun w => fdiv (of_Z w)
                          (of_Z (fold_left Z.add (map Z.abs (concat arr)) 0%Z))))
      arr.

(** Constants for the examples: the values the docstrings of
    [set_initial_thresholds] and [stage1_tests] give as defaults; the pass
    threshold, the Stefan-Boltzmann constant and the calibration table are
    example values. *)
Definition example_consts : PYF_Consts :=
  {| mir_thresh_bt := Fin (3105 # 10);
     mir_thresh_sza_adj := Fin (- (3 # 10));
     mir_thresh_limit := Fin 280;
     btd_thresh_bt := Fin (175 # 100);
     btd_thresh_sza_adj := Fin (- (49 # 10000));
     btd_thresh_limit := Fin 1;
     kern_thresh_btd := Fin (15 # 10);
     kern_thresh_sza_adj := Fin (- (12 # 1000));
     lsm_land_val := 2;
     stage1_pass_thresh := Fin 4;
     sigma := Fin (5670373 # 100000000000000);
     rad_to_bt_dict := [("Himawari-8"%string, Fin (3 # 1000000000))] |}.

(** A stand-in for [da.nanstd] in the examples. *)
Definition example_nanstd (_ : nat * nat) (_ : grid fl) : fl := Fin 1.

(** A 5x5 scene: 300 K everywhere and one hot pixel of 340 K at the centre. *)
Definition example_mir : grid fl :=
  fun i j => if ((i =? 2) && (j =? 2))%nat then Fin 340 else Fin 300.

Definition example_btd : grid fl :=
  fun i j => if ((i =? 2) && (j =? 2))%nat then Fin 20 else Fin (1 # 2).

(** The mask [stage1_tests] computes, 0 everywhere on an exception. *)
Definition mask_or_zeros (r : option (grid Z)) : grid Z :=
  match r with
  | Some m => m
  | None => full 0%Z
  end.

Definition example_pfp : grid Z :=
  mask_or_zeros
    (stage1_tests example_consts example_nanstd (5, 5)%nat
       example_mir example_btd (lit 1) (lit 10) (full 2%Z) [3; 5; 7]%Z
       example_consts.(kern_thresh_btd) example_consts.(kern_thresh_sza_adj)
       true example_consts.(lsm_land_val)).

(** Window statistics and detections for the example scene: a background
    mean of 300 K, 4 km2 pixels, the centre pixel detected. *)
Definition example_dd : data_dict :=
  {| platform_name := "Himawari-8";
     pix_area := lit 4;
     MIR__BT := example_mir;
     mean_mir := lit 300;
     fire_dets := to_float example_pfp |}.

(** A detected pixel colder than its background: 300 K against a mean of
    310 K. *)
Definition cold_dd (name : string) : data_dict :=
  {| platform_name := name;
     pix_area := lit 1;
     MIR__BT := lit 300;
     mean_mir := lit 310;
     fire_dets := lit 1 |}.

(** The clipped linear ramp as the specification words it:
    [clip((x - a) / (b - a), 0, 1)]. *)
Definition clipped_ramp (x a b : Q) : Q :=
  Qmax 0 (Qmin 1 ((x - a) / (b - a))).

(** The solar zenith angle clipped at the night threshold of 60 degrees. *)
Definition sza_clip (sza : Q) : Q := Qmin sza 60.

(** The five component scores of the confidence, in the words of the
    specification: ramps between bounds interpolated linearly from the day
    values (at 0 degrees) to the night values (at 60 degrees). *)
Definition conf_c1 (bt_mir sza : Q) : Q :=
  clipped_ramp bt_mir
    (287 + (280 - 287) / 60 * sza_clip sza)
    (327 + (310 - 327) / 60 * sza_clip sza).

Definition conf_c2 (bt_mir mea_mir std_mir : Q) : Q :=
  clipped_ramp ((bt_mir - mea_mir) / std_mir) (9 # 10) 6.

Definition conf_c3 (btd mea_btd std_btd sza : Q) : Q :=
  clipped_ramp ((btd - mea_btd) / std_btd)
    (2 + ((3 # 2) - 2) / 60 * sza_clip sza)
    (6 + (5 - 6) / 60 * sza_clip sza).

Definition conf_c4 (ncld nwin : Q) : Q :=
  1 - clipped_ramp (ncld / (nwin / 2)) 0 1.

Definition conf_c5 (nwat nwin : Q) : Q :=
  1 - clipped_ramp (nwat / (nwin / 2)) 0 1.

(** A constant grid of rationals. *)
Definition const_grid (q : Q) : grid Q := fun _ _ => q.

(** The cell of an array at a pixel. *)
Definition at_ {A : Type} (g : grid A) (p : nat * nat) : A := g (fst p) (snd p).

(** The pixels of a scene, row by row. *)
Definition pixels (shape : nat * nat) : list (nat * nat) :=
  ravel shape (fun i j => (i, j)).

(** The night pixels with positive radiance: solar zenith angle strictly
    above the threshold, radiance strictly above 0. *)
Definition night_positive (shape : nat * nat) (indata insza : grid fl)
  (sza_thr : fl) : list (nat * nat) :=
  filter (fun p => fgt (at_ insza p) sza_thr && fgt (at_ indata p) (Fin 0))
         (pixels shape).

Section Histogram.

Variable n_bins : nat.
Variables (shape : nat * nat) (indata insza : grid fl) (sza_thr : fl).
Variables lo hi : Q.

(** Bin [k] of the [n_bins] equal bins over [lo, hi], as an interval: from
    [lo + k (hi - lo) / n_bins] up to, but excluding,
    [lo + (k + 1) (hi - lo) / n_bins]; the last bin also holds its upper
    end [hi]. *)
Definition in_interval (k : nat) (v : fl) : bool :=
  match v with
  | Fin q =>
      Qle_bool (lo + inject_Z (Z.of_nat k) * (hi - lo) / inject_Z (Z.of_nat n_bins)) q
      && (Qlt_bool q (lo + inject_Z (Z.of_nat (S k)) * (hi - lo)
                           / inject_Z (Z.of_nat n_bins))
          || ((S k =? n_bins)%nat && Qle_bool q hi))
  | _ => false
  end.

(** Number of night pixels with positive radiance whose radiance lies in
    bin [k]. *)
Definition bin_count (k : nat) : Z :=
  Z.of_nat (List.length
              (filter (fun p => in_interval k (at_ indata p))
                      (night_positive shape indata insza sza_thr))).

(** Total of the bin counts. *)
Definition hist_total : Z :=
  fold_left Z.add (map bin_count (seq 0 n_bins)) 0%Z.

(** Normalised frequency of bin [k]. *)
Definition bin_freq (k : nat) : Q :=
  inject_Z (bin_count k) / inject_Z hist_total.

(** Frequency accumulated over the bins [0 .. i], in increasing order. *)
Definition cum_freq (i : nat) : Q :=
  fold_left Qplus (map bin_freq (seq 0 (S i))) 0.

(** The same in double precision: the frequency of a bin is the rounded
    quotient, and the running sum over the bins [0 .. i] is rounded after
    every addition. *)
Definition float_freq (k : nat) : Q := round64 (bin_freq k).

Definition float_cum (i : nat) : Q :=
  fold_left (fun acc k => round64 (acc + float_freq k)) (seq 0 (S i)) 0.

End Histogram.

(** Number of candidates in the 3x3 window centred on (i, j), borders
    reflected: a cell next to the border counts once for each time the
    reflection repeats it. *)
Definition window_count (shape : nat * nat) (out_dets : grid Z) (i j : nat) : Z :=
  fold_left Z.add (map (at_ out_dets) (window3 shape i j)) 0%Z.

(** The vis-diff value at (i, j) is the largest of the 3x3 window. *)
Definition local_max (shape : nat * nat) (in_vid : grid fl) (i j : nat) : Prop :=
  forall p, In p (window3 shape i j) -> fle (at_ in_vid p) (in_vid i j) = true.

(** The cells of the grid within one step of (i, j), the cell included. *)
Definition neighbourhood (shape : nat * nat) (i j : nat) : list (nat * nat) :=
  filter (fun p => (Nat.leb (fst p) (S i) && Nat.leb i (S (fst p))
                    && Nat.leb (snd p) (S j) && Nat.leb j (S (snd p)))%bool)
         (pixels shape).

(** A night scene of 2 x 51 pixels (solar zenith angle 100 degrees) with a
    dark background radiance of 0.0025 and one brighter pixel, of radiance
    0.05, in the corner (0, 0).  The diagonal neighbour (1, 1) of the
    bright pixel has a larger vis-diff value. *)
Definition night_shape : nat * nat := (2, 51)%nat.

Definition night_vi2 : grid fl :=
  fun i j =>
    if ((i =? 0) && (j =? 0))%nat then Fin (5 # 100)
    else Fin (25 # 10000).

Definition night_vid : grid fl :=
  fun i j =>
    if ((i =? 0) && (j =? 0))%nat then Fin (1 # 10)
    else if ((i =? 1) && (j =? 1))%nat then Fin (2 # 10)
    else Fin 0.

(** A 3 x 3 scene for the window step: the centre pixel is the only
    candidate, its right neighbour has the larger vis-diff value. *)
Definition step_shape : nat * nat := (3, 3)%nat.

Definition step_cand : grid Z :=
  fun i j => if ((i =? 1) && (j =? 1))%nat then 1%Z else 0%Z.

Definition step_vid : grid fl :=
  fun i j =>
    if ((i =? 1) && (j =? 1))%nat then Fin (1 # 10)
    else if ((i =? 1) && (j =? 2))%nat then Fin (3 # 10)
    else Fin 0.

(** The same scene with its only candidate in the middle of the upper
    border, above the pixel (1, 1). *)
Definition border_cand : grid Z :=
  fun i j => if ((i =? 0) && (j =? 1))%nat then 1%Z else 0%Z.

Definition night_sza : grid fl := lit 100.

Definition night_pfp : grid Z := full 1%Z.

(** The detections of a run, all zero on its early exits and on an
    exception. *)
Definition out_dets_of (r : option night_result) : grid Z :=
  match r with
  | Some (Detections out_dets _) => out_dets
  | _ => full 0%Z
  end.

Definition def_dets_of (r : option night_result) : grid Z :=
  match r with
  | Some (Detections _ def_dets) => def_dets
  | _ => full 0%Z
  end.

(** Both results of a run at one pixel. *)
Definition dets_at (r : option night_result) (i j : nat) : Z * Z :=
  (out_dets_of r i j, def_dets_of r i j).

(** A run ended on an early exit, without exception, with an array that is
    0 everywhere. *)
Definition returns_zeros (r : option night_result) : Prop :=
  exists z, r = Some (EarlyZeros z) /\ forall i j, z i j = Fin 0.

(** The example scene with an invalid MIR brightness temperature in the
    corner pixel. *)
Definition example_mir_invalid : grid fl :=
  fun i j => if ((i =? 0) && (j =? 0))%nat then NaN else example_mir i j.

(** Window statistics with an invalid background mean in the corner pixel,
    every pixel flagged as detection. *)
Definition invalid_mean_dd : data_dict :=
  {| platform_name := "Himawari-8";
     pix_area := lit 4;
     MIR__BT := example_mir;
     mean_mir := fun i j => if ((i =? 0) && (j =? 0))%nat then NaN else Fin 300;
     fire_dets := lit 1 |}.

(** The FRP array of a run, invalid everywhere on an exception. *)
Definition frp_or_nan (r : option (grid fl)) : grid fl :=
  match r with
  | Some frp => frp
  | None => full NaN
  end.

(* ================================================================== *)
(** ** Further parts of the two modules *)
(* ================================================================== *)

(** The land-sea mask [sort_l1] builds when none is loaded
    ([do_load_lsm=False]): an array filled with [PYFc.lsm_land_val], cast to
    [uint8] (the cast leaves the values 0 .. 255 unchanged). *)
Definition sort_l1_lsm (PYFc : PYF_Consts) : grid Z :=
  full (PYFc.(lsm_land_val) mod 256)%Z.

(** The test of one kernel size at one pixel, as the loop of
    [stage1_tests] evaluates it: the high-pass value of the BTD reaches the
    standard deviation of the filtered image times the kernel threshold. *)
Definition kernel_test (nanstd : nat * nat -> grid fl -> fl)
  (shape : nat * nat) (in_btd btd_kern_thr : grid fl) (i j : nat) (ksize : Z)
  : bool :=
  match do_apply_stg1b_kern2 nanstd shape in_btd ksize with
  | Some (kerval, stdval) => fge (kerval i j) (fmul stdval (btd_kern_thr i j))
  | None => false
  end.

(** Number of kernel sizes whose test a pixel passes. *)
Definition kernel_votes (nanstd : nat * nat -> grid fl -> fl)
  (shape : nat * nat) (in_btd btd_kern_thr : grid fl) (ksizes : list Z)
  (i j : nat) : nat :=
  List.length (filter (kernel_test nanstd shape in_btd btd_kern_thr i j) ksizes).

(** The example scene with the land-sea mask of [sort_l1_lsm], and without
    land-sea masking. *)
Definition example_pfp_land : grid Z :=
  mask_or_zeros
    (stage1_tests example_consts example_nanstd (5, 5)%nat
       example_mir example_btd (lit 1) (lit 10) (sort_l1_lsm example_consts)
       [3; 5; 7]%Z
       example_consts.(kern_thresh_btd) example_consts.(kern_thresh_sza_adj)
       true example_consts.(lsm_land_val)).

Definition example_pfp_unmasked : grid Z :=
  mask_or_zeros
    (stage1_tests example_consts example_nanstd (5, 5)%nat
       example_mir example_btd (lit 1) (lit 10) (full 0%Z) [3; 5; 7]%Z
       example_consts.(kern_thresh_btd) example_consts.(kern_thresh_sza_adj)
       false example_consts.(lsm_land_val)).

Definition example_pfp_reordered : grid Z :=
  mask_or_zeros
    (stage1_tests example_consts example_nanstd (5, 5)%nat
       example_mir example_btd (lit 1) (lit 10) (full 2%Z) [7; 3; 5]%Z
       example_consts.(kern_thresh_btd) example_consts.(kern_thresh_sza_adj)
       true example_consts.(lsm_land_val)).

(** The example constants with a pass threshold of 6 votes. *)
Definition strict_consts : PYF_Consts :=
  {| mir_thresh_bt := example_consts.(mir_thresh_bt);
     mir_thresh_sza_adj := example_consts.(mir_thresh_sza_adj);
     mir_thresh_limit := example_consts.(mir_thresh_limit);
     btd_thresh_bt := example_consts.(btd_thresh_bt);
     btd_thresh_sza_adj := example_consts.(btd_thresh_sza_adj);
     btd_thresh_limit := example_consts.(btd_thresh_limit);
     kern_thresh_btd := example_consts.(kern_thresh_btd);
     kern_thresh_sza_adj := example_consts.(kern_thresh_sza_adj);
     lsm_land_val := example_consts.(lsm_land_val);
     stage1_pass_thresh := Fin 6;
     sigma := example_consts.(sigma);
     rad_to_bt_dict := example_consts.(rad_to_bt_dict) |}.

Definition example_pfp_strict : grid Z :=
  mask_or_zeros
    (stage1_tests strict_consts example_nanstd (5, 5)%nat
       example_mir example_btd (lit 1) (lit 10) (full 2%Z) [3; 5; 7]%Z
       strict_consts.(kern_thresh_btd) strict_consts.(kern_thresh_sza_adj)
       true strict_consts.(lsm_land_val)).

(** A night scene of 1 x 2 pixels: a pixel brighter than the histogram
    range (radiance 5) with a moderate vis-diff value, next to a dark
    pixel (radiance 0.0025). *)
Definition pair_shape : nat * nat := (1, 2)%nat.

Definition pair_vi2 : grid fl :=
  fun i j => if (j =? 0)%nat then Fin 5 else Fin (25 # 10000).

Definition pair_vid : grid fl :=
  fun i j => if (j =? 0)%nat then Fin (1 # 10) else Fin 0.

Definition pair_run : option night_result :=
  run_basic_night_detection pair_shape pair_vi2 night_sza pair_vid night_pfp
                            default_night_opts.

Definition pair_run_no_pfp : option night_result :=
  run_basic_night_detection pair_shape pair_vi2 night_sza pair_vid (full 0%Z)
                            default_night_opts.

(** A night scene of 1 x 10 pixels whose radiances lie in the first four
    bins of the histogram over [0, 2]: 2, 4, 3 and 1 of them. *)
Definition ten_shape : nat * nat := (1, 10)%nat.

Definition ten_vi2 : grid fl :=
  fun i j =>
    if (j <? 2)%nat then Fin (1 # 1000)
    else if (j <? 6)%nat then Fin (3 # 1000)
    else if (j <? 9)%nat then Fin (6 # 1000)
    else Fin (8 # 1000).

(** A night scene of 1 x 100 pixels with 1, 5, 93 and 1 radiances in the
    first four bins. *)
Definition hundred_shape : nat * nat := (1, 100)%nat.

Definition hundred_vi2 : grid fl :=
  fun i j =>
    if (j <? 1)%nat then Fin (1 # 1000)
    else if (j <? 6)%nat then Fin (3 # 1000)
    else if (j <? 99)%nat then Fin (6 # 1000)
    else Fin (8 # 1000).

(** The arrays of the data dictionary after [compute_fire_datasets]; the
    entries that come from satpy (viewing angle, pixel area, latitudes)
    are left out. *)
Module Datasets.

Record t : Type := {
  VI1_RAD : grid fl;
  MIR_RAD : grid fl;
  LW1_RAD : grid fl;
  MIR__BT : grid fl;
  LW1__BT : grid fl;
  BTD : grid fl;
  MIR_RAD_NO_IR : grid fl;
  VI1_DIFF : grid fl;
  mi_ndfi : grid fl;
  SZA : grid fl;
  VI1_DIFF_2 : grid fl
}.

End Datasets.

(** [np.where(np.isfinite(band), band, np.nan)], the last loop of
    [compute_fire_datasets]. *)
Definition nan_unless_finite (band : grid fl) : grid fl :=
  where_ (map1 isfinite band) band (full NaN).

Section FireDatasets.

(** [calc_rad_fromtb] and [vid_adjust_sza] on float arrays (both go
    through [np.exp] and a power, kept abstract here). *)
Variable calc_rad_fromtb_arr : grid fl -> fl -> grid fl.
Variable vid_adjust_sza_arr : grid fl -> grid fl -> grid fl.

(** [compute_fire_datasets]: the five arrays read from the dictionary, the
    two solar irradiances of [irrad_dict], the central wavelength of the
    MIR band and the solar zenith angles [get_angles] returns. *)
Definition compute_fire_datasets
  (in_VI1_RAD in_MIR_RAD in_LW1_RAD in_MIR__BT in_LW1__BT : grid fl)
  (irrad_mir irrad_vi1 wvl_mir : fl) (in_SZA : grid fl) : Datasets.t :=
  let BTD := (in_MIR__BT .- in_LW1__BT)%grid in
  let exp_rad := calc_rad_fromtb_arr in_LW1__BT wvl_mir in
  let MIR_RAD_NO_IR := mir_rad_no_ir in_MIR_RAD exp_rad in
  let VI1_RAD := (in_VI1_RAD .* full irrad_mir ./ full irrad_vi1)%grid in
  let VI1_DIFF := (MIR_RAD_NO_IR .- VI1_RAD)%grid in
  let mi_ndfi :=
    ((in_MIR__BT .- in_LW1__BT) ./ (in_MIR__BT .+ in_LW1__BT))%grid in
  let adj_vid := vid_adjust_sza_arr VI1_DIFF in_SZA in
  let adj_vid := where_ (map1 isfinite adj_vid) adj_vid (lit 0) in
  {| Datasets.VI1_RAD := nan_unless_finite VI1_RAD;
     Datasets.MIR_RAD := nan_unless_finite in_MIR_RAD;
     Datasets.LW1_RAD := nan_unless_finite in_LW1_RAD;
     Datasets.MIR__BT := nan_unless_finite in_MIR__BT;
     Datasets.LW1__BT := nan_unless_finite in_LW1__BT;
     Datasets.BTD := BTD;
     Datasets.MIR_RAD_NO_IR := nan_unless_finite MIR_RAD_NO_IR;
     Datasets.VI1_DIFF := nan_unless_finite VI1_DIFF;
     Datasets.mi_ndfi := nan_unless_finite mi_ndfi;
     Datasets.SZA := in_SZA;
     Datasets.VI1_DIFF_2 := adj_vid |}.

End FireDatasets.

(* ================================================================== *)
(** ** Radiometric conversions, over the real numbers *)
(* ================================================================== *)

(** The conversions between brightness temperature and radiance go
    through [np.exp], [np.log] and real powers: they are embedded as
    functions on real numbers, one array cell at a time, rounding left
    aside. *)

(** [calc_rad_fromtb]. *)
Definition calc_rad_fromtb (temp cwl : R) : R :=
  let c1 := 1.1910429e8%R in
  let c2 := 1.4387752e4%R in
  let first := c1 in
  let second := (cwl ^ 5 * (exp (c2 / (cwl * temp)) - 1))%R in
  (first / second)%R.

(** [calc_tb_fromrad]. *)
Definition calc_tb_fromrad (rad cwl : R) : R :=
  let c1 := 1.1910429e8%R in
  let c2 := 1.4387752e4%R in
  let first := c2 in
  let second := (cwl * ln (c1 / (rad * cwl ^ 5) + 1))%R in
  (first / second)%R.

(** [vid_adjust_sza]; the defaults of the keyword arguments are
    [sza_adj=82], [min_v=0.04], [max_v=0.115], [slo_str=1.8],
    [slo_rise=0.2]. *)
Definition vid_adjust_sza (in_vid in_sza sza_adj min_v max_v slo_str slo_rise : R)
  : R :=
  let adj_val :=
    (min_v + (max_v - min_v)
             * (1 / Rpower (1 + exp (- slo_str * (in_sza - sza_adj))) slo_rise))%R in
  let adj_vid := (in_vid - adj_val)%R in
  adj_vid.

(** [py_aniso] on an image of the given shape; the slices [1:-1], [2:]
    and [0:-2] select the interior rows, or columns, and their two
    neighbours, the other cells of the four difference arrays stay 0. *)
Definition py_aniso (shape : nat * nat) (in_img : grid R)
  (niter : nat) (kappa gamma : R) : grid R :=
  let interior (n x : nat) : bool := ((1 <=? x) && (x + 1 <? n))%nat in
  let pxv : grid R := fun r c =>
    if interior (fst shape) r then Rabs (in_img (r + 1)%nat c - in_img r c)
    else 0%R in
  let nxv : grid R := fun r c =>
    if interior (fst shape) r then Rabs (in_img (r - 1)%nat c - in_img r c)
    else 0%R in
  let pyv : grid R := fun r c =>
    if interior (snd shape) c then Rabs (in_img r (c + 1)%nat - in_img r c)
    else 0%R in
  let nyv : grid R := fun r c =>
    if interior (snd shape) c then Rabs (in_img r (c - 1)%nat - in_img r c)
    else 0%R in
  let pxc : grid R := fun r c => exp (- (pxv r c ^ 2)) in
  let nxc : grid R := fun r c => exp (- (nxv r c ^ 2)) in
  let pyc : grid R := fun r c => exp (- (pyv r c ^ 2)) in
  let nyc : grid R := fun r c => exp (- (nyv r c ^ 2)) in
  fun r c =>
    (in_img r c
     + gamma * (pxv r c * pxc r c + nxv r c * nxc r c
                + pyv r c * pyc r c + nyv r c * nyc r c))%R.

(** [np.nanstd] along the stacking axis, for a pixel without NaN layer:
    the square root of the mean squared deviation from the mean. *)
Definition np_mean (l : list R) : R :=
  (fold_right Rplus 0 l / INR (List.length l))%R.

Definition np_nanstd (l : list R) : R :=
  let m := np_mean l in
  sqrt (np_mean (map (fun v => ((v - m) ^ 2)%R) l)).

(** [get_aniso_diffs]: the image and one [py_aniso] result for each entry
    of [niter_list] (with [kappa=1] and the default [gamma=0.2]), stacked,
    and the standard deviation over the stack at each pixel. *)
Definition get_aniso_diffs (shape : nat * nat) (vid_ds : grid R)
  (niter_list : list nat) : grid R :=
  let out_list :=
    vid_ds :: map (fun niter => py_aniso shape vid_ds niter 1 0.2) niter_list in
  fun r c => np_nanstd (map (fun layer : grid R => layer r c) out_list).

(* ================================================================== *)
(** * Properties *)
(* ================================================================== *)

(** ** Facts about the scalar model *)

Lemma Qlt_bool_iff (a b : Q) : Qlt_bool a b = true <-> a < b.
Proof.
  unfold Qlt_bool. rewrite negb_true_iff.
  split; intro H.
  - apply Qnot_le_lt. intro Hle. apply Qle_bool_iff in Hle. congruence.
  - destruct (Qle_bool b a) eqn:E; [|reflexivity].
    apply Qle_bool_iff in E. exfalso. apply (Qlt_not_le _ _ H E).
Qed.

Lemma Qlt_bool_false_iff (a b : Q) : Qlt_bool a b = false <-> b <= a.
Proof.
  unfold Qlt_bool. rewrite negb_false_iff. apply Qle_bool_iff.
Qed.

Lemma Qle_bool_false_iff (a b : Q) : Qle_bool a b = false <-> b < a.
Proof.
  rewrite <- Qlt_bool_iff. unfold Qlt_bool.
  destruct (Qle_bool a b); simpl; split; congruence.
Qed.

Lemma flt_Fin (a b : Q) : flt (Fin a) (Fin b) = true <-> a < b.
Proof. simpl. apply Qlt_bool_iff. Qed.

Lemma fle_Fin (a b : Q) : fle (Fin a) (Fin b) = true <-> a <= b.
Proof. simpl. apply Qle_bool_iff. Qed.


Lemma fge_nan_l (y : fl) : fge NaN y = false.
Proof. destruct y; reflexivity. Qed.

Lemma fge_nan_r (x : fl) : fge x NaN = false.
Proof. destruct x; reflexivity. Qed.

Lemma fgt_nan_l (y : fl) : fgt NaN y = false.
Proof. destruct y; reflexivity. Qed.

Lemma fadd_nan_r (x : fl) : fadd x NaN = NaN.
Proof. destruct x; reflexivity. Qed.

Lemma fmul_nan_r (x : fl) : fmul x NaN = NaN.
Proof. destruct x; reflexivity. Qed.

Lemma fsub_nan_r (x : fl) : fsub x NaN = NaN.
Proof. destruct x; reflexivity. Qed.

Lemma fdiv_nan_r (x : fl) : fdiv x NaN = NaN.
Proof. destruct x; reflexivity. Qed.

Lemma feq_refl (x : fl) : x =f= x.
Proof. destruct x; simpl; auto. reflexivity. Qed.

Lemma feq_trans (x y z : fl) : x =f= y -> y =f= z -> x =f= z.
Proof.
  destruct x, y, z; simpl; try tauto.
  intros H1 H2. rewrite H1. exact H2.
Qed.

(* ------------------------------------------------------------------ *)
(** ** Stage 1 thresholds *)

(** One threshold of [set_initial_thresholds] on finite data is the larger
    of the floor and the linear term. *)
Lemma threshold_cell (base adj lim s : Q) :
  (if flt (fadd (Fin base) (fmul (Fin adj) (Fin s))) (Fin lim)
   then Fin lim else fadd (Fin base) (fmul (Fin adj) (Fin s)))
  =f= Fin (Qmax lim (base + adj * s)).
Proof.
  simpl. destruct (Qlt_bool (base + adj * s) lim) eqn:E; simpl.
  - apply Qlt_bool_iff in E. symmetry. apply Q.max_l. apply Qlt_le_weak, E.
  - apply Qlt_bool_false_iff in E. symmetry. apply Q.max_r. exact E.
Qed.

(** C4.  For every finite solar zenith angle and finite threshold
    constants, [set_initial_thresholds] returns at each pixel
    [max(mir_thresh_limit, mir_thresh_bt + mir_thresh_sza_adj * sza)] and
    [max(btd_thresh_limit, btd_thresh_bt + btd_thresh_sza_adj * sza)];
    neither threshold is ever below its floor, and each equals its floor
    exactly where the linear term is below the floor. *)
Theorem set_initial_thresholds_floor
  (sza : grid Q) (mbt madj mlim bbt badj blim : Q) (i j : nat) :
  let r := set_initial_thresholds (map1 Fin sza)
             (Fin mbt) (Fin madj) (Fin mlim) (Fin bbt) (Fin badj) (Fin blim) in
  let mir_lin := mbt + madj * sza i j in
  let btd_lin := bbt + badj * sza i j in
  (fst r i j =f= Fin (Qmax mlim mir_lin) /\
   snd r i j =f= Fin (Qmax blim btd_lin)) /\
  (fle (Fin mlim) (fst r i j) = true /\ fle (Fin blim) (snd r i j) = true) /\
  (mir_lin < mlim -> fst r i j =f= Fin mlim) /\
  (btd_lin < blim -> snd r i j =f= Fin blim).
Proof.
  intros r mir_lin btd_lin.
  assert (Hm : fst r i j =f= Fin (Qmax mlim mir_lin))
    by exact (threshold_cell mbt madj mlim (sza i j)).
  assert (Hb : snd r i j =f= Fin (Qmax blim btd_lin))
    by exact (threshold_cell bbt badj blim (sza i j)).
  repeat split; try assumption.
  - destruct (fst r i j); simpl in Hm |- *; try contradiction.
    apply Qle_bool_iff. rewrite Hm. apply Q.le_max_l.
  - destruct (snd r i j); simpl in Hb |- *; try contradiction.
    apply Qle_bool_iff. rewrite Hb. apply Q.le_max_l.
  - intro Hlt. destruct (fst r i j); simpl in Hm |- *; try contradiction.
    rewrite Hm. apply Q.max_l. apply Qlt_le_weak, Hlt.
  - intro Hlt. destruct (snd r i j); simpl in Hb |- *; try contradiction.
    rewrite Hb. apply Q.max_l. apply Qlt_le_weak, Hlt.
Qed.

(* ------------------------------------------------------------------ *)
(** ** Stage 1 tests *)

Lemma gate_test_fail (x thresh m : grid fl) (i j : nat) :
  fge (x i j) (thresh i j) = false -> gate_test x thresh m i j = Fin 0.
Proof.
  intro H. unfold gate_test, where_, map2, lit, full. rewrite H. reflexivity.
Qed.

Lemma gate_test_pass (x thresh m : grid fl) (i j : nat) :
  fge (x i j) (thresh i j) = true ->
  gate_test x thresh m i j = fadd (m i j) (Fin 1).
Proof.
  intro H. unfold gate_test, where_, map2, lit, full. rewrite H. reflexivity.
Qed.

(** A counter that is 0 or 1 does not reach a pass threshold above 1. *)
Lemma below_pass_thresh (pt c : fl) :
  flt (Fin 1) pt = true -> c = Fin 0 \/ c = Fin (0 + 1) -> fge c pt = false.
Proof.
  intros Hpt [-> | ->]; unfold fge; destruct pt; simpl in *; try congruence;
    apply Qlt_bool_iff in Hpt; apply Qle_bool_false_iff.
  - eapply Qlt_trans; [|exact Hpt]. reflexivity.
  - assert (E : 0 + 1 == 1) by ring. rewrite E. exact Hpt.
Qed.

Section Stage1Facts.

Variable PYFc : PYF_Consts.
Variable nanstd : nat * nat -> grid fl -> fl.

(** The mask of [stage1_tests] is 0 wherever one of its gates is closed:
    the MIR, the BTD or the vis-diff comparison is false there (value below
    the threshold, or an invalid operand). *)
Lemma stage1_closed_gate shape in_mir in_btd in_vid in_sza in_lsm ksizes
      ktb ksa do_lsm lv pfp i j :
  flt (Fin 1) PYFc.(stage1_pass_thresh) = true ->
  stage1_tests PYFc nanstd shape in_mir in_btd in_vid in_sza in_lsm ksizes
               ktb ksa do_lsm lv = Some pfp ->
  fge (in_mir i j) (fst (stage1_thresholds PYFc in_sza) i j) = false \/
  fge (in_btd i j) (snd (stage1_thresholds PYFc in_sza) i j) = false \/
  fge (in_vid i j) (Fin 0) = false ->
  pfp i j = 0%Z.
Proof.
  intros Hpt Hrun Hgate.
  unfold stage1_tests in Hrun.
  destruct (stage1_thresholds PYFc in_sza) as [mir_thresh btd_thresh].
  cbn [fst snd] in Hgate.
  destruct (stage1b_loop _ _ _ _ _ _) as [votes|]; [|discriminate].
  injection Hrun as <-.
  set (m1 := gate_test in_mir mir_thresh votes).
  set (m2 := gate_test in_btd btd_thresh m1).
  set (m3 := if do_lsm
             then where_ (map1 (fun l => (l =? lv)%Z) in_lsm) m2 (lit 0)
             else m2).
  set (m4 := where_ (in_vid .>= lit 0)%grid m3 (lit 0)).
  assert (H4 : m4 i j = Fin 0 \/ m4 i j = Fin (0 + 1)).
  { destruct Hgate as [Hm | [Hb | Hv]].
    - assert (H1 : m1 i j = Fin 0) by (apply gate_test_fail; exact Hm).
      assert (H2 : m2 i j = Fin 0 \/ m2 i j = Fin (0 + 1)).
      { destruct (fge (in_btd i j) (btd_thresh i j)) eqn:E.
        - right. unfold m2. rewrite gate_test_pass by exact E.
          rewrite H1. reflexivity.
        - left. apply gate_test_fail. exact E. }
      assert (H3 : m3 i j = Fin 0 \/ m3 i j = Fin (0 + 1)).
      { unfold m3. destruct do_lsm; [|exact H2].
        unfold where_, map1. destruct (in_lsm i j =? lv)%Z; [exact H2|].
        left. reflexivity. }
      unfold m4, where_. destruct ((in_vid .>= lit 0)%grid i j); [exact H3|].
      left. reflexivity.
    - assert (H2 : m2 i j = Fin 0) by (apply gate_test_fail; exact Hb).
      assert (H3 : m3 i j = Fin 0).
      { unfold m3. destruct do_lsm; [|exact H2].
        unfold where_, map1. destruct (in_lsm i j =? lv)%Z; [exact H2|].
        reflexivity. }
      left. unfold m4, where_.
      destruct ((in_vid .>= lit 0)%grid i j); [exact H3|reflexivity].
    - left. unfold m4, where_, map2, lit, full. rewrite Hv. reflexivity. }
  unfold where_, map2, full.
  rewrite (below_pass_thresh _ _ Hpt H4). reflexivity.
Qed.


(** Every supported kernel size has a kernel. *)
Lemma make_kern_supported (ksize : Z) :
  In ksize [3; 5; 7; 9; 11]%Z -> exists kern, _make_kern ksize = Some kern.
Proof.
  simpl. intros [<- | [<- | [<- | [<- | [<- | []]]]]];
    eexists; reflexivity.
Qed.

Lemma leb_of_nat (a b : nat) :
  (a <=? b)%nat = (Z.of_nat a <=? Z.of_nat b)%Z.
Proof.
  destruct (a <=? b)%nat eqn:E; symmetry.
  - apply Nat.leb_le in E. apply Z.leb_le. lia.
  - apply Nat.leb_gt in E. apply Z.leb_gt. lia.
Qed.

(** The test of [convolve] on a kernel of [_make_kern]: half the kernel
    size against the two extents of the scene. *)
Lemma make_kern_depth (shape : nat * nat) (ksize : Z) (kern : list (list fl)) :
  _make_kern ksize = Some kern ->
  depth_fits shape kern
  = ((ksize / 2 <=? Z.of_nat (fst shape))%Z
     && (ksize / 2 <=? Z.of_nat (snd shape))%Z).
Proof.
  unfold _make_kern.
  destruct (ksize =? 3)%Z eqn:E3; [apply Z.eqb_eq in E3|
  destruct (ksize =? 5)%Z eqn:E5; [apply Z.eqb_eq in E5|
  destruct (ksize =? 7)%Z eqn:E7; [apply Z.eqb_eq in E7|
  destruct (ksize =? 9)%Z eqn:E9; [apply Z.eqb_eq in E9|
  destruct (ksize =? 11)%Z eqn:E11;
    [apply Z.eqb_eq in E11|discriminate]]]]];
    subst ksize; intro H; injection H as <-;
    unfold depth_fits; rewrite !leb_of_nat; reflexivity.
Qed.

(** [do_apply_stg1b_kern2] returns for a supported kernel size of which
    half fits into both extents of the scene. *)
Lemma do_apply_supported (shape : nat * nat) (in_variable : grid fl) (ksize : Z) :
  In ksize [3; 5; 7; 9; 11]%Z ->
  (ksize / 2 <= Z.of_nat (fst shape))%Z ->
  (ksize / 2 <= Z.of_nat (snd shape))%Z ->
  exists r, do_apply_stg1b_kern2 nanstd shape in_variable ksize = Some r.
Proof.
  intros Hk Hr Hc. destruct (make_kern_supported ksize Hk) as (kern & Ek).
  unfold do_apply_stg1b_kern2, convolve. rewrite Ek.
  rewrite (make_kern_depth shape ksize kern Ek).
  apply Z.leb_le in Hr. apply Z.leb_le in Hc. rewrite Hr, Hc.
  eexists. reflexivity.
Qed.

(** With supported kernel sizes that fit into the scene [stage1_tests]
    returns a mask. *)
Lemma stage1_tests_total shape in_mir in_btd in_vid in_sza in_lsm ksizes
      ktb ksa do_lsm lv :
  (forall k, In k ksizes ->
             In k [3; 5; 7; 9; 11]%Z /\
             (k / 2 <= Z.of_nat (fst shape))%Z /\
             (k / 2 <= Z.of_nat (snd shape))%Z) ->
  exists pfp,
    stage1_tests PYFc nanstd shape in_mir in_btd in_vid in_sza in_lsm ksizes
                 ktb ksa do_lsm lv = Some pfp.
Proof.
  intro Hk. unfold stage1_tests.
  destruct (stage1_thresholds PYFc in_sza) as [mir_thresh btd_thresh].
  assert (Hloop : forall thr votes,
             exists m, stage1b_loop nanstd shape in_btd thr ksizes votes = Some m).
  { intro thr. induction ksizes as [|k ks IH]; intro votes.
    - eexists. reflexivity.
    - destruct (Hk k (or_introl eq_refl)) as (Hs & Hr & Hc).
      destruct (do_apply_supported shape in_btd k Hs Hr Hc) as ([kerval stdval] & Ek).
      simpl. rewrite Ek.
      apply IH. intros k' Hk'. apply Hk. right. exact Hk'. }
  destruct (Hloop (full ktb .+ full ksa .* in_sza)%grid (zeros_like in_mir))
    as (m & Em).
  rewrite Em. eexists. reflexivity.
Qed.

End Stage1Facts.


(* ------------------------------------------------------------------ *)
(** ** High-pass kernels *)

Lemma feqb_feq (x y : fl) : feqb x y = true -> x =f= y.
Proof.
  destruct x, y; simpl; try congruence; auto.
  apply Qeq_bool_iff.
Qed.

Lemma forallb_seq (f : nat -> bool) (n a : nat) :
  forallb f (seq 0 n) = true -> (a < n)%nat -> f a = true.
Proof.
  intros H Ha. rewrite forallb_forall in H. apply H.
  apply in_seq. lia.
Qed.

Lemma is_stencil_spec (n : nat) (k : list (list fl)) :
  is_stencil n k = true ->
  List.length k = n /\
  (forall row, In row k -> List.length row = n) /\
  (forall a b, (a < n)%nat -> (b < n)%nat ->
               kern_cell k a b =f= stencil_cell n a b).
Proof.
  unfold is_stencil. rewrite !andb_true_iff. intros [[Hl Hr] Hc].
  split; [apply Nat.eqb_eq, Hl|]. split.
  - intros row Hin. rewrite forallb_forall in Hr.
    apply Nat.eqb_eq, Hr, Hin.
  - intros a b Ha Hb. apply feqb_feq.
    pose proof (forallb_seq _ n a Hc Ha) as Hrow. simpl in Hrow.
    exact (forallb_seq _ n b Hrow Hb).
Qed.

(** C3 (amended).  For every supported kernel size N in {3, 5, 7, 9, 11},
    [_make_kern] returns an N x N array that is the stencil with N * N at
    the centre cell and -1 at every other cell, divided by the sum of its
    weights; that sum is 1, so the stencil is returned unchanged, and the
    returned array sums to exactly 1. *)
Theorem make_kern_stencil (ksize : Z) :
  In ksize [3; 5; 7; 9; 11]%Z ->
  let n := Z.to_nat ksize in
  exists k,
    _make_kern ksize = Some k /\
    List.length k = n /\
    (forall row, In row k -> List.length row = n) /\
    (forall a b, (a < n)%nat -> (b < n)%nat ->
                 kern_cell k a b =f= stencil_cell n a b) /\
    fsum (concat k) =f= Fin 1.
Proof.
  intros Hin n.
  assert (H : exists k, _make_kern ksize = Some k /\
                        is_stencil n k = true /\ fsum (concat k) =f= Fin 1).
  { subst n. simpl in Hin.
    destruct Hin as [<- | [<- | [<- | [<- | [<- | []]]]]];
      (eexists; split; [reflexivity|]; split; vm_compute; reflexivity). }
  destruct H as (k & Hk & Hs & Hsum).
  exists k. split; [exact Hk|].
  destruct (is_stencil_spec n k Hs) as (Hl & Hr & Hc).
  auto.
Qed.

(** The 3 x 3 kernel: nine cells, 9 at the centre, -1 in a corner. *)
Lemma make_kern_stencil_witness :
  In 3%Z [3; 5; 7; 9; 11]%Z /\
  exists k,
    _make_kern 3 = Some k /\
    List.length k = 3%nat /\
    (forall row, In row k -> List.length row = 3%nat) /\
    (forall a b, (a < 3)%nat -> (b < 3)%nat ->
                 kern_cell k a b =f= stencil_cell 3 a b) /\
    fsum (concat k) =f= Fin 1.
Proof.
  split; [left; reflexivity|].
  apply (make_kern_stencil 3). left. reflexivity.
Defined.

(** C3 as stated fails: the divisor of [_make_kern] is the sum of the
    weights, not the sum of their absolute values.  For size 3 the centre
    cell of the returned kernel is 9, where division by the sum of the
    absolute weights (17) would give 9/17 and an array summing to 1/17. *)
Lemma make_kern_3_not_abs_normalised :
  exists k,
    _make_kern 3 = Some k /\
    kern_cell k 1 1 =f= Fin 9 /\
    kern_cell (kern_by_abs_sum arr_3) 1 1 =f= Fin (9 # 17) /\
    ~ kern_cell k 1 1 =f= kern_cell (kern_by_abs_sum arr_3) 1 1 /\
    ~ fsum (concat (kern_by_abs_sum arr_3)) =f= Fin 1.
Proof.
  eexists. split; [reflexivity|].
  repeat split; try (vm_compute; reflexivity);
    vm_compute; intro H; discriminate H.
Qed.

(** Sizes other than the five supported ones raise [ValueError]. *)
Lemma make_kern_unsupported (ksize : Z) :
  ~ In ksize [3; 5; 7; 9; 11]%Z -> _make_kern ksize = None.
Proof.
  intro H. unfold _make_kern.
  destruct (ksize =? 3)%Z eqn:E3;
    [apply Z.eqb_eq in E3; exfalso; apply H; simpl; auto|].
  destruct (ksize =? 5)%Z eqn:E5;
    [apply Z.eqb_eq in E5; exfalso; apply H; simpl; auto|].
  destruct (ksize =? 7)%Z eqn:E7;
    [apply Z.eqb_eq in E7; exfalso; apply H; simpl; auto|].
  destruct (ksize =? 9)%Z eqn:E9;
    [apply Z.eqb_eq in E9; exfalso; apply H; simpl; auto|].
  destruct (ksize =? 11)%Z eqn:E11;
    [apply Z.eqb_eq in E11; exfalso; apply H; simpl; do 4 right; auto|].
  reflexivity.
Qed.

(* ------------------------------------------------------------------ *)
(** ** Fire radiative power *)

Lemma fgt_zero_false (x : fl) :
  x =f= Fin 0 \/ fle x (Fin 0) = true -> fgt x (Fin 0) = false.
Proof.
  unfold fgt. destruct x; simpl; try tauto; try (intros [[] | H]; congruence).
  intros [H | H]; apply Qlt_bool_false_iff.
  - rewrite H. apply Qle_refl.
  - apply Qle_bool_iff, H.
Qed.

(** C5.  At every pixel [calc_frp] gives
    [pix_area * sigma / a_val * (MIR__BT - mean_mir)] where the pixel is a
    detection with a positive background mean, and exactly 0 wherever the
    fire mask is 0 or the background MIR mean is not positive. *)
Theorem calc_frp_gated (PYFc : PYF_Consts) (dd : data_dict) (a_val : fl)
  (i j : nat) :
  dict_get PYFc.(rad_to_bt_dict) dd.(platform_name) = Some a_val ->
  exists frp,
    calc_frp PYFc dd = Some frp /\
    (dd.(fire_dets) i j =f= Fin 0 \/ fle (dd.(mean_mir) i j) (Fin 0) = true ->
     frp i j = Fin 0) /\
    (fgt (dd.(fire_dets) i j) (Fin 0) = true ->
     fgt (dd.(mean_mir) i j) (Fin 0) = true ->
     frp i j = fmul (fdiv (fmul (dd.(pix_area) i j) PYFc.(sigma)) a_val)
                    (fsub (dd.(MIR__BT) i j) (dd.(mean_mir) i j))).
Proof.
  intro Hk. unfold calc_frp. rewrite Hk.
  eexists. split; [reflexivity|]. split.
  - intros [Hf | Hm]; unfold where_, map2, lit, full.
    + rewrite (fgt_zero_false (fire_dets dd i j)) by (left; exact Hf).
      reflexivity.
    + destruct (fgt (fire_dets dd i j) (Fin 0)); [|reflexivity].
      rewrite (fgt_zero_false (mean_mir dd i j)) by (right; exact Hm).
      reflexivity.
  - intros Hf Hm. unfold where_, map2, lit, full.
    rewrite Hf, Hm. reflexivity.
Qed.

(** Without calibration constant for the platform, [calc_frp] raises. *)
Lemma calc_frp_unsupported (PYFc : PYF_Consts) (dd : data_dict) :
  dict_get PYFc.(rad_to_bt_dict) dd.(platform_name) = None ->
  calc_frp PYFc dd = None.
Proof. intro H. unfold calc_frp. rewrite H. reflexivity. Qed.

(** On the example scene the corner pixel is no detection and has FRP 0;
    the calibration constant of the platform is in the table. *)
Lemma calc_frp_gated_witness :
  dict_get example_consts.(rad_to_bt_dict) example_dd.(platform_name)
  = Some (Fin (3 # 1000000000)) /\
  exists frp,
    calc_frp example_consts example_dd = Some frp /\
    (example_dd.(fire_dets) 0 0 =f= Fin 0 \/
     fle (example_dd.(mean_mir) 0 0) (Fin 0) = true ->
     frp 0 0 = Fin 0)%nat /\
    (fgt (example_dd.(fire_dets) 0 0) (Fin 0) = true ->
     fgt (example_dd.(mean_mir) 0 0) (Fin 0) = true ->
     frp 0 0 = fmul (fdiv (fmul (example_dd.(pix_area) 0 0)
                                example_consts.(sigma))
                          (Fin (3 # 1000000000)))
                    (fsub (example_dd.(MIR__BT) 0 0)
                          (example_dd.(mean_mir) 0 0)))%nat.
Proof.
  split; [reflexivity|].
  apply (calc_frp_gated example_consts example_dd (Fin (3 # 1000000000)) 0 0).
  reflexivity.
Defined.

(** A detected pixel colder than its positive background mean has a
    strictly negative FRP, whenever the pixel area, the Stefan-Boltzmann
    constant and the calibration constant are positive. *)
Lemma calc_frp_cold_pixel (PYFc : PYF_Consts) (dd : data_dict)
  (s a area mir mea : Q) (i j : nat) :
  PYFc.(sigma) = Fin s ->
  dict_get PYFc.(rad_to_bt_dict) dd.(platform_name) = Some (Fin a) ->
  dd.(pix_area) i j = Fin area ->
  dd.(MIR__BT) i j = Fin mir ->
  dd.(mean_mir) i j = Fin mea ->
  fgt (dd.(fire_dets) i j) (Fin 0) = true ->
  0 < s -> 0 < a -> 0 < area -> 0 < mea -> mir < mea ->
  exists frp, calc_frp PYFc dd = Some frp /\ flt (frp i j) (Fin 0) = true.
Proof.
  intros Hs Hk Harea Hmir Hmea Hfire Hs0 Ha0 Har0 Hm0 Hlt.
  unfold calc_frp. rewrite Hk. eexists. split; [reflexivity|].
  unfold where_, map2, lit, full. rewrite Hfire, Hmea.
  assert (Hpos : fgt (Fin mea) (Fin 0) = true) by (apply flt_Fin, Hm0).
  rewrite Hpos, Hs, Harea, Hmir. simpl.
  assert (Hne : Qeq_bool a 0 = false).
  { destruct (Qeq_bool a 0) eqn:E; [|reflexivity].
    apply Qeq_bool_iff in E. rewrite E in Ha0. discriminate Ha0. }
  rewrite Hne. simpl. apply Qlt_bool_iff.
  assert (Hc : 0 < area * s / a).
  { apply Qlt_shift_div_l; [exact Ha0|].
    setoid_replace (0 * a) with 0 by ring.
    setoid_replace 0 with (area * 0) at 1 by ring.
    rewrite Qmult_comm. rewrite (Qmult_comm area s).
    apply Qmult_lt_compat_r; assumption. }
  setoid_replace (area * s / a * (mir + - mea))
    with (- (area * s / a * (mea - mir))) by ring.
  assert (Hd : 0 < mea - mir).
  { setoid_replace 0 with (mir - mir) by ring.
    unfold Qminus. apply Qplus_lt_l. exact Hlt. }
  assert (Hp : 0 < area * s / a * (mea - mir)).
  { setoid_replace 0 with (0 * (mea - mir)) by ring.
    apply Qmult_lt_compat_r; assumption. }
  apply Qopp_lt_compat in Hp. exact Hp.
Qed.

(** C10.  [calc_frp] does not clamp its estimate: with positive
    Stefan-Boltzmann and calibration constants there is an input with a
    pixel where [fire_dets > 0], [mean_mir > 0] and [MIR__BT < mean_mir],
    and the FRP returned at that pixel is strictly negative. *)
Theorem calc_frp_not_clamped (PYFc : PYF_Consts) (name : string) (s a : Q) :
  PYFc.(sigma) = Fin s ->
  dict_get PYFc.(rad_to_bt_dict) name = Some (Fin a) ->
  0 < s -> 0 < a ->
  exists (dd : data_dict) (frp : grid fl) (i j : nat),
    calc_frp PYFc dd = Some frp /\
    fgt (dd.(fire_dets) i j) (Fin 0) = true /\
    fgt (dd.(mean_mir) i j) (Fin 0) = true /\
    flt (dd.(MIR__BT) i j) (dd.(mean_mir) i j) = true /\
    flt (frp i j) (Fin 0) = true.
Proof.
  intros Hs Hk Hs0 Ha0.
  destruct (calc_frp_cold_pixel PYFc (cold_dd name) s a 1 300 310 0 0)
    as (frp & Hrun & Hneg); try reflexivity; try assumption.
  exists (cold_dd name), frp, 0%nat, 0%nat.
  repeat split; try reflexivity; assumption.
Qed.

(** With the example constants the cold pixel gets a negative FRP. *)
Lemma calc_frp_not_clamped_witness :
  exists (dd : data_dict) (frp : grid fl) (i j : nat),
    calc_frp example_consts dd = Some frp /\
    fgt (dd.(fire_dets) i j) (Fin 0) = true /\
    fgt (dd.(mean_mir) i j) (Fin 0) = true /\
    flt (dd.(MIR__BT) i j) (dd.(mean_mir) i j) = true /\
    flt (frp i j) (Fin 0) = true.
Proof.
  apply (calc_frp_not_clamped example_consts "Himawari-8"
           (5670373 # 100000000000000) (3 # 1000000000));
    reflexivity.
Defined.

(* ------------------------------------------------------------------ *)
(** ** Stage 5 confidence *)

Lemma clipped_ramp_bounds (x a b : Q) :
  0 <= clipped_ramp x a b /\ clipped_ramp x a b <= 1.
Proof.
  unfold clipped_ramp. split.
  - apply Q.le_max_l.
  - apply Q.max_lub; [discriminate|apply Q.le_min_l].
Qed.

Lemma Qeq_bool_false (a : Q) : ~ a == 0 -> Qeq_bool a 0 = false.
Proof.
  intro H. destruct (Qeq_bool a 0) eqn:E; [|reflexivity].
  apply Qeq_bool_iff in E. contradiction.
Qed.

Lemma fdiv_Fin (a b : Q) : ~ b == 0 -> fdiv (Fin a) (Fin b) = Fin (a / b).
Proof. intro H. simpl. rewrite (Qeq_bool_false b H). reflexivity. Qed.

Lemma ramp_value (x a b : Q) :
  a < b ->
  (if Qlt_bool b x then 1
   else if Qlt_bool x a then 0 else (x + - a) / (b + - a))
  == clipped_ramp x a b.
Proof.
  intro Hab. unfold clipped_ramp.
  assert (Hd : 0 < b - a) by qlra.
  destruct (Qlt_bool b x) eqn:Eb.
  - apply Qlt_bool_iff in Eb.
    assert (H1 : 1 <= (x - a) / (b - a)).
    { apply Qle_shift_div_l; [exact Hd|]. qlra. }
    rewrite (Q.min_l _ _ H1). rewrite Q.max_r; [reflexivity|discriminate].
  - apply Qlt_bool_false_iff in Eb.
    assert (H1 : (x - a) / (b - a) <= 1).
    { apply Qle_shift_div_r; [exact Hd|]. qlra. }
    rewrite (Q.min_r _ _ H1).
    destruct (Qlt_bool x a) eqn:Ea.
    + apply Qlt_bool_iff in Ea.
      assert (H0 : (x - a) / (b - a) <= 0).
      { apply Qle_shift_div_r; [exact Hd|]. qlra. }
      rewrite (Q.max_l _ _ H0). reflexivity.
    + apply Qlt_bool_false_iff in Ea.
      assert (H0 : 0 <= (x - a) / (b - a)).
      { apply Qle_shift_div_l; [exact Hd|]. qlra. }
      rewrite (Q.max_r _ _ H0). reflexivity.
Qed.

Lemma comp_stat_finite (X A B : grid fl) (i j : nat) (x a b : Q) :
  X i j = Fin x -> A i j = Fin a -> B i j = Fin b -> a < b ->
  exists r, comp_stat X A B i j = Fin r /\ r == clipped_ramp x a b.
Proof.
  intros HX HA HB Hab.
  exists (if Qlt_bool b x then 1
          else if Qlt_bool x a then 0 else (x + - a) / (b + - a)).
  split; [|apply ramp_value, Hab].
  unfold comp_stat, where_, map2, lit, full. rewrite HX, HA, HB.
  unfold fgt, fsub. cbn [flt fadd fneg].
  destruct (Qlt_bool b x); [reflexivity|].
  destruct (Qlt_bool x a); [reflexivity|].
  apply fdiv_Fin. qlra.
Qed.

Lemma Q2R_zero (q : Q) : q == 0 -> Q2R q = 0%R.
Proof. intro H. rewrite (Qeq_eqR _ _ H). apply RMicromega.Q2R_0. Qed.

Lemma root5_proper (q q' : Q) : q == q' -> root5 q = root5 q'.
Proof.
  intro H. unfold root5.
  assert (E : Qeq_bool q 0 = Qeq_bool q' 0).
  { destruct (Qeq_bool q 0) eqn:E1, (Qeq_bool q' 0) eqn:E2; try reflexivity.
    - apply Qeq_bool_iff in E1. rewrite H in E1.
      apply Qeq_bool_iff in E1. congruence.
    - apply Qeq_bool_iff in E2. rewrite <- H in E2.
      apply Qeq_bool_iff in E2. congruence. }
  rewrite E, (Qeq_eqR _ _ H). reflexivity.
Qed.

Lemma root5_zero (q : Q) : q == 0 -> root5 q = 0%R.
Proof.
  intro H. unfold root5. apply Qeq_bool_iff in H. rewrite H. reflexivity.
Qed.

Lemma root5_pow5 (q : Q) : 0 <= q -> (root5 q ^ 5 = Q2R q)%R.
Proof.
  intro H. unfold root5. destruct (Qeq_bool q 0) eqn:E.
  - apply Qeq_bool_iff in E. rewrite (Q2R_zero q E). rlra.
  - assert (Hpos : (0 < Q2R q)%R).
    { rewrite <- RMicromega.Q2R_0. apply Qlt_Rlt.
      apply Qle_lteq in H. destruct H as [H | H]; [exact H|].
      symmetry in H. apply Qeq_bool_iff in H. congruence. }
    rewrite <- (Rpower_pow 5); [|apply exp_pos].
    rewrite Rpower_mult.
    replace (/ 5 * INR 5)%R with 1%R by (simpl; rlra).
    apply Rpower_1, Hpos.
Qed.

Lemma root5_bounds (q : Q) : 0 <= q -> q <= 1 -> (0 <= root5 q <= 1)%R.
Proof.
  intros H0 H1. unfold root5. destruct (Qeq_bool q 0) eqn:E.
  - rlra.
  - assert (Hpos : (0 < Q2R q)%R).
    { rewrite <- RMicromega.Q2R_0. apply Qlt_Rlt.
      apply Qle_lteq in H0. destruct H0 as [H | H]; [exact H|].
      symmetry in H. apply Qeq_bool_iff in H. congruence. }
    split; [left; apply exp_pos|].
    assert (Hle : (Q2R q <= 1)%R).
    { rewrite <- RMicromega.Q2R_1. apply Qle_Rle, H1. }
    replace 1%R with (Rpower 1 (/ 5)).
    + apply Rle_Rpower_l; [rlra|]. split; assumption.
    + unfold Rpower. rewrite ln_1, Rmult_0_r. apply exp_0.
Qed.

Lemma clipped_ramp_wd (x x' a a' b b' : Q) :
  x == x' -> a == a' -> b == b' ->
  clipped_ramp x a b == clipped_ramp x' a' b'.
Proof.
  intros Hx Ha Hb. unfold clipped_ramp. rewrite Hx, Ha, Hb. reflexivity.
Qed.

Lemma sza_thr_cell (sza : grid Q) (i j : nat) :
  exists t,
    where_ (map1 Fin sza .> lit 60)%grid (lit 60) (map1 Fin sza) i j = Fin t /\
    t == sza_clip (sza i j).
Proof.
  unfold where_, map2, map1, lit, full, fgt, sza_clip. cbn [flt].
  destruct (Qlt_bool 60 (sza i j)) eqn:E.
  - exists 60. split; [reflexivity|].
    apply Qlt_bool_iff in E. symmetry. apply Q.min_r. apply Qlt_le_weak, E.
  - exists (sza i j). split; [reflexivity|].
    apply Qlt_bool_false_iff in E. symmetry. apply Q.min_l, E.
Qed.

Lemma interp_cell (day nig : Q) (T : grid fl) (i j : nat) (t : Q) :
  T i j = Fin t ->
  (lit day .+ ((lit nig .- lit day) ./ lit 60) .* T)%grid i j
  = Fin (day + (nig - day) / 60 * t).
Proof.
  intro H. unfold map2, lit, full. rewrite H.
  unfold fsub. cbn [fadd fneg].
  rewrite fdiv_Fin by discriminate. reflexivity.
Qed.

Lemma unit_mult (a b : Q) :
  0 <= a <= 1 -> 0 <= b <= 1 -> 0 <= a * b <= 1.
Proof. intros [Ha0 Ha1] [Hb0 Hb1]. split; Lqa.nra. Qed.

Section Stage5.

Variables btd mea_btd std_btd bt_mir mea_mir std_mir sza nwin ncld nwat : grid Q.
Variables i j : nat.

Lemma count_ratio_cell (cnt : grid Q) :
  ~ nwin i j == 0 ->
  exists r,
    (lit 1 .- comp_stat (map1 Fin cnt ./ (map1 Fin nwin ./ lit 2))
                        (lit 0) (lit 1))%grid i j = Fin r /\
    r == 1 - clipped_ramp (cnt i j / (nwin i j / 2)) 0 1.
Proof.
  intro Hn.
  destruct (comp_stat_finite
              (map1 Fin cnt ./ (map1 Fin nwin ./ lit 2))%grid (lit 0) (lit 1)
              i j (cnt i j / (nwin i j / 2)) 0 1)
    as (r & Hr & Er); try reflexivity.
  - unfold map2, map1, lit, full.
    rewrite (fdiv_Fin (nwin i j) 2) by discriminate.
    apply fdiv_Fin. intro H. apply Hn.
    setoid_replace (nwin i j) with (nwin i j / 2 * 2) by field.
    rewrite H. reflexivity.
  - exists (1 + - r). split.
    + unfold map2 at 1. rewrite Hr. reflexivity.
    + rewrite Er. reflexivity.
Qed.

Lemma stage5_product_finite :
  ~ std_btd i j == 0 -> ~ std_mir i j == 0 -> ~ nwin i j == 0 ->
  exists p,
    stage5_product (map1 Fin btd) (map1 Fin mea_btd) (map1 Fin std_btd)
                   (map1 Fin bt_mir) (map1 Fin mea_mir) (map1 Fin std_mir)
                   (map1 Fin sza) (map1 Fin nwin) (map1 Fin ncld)
                   (map1 Fin nwat) i j = Fin p /\
    p == conf_c1 (bt_mir i j) (sza i j)
         * conf_c2 (bt_mir i j) (mea_mir i j) (std_mir i j)
         * conf_c3 (btd i j) (mea_btd i j) (std_btd i j) (sza i j)
         * conf_c4 (ncld i j) (nwin i j)
         * conf_c5 (nwat i j) (nwin i j).
Proof.
  intros Hsb Hsm Hn.
  destruct (sza_thr_cell sza i j) as (t & Ht & Et).
  assert (Ht60 : t <= 60) by (rewrite Et; apply Q.le_min_r).
  (* c1 *)
  destruct (comp_stat_finite (map1 Fin bt_mir)
              (lit 287 .+ ((lit 280 .- lit 287) ./ lit 60)
               .* where_ (map1 Fin sza .> lit 60)%grid (lit 60) (map1 Fin sza))%grid
              (lit 327 .+ ((lit 310 .- lit 327) ./ lit 60)
               .* where_ (map1 Fin sza .> lit 60)%grid (lit 60) (map1 Fin sza))%grid
              i j (bt_mir i j)
              (287 + (280 - 287) / 60 * t) (327 + (310 - 327) / 60 * t))
    as (r1 & H1 & E1);
    [reflexivity | apply interp_cell, Ht | apply interp_cell, Ht | |].
  { setoid_replace ((280 - 287) / 60) with (- (7 # 60)) by reflexivity.
    setoid_replace ((310 - 327) / 60) with (- (17 # 60)) by reflexivity.
    qlra. }
  (* c2 *)
  destruct (comp_stat_finite
              ((map1 Fin bt_mir .- map1 Fin mea_mir) ./ map1 Fin std_mir)%grid
              (lit (9 # 10)) (lit 6) i j
              ((bt_mir i j - mea_mir i j) / std_mir i j) (9 # 10) 6)
    as (r2 & H2 & E2);
    [unfold map2, map1; apply fdiv_Fin, Hsm
    | reflexivity | reflexivity | reflexivity |].
  (* c3 *)
  destruct (comp_stat_finite
              ((map1 Fin btd .- map1 Fin mea_btd) ./ map1 Fin std_btd)%grid
              (lit 2 .+ ((lit (3 # 2) .- lit 2) ./ lit 60)
               .* where_ (map1 Fin sza .> lit 60)%grid (lit 60) (map1 Fin sza))%grid
              (lit 6 .+ ((lit 5 .- lit 6) ./ lit 60)
               .* where_ (map1 Fin sza .> lit 60)%grid (lit 60) (map1 Fin sza))%grid
              i j ((btd i j - mea_btd i j) / std_btd i j)
              (2 + ((3 # 2) - 2) / 60 * t) (6 + (5 - 6) / 60 * t))
    as (r3 & H3 & E3);
    [unfold map2, map1; apply fdiv_Fin, Hsb
    | apply interp_cell, Ht | apply interp_cell, Ht | |].
  { setoid_replace (((3 # 2) - 2) / 60) with (- (1 # 120)) by reflexivity.
    setoid_replace ((5 - 6) / 60) with (- (1 # 60)) by reflexivity.
    qlra. }
  destruct (count_ratio_cell ncld Hn) as (r4 & H4 & E4).
  destruct (count_ratio_cell nwat Hn) as (r5 & H5 & E5).
  exists (r1 * r2 * r3 * r4 * r5). split.
  - unfold stage5_product. cbv zeta.
    unfold map2 at 1 2 3 4.
    rewrite H1, H2, H3, H4, H5. reflexivity.
  - rewrite E1, E2, E3, E4, E5.
    unfold conf_c1, conf_c3, conf_c2, conf_c4, conf_c5.
    rewrite (clipped_ramp_wd (bt_mir i j) (bt_mir i j)
               (287 + (280 - 287) / 60 * t)
               (287 + (280 - 287) / 60 * sza_clip (sza i j))
               (327 + (310 - 327) / 60 * t)
               (327 + (310 - 327) / 60 * sza_clip (sza i j)));
      [|reflexivity|rewrite Et; reflexivity|rewrite Et; reflexivity].
    rewrite (clipped_ramp_wd ((btd i j - mea_btd i j) / std_btd i j)
               ((btd i j - mea_btd i j) / std_btd i j)
               (2 + ((3 # 2) - 2) / 60 * t)
               (2 + ((3 # 2) - 2) / 60 * sza_clip (sza i j))
               (6 + (5 - 6) / 60 * t)
               (6 + (5 - 6) / 60 * sza_clip (sza i j)));
      [|reflexivity|rewrite Et; reflexivity|rewrite Et; reflexivity].
    reflexivity.
Qed.

End Stage5.

Lemma flt_nan_r (x : fl) : flt x NaN = false.
Proof. destruct x; reflexivity. Qed.

Lemma comp_stat_nan (X A B : grid fl) (i j : nat) :
  X i j = NaN -> comp_stat X A B i j = NaN.
Proof.
  intro H. unfold comp_stat, where_, map2, lit, full, fgt. rewrite H.
  rewrite flt_nan_r. reflexivity.
Qed.

Lemma Qsgn_zero (c : Q) : c == 0 -> Qsgn c = 0%Z.
Proof.
  unfold Qeq, Qsgn. simpl. intro H. rewrite Z.mul_1_r in H.
  rewrite H. reflexivity.
Qed.

(** A count divided by half of an empty window is 0/0. *)
Lemma count_ratio_unavailable (cnt nwin : grid fl) (i j : nat) :
  nwin i j =f= Fin 0 -> cnt i j =f= Fin 0 ->
  (lit 1 .- comp_stat (cnt ./ (nwin ./ lit 2)) (lit 0) (lit 1))%grid i j = NaN.
Proof.
  intros Hn Hc. unfold map2 at 1. rewrite comp_stat_nan; [reflexivity|].
  unfold map2, lit, full.
  destruct (nwin i j) as [| | |n]; simpl in Hn; try contradiction.
  destruct (cnt i j) as [| | |c]; simpl in Hc; try contradiction.
  rewrite (fdiv_Fin n 2) by discriminate.
  assert (Hz : Qeq_bool (n / 2) 0 = true).
  { apply Qeq_bool_iff. rewrite Hn. reflexivity. }
  simpl. rewrite Hz, (Qsgn_zero c Hc). reflexivity.
Qed.

(** With the sentinel of unavailable window statistics ([nwin = 0]) and no
    cloud or no water pixel counted, [do_stage5] returns NaN, whatever the
    other inputs. *)
Lemma do_stage5_unavailable
  (btd mea_btd std_btd bt_mir mea_mir std_mir sza nwin ncld nwat : grid fl)
  (i j : nat) :
  nwin i j =f= Fin 0 ->
  ncld i j =f= Fin 0 \/ nwat i j =f= Fin 0 ->
  do_stage5 btd mea_btd std_btd bt_mir mea_mir std_mir sza nwin ncld nwat i j
  = RNaN.
Proof.
  intros Hn Hc. unfold do_stage5, map1, stage5_product. cbv zeta.
  unfold map2 at 1 2. destruct Hc as [Hc | Hc].
  - rewrite (count_ratio_unavailable ncld nwin i j Hn Hc).
    rewrite fmul_nan_r. reflexivity.
  - rewrite (count_ratio_unavailable nwat nwin i j Hn Hc).
    rewrite fmul_nan_r. reflexivity.
Qed.

Section Stage5Claim.

Variables btd mea_btd std_btd bt_mir mea_mir std_mir sza nwin ncld nwat : grid Q.
Variables i j : nat.

(** C2 (amended).  At a pixel with finite inputs and valid window
    statistics (non-zero standard deviations and a non-zero window count)
    [do_stage5] returns the geometric mean [(c1 c2 c3 c4 c5)^(1/5)] of the
    five components, each the ramp [(x - a) / (b - a)] clipped to [0, 1]
    (the last two subtracted from 1): the confidence is the non-negative
    real whose fifth power is the product, it lies in [0, 1], and it is
    exactly 0 when one component is 0.  At a pixel whose window statistics
    are unavailable ([nwin = 0]) and that has no cloud or no water pixel
    counted, [do_stage5] returns NaN. *)
Theorem do_stage5_confidence :
  let c1 := conf_c1 (bt_mir i j) (sza i j) in
  let c2 := conf_c2 (bt_mir i j) (mea_mir i j) (std_mir i j) in
  let c3 := conf_c3 (btd i j) (mea_btd i j) (std_btd i j) (sza i j) in
  let c4 := conf_c4 (ncld i j) (nwin i j) in
  let c5 := conf_c5 (nwat i j) (nwin i j) in
  let conf := root5 (c1 * c2 * c3 * c4 * c5) in
  let out :=
    do_stage5 (map1 Fin btd) (map1 Fin mea_btd) (map1 Fin std_btd)
              (map1 Fin bt_mir) (map1 Fin mea_mir) (map1 Fin std_mir)
              (map1 Fin sza) (map1 Fin nwin) (map1 Fin ncld)
              (map1 Fin nwat) i j in
  (~ std_btd i j == 0 -> ~ std_mir i j == 0 -> ~ nwin i j == 0 ->
   out = RFin conf /\
   (conf ^ 5 = Q2R (c1 * c2 * c3 * c4 * c5))%R /\
   (0 <= conf <= 1)%R /\
   (c1 == 0 \/ c2 == 0 \/ c3 == 0 \/ c4 == 0 \/ c5 == 0 -> conf = 0%R)) /\
  (nwin i j == 0 -> ncld i j == 0 \/ nwat i j == 0 -> out = RNaN).
Proof.
  intros c1 c2 c3 c4 c5 conf out.
  assert (B1 : 0 <= c1 <= 1) by apply clipped_ramp_bounds.
  assert (B2 : 0 <= c2 <= 1) by apply clipped_ramp_bounds.
  assert (B3 : 0 <= c3 <= 1) by apply clipped_ramp_bounds.
  assert (B4 : 0 <= c4 <= 1).
  { unfold c4, conf_c4.
    pose proof (clipped_ramp_bounds (ncld i j / (nwin i j / 2)) 0 1) as [? ?].
    split; qlra. }
  assert (B5 : 0 <= c5 <= 1).
  { unfold c5, conf_c5.
    pose proof (clipped_ramp_bounds (nwat i j / (nwin i j / 2)) 0 1) as [? ?].
    split; qlra. }
  assert (Bp : 0 <= c1 * c2 * c3 * c4 * c5 <= 1)
    by (repeat apply unit_mult; assumption).
  split.
  - intros Hsb Hsm Hn.
    destruct (stage5_product_finite btd mea_btd std_btd bt_mir mea_mir std_mir
                sza nwin ncld nwat i j Hsb Hsm Hn) as (p & Hp & Ep).
    fold c1 c2 c3 c4 c5 in Ep.
    repeat split.
    + unfold out, do_stage5, map1 at 1. rewrite Hp. unfold np_power_fifth.
      assert (Hpos : Qlt_bool p 0 = false).
      { apply Qlt_bool_false_iff. rewrite Ep. apply Bp. }
      rewrite Hpos. unfold conf. rewrite (root5_proper p _ Ep). reflexivity.
    + apply root5_pow5, Bp.
    + apply root5_bounds; apply Bp.
    + apply root5_bounds; apply Bp.
    + intro Hz. apply root5_zero.
      destruct Hz as [Hz | [Hz | [Hz | [Hz | Hz]]]]; rewrite Hz; ring.
  - intros Hn Hc. apply do_stage5_unavailable.
    + exact Hn.
    + exact Hc.
Qed.

End Stage5Claim.

(* ------------------------------------------------------------------ *)
(** ** Rounding to double precision *)

Lemma pow2_pos (e : Z) : 0 < 2 ^ e.
Proof. apply Qpower_0_lt. reflexivity. Qed.

Lemma pow2_inject (e : Z) : (0 <= e)%Z -> 2 ^ e == inject_Z (2 ^ e).
Proof. intro H. rewrite Zpower_Qpower by exact H. reflexivity. Qed.

(** A positive rational is at least the power of two of its exponent. *)
Lemma binade_le (q : Q) : 0 < q -> 2 ^ binade q <= q.
Proof.
  intro Hq. unfold binade.
  set (a := Z.abs (Qnum q)). set (b := Zpos (Qden q)).
  set (e := (Z.log2 a - Z.log2 b)%Z).
  assert (Habs : Qabs q == q) by (apply Qabs_pos, Qlt_le_weak, Hq).
  destruct (Qlt_bool (Qabs q) (2 ^ e)) eqn:E.
  - assert (Ha : (0 < a)%Z).
    { unfold a. unfold Qlt in Hq. simpl in Hq. lia. }
    assert (Hb : (0 < b)%Z) by (unfold b; lia).
    assert (Ea : a = Qnum q).
    { unfold a. unfold Qlt in Hq. simpl in Hq. lia. }
    pose proof (Z.log2_spec a Ha) as [Hla _].
    pose proof (Z.log2_spec b Hb) as [_ Hlb].
    pose proof (Z.log2_nonneg a) as Hna. pose proof (Z.log2_nonneg b) as Hnb.
    replace (e - 1)%Z with (Z.log2 a - Z.succ (Z.log2 b))%Z by (unfold e; lia).
    rewrite Qpower_minus by discriminate.
    rewrite !pow2_inject by lia.
    assert (Eq : q == inject_Z a / inject_Z b).
    { rewrite Ea. unfold b. rewrite <- Qmake_Qdiv. destruct q; reflexivity. }
    rewrite Eq.
    assert (H1 : 0 < inject_Z (2 ^ Z.succ (Z.log2 b))).
    { change 0 with (inject_Z 0). rewrite <- Zlt_Qlt. lia. }
    assert (H2 : 0 < inject_Z b).
    { change 0 with (inject_Z 0). rewrite <- Zlt_Qlt. lia. }
    apply Qle_shift_div_r; [exact H1|].
    apply Qle_trans with (inject_Z a).
    + rewrite <- Zle_Qle. exact Hla.
    + assert (H3 : inject_Z b <= inject_Z (2 ^ Z.succ (Z.log2 b))).
      { rewrite <- Zle_Qle. lia. }
      assert (H4 : 0 <= inject_Z a).
      { change 0 with (inject_Z 0). rewrite <- Zle_Qle. lia. }
      assert (H5 : inject_Z a == inject_Z a / inject_Z b * inject_Z b).
      { field. intro H. rewrite H in H2. discriminate H2. }
      rewrite H5 at 1. apply Qmult_le_l.
      * apply Qlt_shift_div_l; [exact H2|]. rewrite Qmult_0_l.
        change 0 with (inject_Z 0). rewrite <- Zlt_Qlt. exact Ha.
      * exact H3.
  - apply Qlt_bool_false_iff in E. rewrite Habs in E. exact E.
Qed.

(** The nearest integer is within one half. *)
Lemma round_half_even_bounds (x : Q) :
  x - (1 # 2) <= inject_Z (round_half_even x) /\
  inject_Z (round_half_even x) <= x + (1 # 2).
Proof.
  unfold round_half_even.
  pose proof (Qfloor_le x) as Hl. pose proof (Qlt_floor x) as Hu.
  rewrite inject_Z_plus in Hu. change (inject_Z 1) with 1 in Hu.
  destruct (Qcompare (x - inject_Z (Qfloor x)) (1 # 2)) eqn:E.
  - apply Qeq_alt in E.
    destruct (Z.even (Qfloor x)).
    + split; qlra.
    + rewrite inject_Z_plus. change (inject_Z 1) with 1. split; qlra.
  - apply Qlt_alt in E. split; qlra.
  - apply Qgt_alt in E. rewrite inject_Z_plus. change (inject_Z 1) with 1.
    split; qlra.
Qed.

Lemma round64_zero : round64 0 = 0.
Proof. reflexivity. Qed.

Lemma round64_unfold (q : Q) :
  0 < q ->
  round64 q = inject_Z (round_half_even (q / 2 ^ (binade q - 52)))
              * 2 ^ (binade q - 52).
Proof.
  intro H. unfold round64.
  destruct (Qeq_bool q 0) eqn:E; [|reflexivity].
  apply Qeq_bool_iff in E. rewrite E in H. discriminate H.
Qed.

(** The relative error of the rounding is at most [2^-53]. *)
Lemma round64_error (q : Q) :
  0 < q ->
  q * (1 - (1 # 9007199254740992)) <= round64 q /\
  round64 q <= q * (1 + (1 # 9007199254740992)).
Proof.
  intro Hq. rewrite (round64_unfold q Hq).
  set (ulp := 2 ^ (binade q - 52)).
  assert (Hulp : 0 < ulp) by apply pow2_pos.
  assert (Hsmall : ulp <= q * (1 # 4503599627370496)).
  { unfold ulp. rewrite Qpower_minus by discriminate.
    assert (E : (2 : Q) ^ 52 == 4503599627370496) by reflexivity.
    rewrite E. pose proof (binade_le q Hq) as H.
    unfold Qdiv. apply Qmult_le_compat_r; [exact H|discriminate]. }
  destruct (round_half_even_bounds (q / ulp)) as [Hl Hu].
  set (m := inject_Z (round_half_even (q / ulp))) in *.
  assert (Eq : q == q / ulp * ulp).
  { field. intro H. rewrite H in Hulp. discriminate Hulp. }
  assert (H1 : (q / ulp - (1 # 2)) * ulp <= m * ulp).
  { apply Qmult_le_compat_r; [exact Hl|apply Qlt_le_weak, Hulp]. }
  assert (H2 : m * ulp <= (q / ulp + (1 # 2)) * ulp).
  { apply Qmult_le_compat_r; [exact Hu|apply Qlt_le_weak, Hulp]. }
  assert (E1 : (q / ulp - (1 # 2)) * ulp == q - (1 # 2) * ulp).
  { rewrite Eq at 2. ring. }
  assert (E2 : (q / ulp + (1 # 2)) * ulp == q + (1 # 2) * ulp).
  { rewrite Eq at 2. ring. }
  rewrite E1 in H1. rewrite E2 in H2.
  split; qlra.
Qed.

Lemma round64_pos (q : Q) : 0 < q -> 0 < round64 q.
Proof.
  intro Hq. destruct (round64_error q Hq) as [H _].
  apply Qlt_le_trans with (q * (1 - (1 # 9007199254740992))); [|exact H].
  apply Qmult_lt_0_compat; [exact Hq|reflexivity].
Qed.

Lemma round64_nonneg (q : Q) : 0 <= q -> 0 <= round64 q.
Proof.
  intro Hq. unfold round64. destruct (Qeq_bool q 0) eqn:E; [apply Qle_refl|].
  assert (H : 0 < q).
  { apply Qle_lteq in Hq. destruct Hq as [H | H]; [exact H|].
    apply Qeq_bool_neq in E. exfalso. apply E. symmetry. exact H. }
  pose proof (round64_pos q H) as Hp. rewrite (round64_unfold q H) in Hp.
  apply Qlt_le_weak, Hp.
Qed.


(** The doubles nearest to 0.1 and to the default fraction 0.99, and a
    tie that goes to the even significand. *)
Lemma round64_examples :
  round64 (1 # 10) == 3602879701896397 # 36028797018963968 /\
  round64 (99 # 100) == 4458563631096791 # 4503599627370496 /\
  round64 9007199254740993 == 9007199254740992 /\
  round64 9007199254740995 == 9007199254740996.
Proof. repeat split; vm_compute; reflexivity. Qed.

(** Three rounded additions: in double precision
    [0.01 + 0.05 + 0.93 > 0.99] and [0.2 + 0.4 + 0.3 + 0.1 > 1]. *)
Lemma round64_sums :
  round64 (99 # 100)
  < round64 (round64 (round64 (1 # 100) + round64 (5 # 100)) + round64 (93 # 100))
  /\
  1 < round64 (round64 (round64 (round64 (2 # 10) + round64 (4 # 10))
                        + round64 (3 # 10))
               + round64 (1 # 10)).
Proof. split; vm_compute; reflexivity. Qed.

(* ------------------------------------------------------------------ *)
(** ** Night-time background radiance *)

Lemma ravel_pixels {A : Type} (shape : nat * nat) (g : grid A) :
  ravel shape g = map (at_ g) (pixels shape).
Proof.
  unfold pixels, ravel. induction (seq 0 (fst shape)) as [|i l IH]; simpl.
  - reflexivity.
  - rewrite map_app, map_map, IH. reflexivity.
Qed.

Lemma in_pixels (shape : nat * nat) (p : nat * nat) :
  In p (pixels shape) <-> (fst p < fst shape)%nat /\ (snd p < snd shape)%nat.
Proof.
  unfold pixels, ravel. rewrite in_flat_map. split.
  - intros (i & Hi & Hp). apply in_map_iff in Hp. destruct Hp as (j & <- & Hj).
    apply in_seq in Hi. apply in_seq in Hj. simpl. lia.
  - intros [Hi Hj]. exists (fst p). split; [apply in_seq; lia|].
    apply in_map_iff. exists (snd p). split; [destruct p; reflexivity|].
    apply in_seq. lia.
Qed.

Lemma bool_index_map {A B : Type} (a : B -> A) (b : B -> bool) (l : list B) :
  bool_index (map a l) (map b l) = map a (filter b l).
Proof.
  unfold bool_index. induction l as [|x l IH]; simpl; [reflexivity|].
  destruct (b x); simpl; rewrite IH; reflexivity.
Qed.

Lemma filter_map_comm {A B : Type} (f : A -> B) (p : B -> bool) (l : list A) :
  filter p (map f l) = map f (filter (fun x => p (f x)) l).
Proof.
  induction l as [|x l IH]; simpl; [reflexivity|].
  destruct (p (f x)); simpl; rewrite IH; reflexivity.
Qed.

Lemma filter_filter {A : Type} (p q : A -> bool) (l : list A) :
  filter q (filter p l) = filter (fun x => p x && q x) l.
Proof.
  induction l as [|x l IH]; simpl; [reflexivity|].
  destruct (p x); simpl; [destruct (q x)|]; rewrite IH; reflexivity.
Qed.

(** The samples [compute_background_rad] hands to [np.histogram] are the
    radiances of the night pixels with positive radiance. *)
Lemma night_samples (shape : nat * nat) (indata insza : grid fl) (sza_thr : fl) :
  let tmp := ravel shape indata in
  let tmp := bool_index tmp (map (fun s => fgt s sza_thr) (ravel shape insza)) in
  bool_index tmp (map (fun t => fgt t (Fin 0)) tmp)
  = map (at_ indata) (night_positive shape indata insza sza_thr).
Proof.
  cbv zeta. rewrite !ravel_pixels, map_map.
  rewrite (bool_index_map (at_ indata) (fun p => fgt (at_ insza p) sza_thr)).
  set (tmp1 := map (at_ indata) _).
  rewrite <- (map_id tmp1) at 1.
  rewrite (bool_index_map (fun x => x) (fun t => fgt t (Fin 0)) tmp1).
  rewrite map_id. unfold tmp1.
  rewrite filter_map_comm, filter_filter. reflexivity.
Qed.

Lemma hist_outer_edges_proper (lo hi : Q) :
  lo < hi -> hist_outer_edges (lo, hi) = Some (lo, hi).
Proof.
  intro H. unfold hist_outer_edges.
  assert (E1 : Qlt_bool hi lo = false)
    by (apply Qlt_bool_false_iff, Qlt_le_weak, H).
  assert (E2 : Qeq_bool lo hi = false).
  { destruct (Qeq_bool lo hi) eqn:E; [|reflexivity].
    apply Qeq_bool_iff in E. rewrite E in H.
    exfalso. apply (Qlt_irrefl _ H). }
  rewrite E1, E2. reflexivity.
Qed.

(** The position of a sample in units of the bin width against a number
    [e] of bins, and the sample against the edge at [e] bins. *)
Lemma sample_position (n : nat) (lo hi q e : Q) :
  (0 < n)%nat -> lo < hi ->
  let x := (q - lo) * inject_Z (Z.of_nat n) / (hi - lo) in
  let edge := lo + e * (hi - lo) / inject_Z (Z.of_nat n) in
  (e <= x <-> edge <= q) /\ (x <= e <-> q <= edge).
Proof.
  intros Hn Hr x edge.
  assert (Hd : 0 < hi - lo) by qlra.
  assert (HN : 0 < inject_Z (Z.of_nat n)).
  { unfold Qlt. simpl. lia. }
  set (N := inject_Z (Z.of_nat n)) in *.
  assert (Ex : x * (hi - lo) == (q - lo) * N).
  { unfold x. field. intro H. rewrite H in Hd. discriminate Hd. }
  assert (Ee : (edge - lo) * N == e * (hi - lo)).
  { unfold edge. field. intro H. rewrite H in HN. discriminate HN. }
  split; split; intro H.
  - assert (H1 : (edge - lo) * N <= (q - lo) * N).
    { rewrite Ee, <- Ex.
      apply Qmult_le_compat_r; [exact H|apply Qlt_le_weak, Hd]. }
    apply Qmult_lt_0_le_reg_r in H1; [|exact HN]. qlra.
  - assert (H1 : e * (hi - lo) <= x * (hi - lo)).
    { rewrite Ex, <- Ee. apply Qmult_le_compat_r; [qlra|apply Qlt_le_weak, HN]. }
    apply Qmult_lt_0_le_reg_r in H1; assumption.
  - assert (H1 : (q - lo) * N <= (edge - lo) * N).
    { rewrite Ee, <- Ex.
      apply Qmult_le_compat_r; [exact H|apply Qlt_le_weak, Hd]. }
    apply Qmult_lt_0_le_reg_r in H1; [|exact HN]. qlra.
  - assert (H1 : x * (hi - lo) <= e * (hi - lo)).
    { rewrite Ex, <- Ee. apply Qmult_le_compat_r; [qlra|apply Qlt_le_weak, HN]. }
    apply Qmult_lt_0_le_reg_r in H1; assumption.
Qed.

Lemma bin_position (n : nat) (lo hi q : Q) (k : nat) :
  (0 < n)%nat -> lo < hi ->
  let x := (q - lo) * inject_Z (Z.of_nat n) / (hi - lo) in
  (inject_Z (Z.of_nat k) <= x <-> bin_edge n lo hi k <= q) /\
  (x <= inject_Z (Z.of_nat k) <-> q <= bin_edge n lo hi k).
Proof.
  intros Hn Hr. exact (sample_position n lo hi q (inject_Z (Z.of_nat k)) Hn Hr).
Qed.

Lemma bin_edge_first (n : nat) (lo hi : Q) : bin_edge n lo hi 0 == lo.
Proof. unfold bin_edge, Qdiv. change (inject_Z (Z.of_nat 0)) with 0. ring. Qed.

Lemma bin_edge_last (n : nat) (lo hi : Q) :
  (0 < n)%nat -> bin_edge n lo hi n == hi.
Proof.
  intro Hn. unfold bin_edge. field. intro H.
  assert (Hp : 0 < inject_Z (Z.of_nat n)) by (unfold Qlt; simpl; lia).
  rewrite H in Hp. discriminate Hp.
Qed.

(** The bins of [np.histogram]: a sample is counted when it lies in
    [lo, hi]; bin [k] holds the samples from its lower edge up to, but
    excluding, the next edge, and the last bin also holds [hi]. *)
Lemma bin_index_spec (n : nat) (lo hi q : Q) (k : nat) :
  (0 < n)%nat -> lo < hi ->
  bin_index n lo hi (Fin q) = Some k ->
  (lo <= q /\ q <= hi) /\ (k < n)%nat /\
  bin_edge n lo hi k <= q /\
  (q < bin_edge n lo hi (S k) \/ (k = pred n /\ q == hi)).
Proof.
  intros Hn Hr. unfold bin_index.
  destruct (Qle_bool lo q && Qle_bool q hi) eqn:E; [|discriminate].
  apply andb_true_iff in E. destruct E as [E1 E2].
  apply Qle_bool_iff in E1. apply Qle_bool_iff in E2.
  set (x := (q - lo) * inject_Z (Z.of_nat n) / (hi - lo)).
  pose proof (Qfloor_le x) as Hfl. pose proof (Qlt_floor x) as Hfu.
  pose proof (fun e => bin_position n lo hi q e Hn Hr) as Hpos.
  cbv zeta in Hpos. fold x in Hpos.
  assert (Hx0 : 0 <= x).
  { apply (proj2 (proj1 (Hpos 0%nat))). rewrite bin_edge_first. exact E1. }
  assert (HxN : x <= inject_Z (Z.of_nat n)).
  { apply (proj2 (proj2 (Hpos n))). rewrite (bin_edge_last n lo hi Hn).
    exact E2. }
  assert (Hz0 : (0 <= Qfloor x)%Z).
  { change 0%Z with (Qfloor 0). apply Qfloor_resp_le, Hx0. }
  assert (HzN : (Qfloor x <= Z.of_nat n)%Z).
  { rewrite <- (Qfloor_Z (Z.of_nat n)). apply Qfloor_resp_le, HxN. }
  intro H.
  assert (Hk : k = if (Z.to_nat (Qfloor x) =? n)%nat then (n - 1)%nat
                   else Z.to_nat (Qfloor x)) by (injection H as H; symmetry; exact H).
  clear H. rewrite Hk. clear Hk.
  split; [split; assumption|].
  destruct (Z.to_nat (Qfloor x) =? n)%nat eqn:En.
  - apply Nat.eqb_eq in En.
    assert (Ez : Qfloor x = Z.of_nat n) by lia.
    assert (Exn : x == inject_Z (Z.of_nat n)).
    { apply Qle_antisym; [exact HxN|]. rewrite <- Ez. exact Hfl. }
    assert (Ehi : q == hi).
    { apply Qle_antisym; [exact E2|].
      rewrite <- (bin_edge_last n lo hi Hn).
      apply (proj1 (proj1 (Hpos n))). rewrite Exn. apply Qle_refl. }
    split; [lia|]. split.
    + apply (proj1 (proj1 (Hpos (n - 1)%nat))). rewrite Exn.
      rewrite <- Zle_Qle. lia.
    + right. split; [lia|exact Ehi].
  - apply Nat.eqb_neq in En.
    split; [lia|]. split.
    + apply (proj1 (proj1 (Hpos (Z.to_nat (Qfloor x))))).
      rewrite Z2Nat.id by exact Hz0. exact Hfl.
    + left. apply Qnot_le_lt. intro Hle.
      apply (proj2 (proj1 (Hpos (S (Z.to_nat (Qfloor x)))))) in Hle.
      replace (Z.of_nat (S (Z.to_nat (Qfloor x)))) with (Qfloor x + 1)%Z
        in Hle by lia.
      apply (Qlt_not_le _ _ Hfu Hle).
Qed.

Lemma bin_edge_bounds (n : nat) (lo hi : Q) (i : nat) :
  lo < hi -> (i < n)%nat ->
  lo <= bin_edge n lo hi i /\ bin_edge n lo hi i < hi.
Proof.
  intros Hr Hi. unfold bin_edge.
  assert (Hn : 0 < inject_Z (Z.of_nat n)).
  { change 0 with (inject_Z 0). rewrite <- Zlt_Qlt. lia. }
  assert (Hi0 : 0 <= inject_Z (Z.of_nat i)).
  { change 0 with (inject_Z 0). rewrite <- Zle_Qle. lia. }
  assert (Hin : inject_Z (Z.of_nat i) < inject_Z (Z.of_nat n)).
  { rewrite <- Zlt_Qlt. lia. }
  set (x := inject_Z (Z.of_nat i)) in *. set (y := inject_Z (Z.of_nat n)) in *.
  assert (H0 : 0 <= x * (hi - lo) / y).
  { apply Qle_shift_div_l; [exact Hn|]. rewrite Qmult_0_l.
    apply Qmult_le_0_compat; [exact Hi0|qlra]. }
  assert (H1 : x * (hi - lo) / y < hi - lo).
  { apply Qlt_shift_div_r; [exact Hn|].
    rewrite (Qmult_comm x). apply Qmult_lt_l; [qlra|exact Hin]. }
  split; qlra.
Qed.

Lemma bin_edge_monotone (n : nat) (lo hi : Q) (i i' : nat) :
  (0 < n)%nat -> lo < hi -> (i <= i')%nat ->
  bin_edge n lo hi i <= bin_edge n lo hi i'.
Proof.
  intros Hn Hr Hi. unfold bin_edge.
  assert (Hy : 0 < inject_Z (Z.of_nat n)).
  { change 0 with (inject_Z 0). rewrite <- Zlt_Qlt. lia. }
  assert (Hx : inject_Z (Z.of_nat i) <= inject_Z (Z.of_nat i')).
  { rewrite <- Zle_Qle. lia. }
  apply Qplus_le_r. apply Qmult_le_compat_r.
  - apply Qmult_le_compat_r; [exact Hx|qlra].
  - apply Qlt_le_weak, Qinv_lt_0_compat, Hy.
Qed.

(** A sample inside the range has a bin. *)
Lemma bin_index_inside (n : nat) (lo hi q : Q) :
  lo <= q -> q <= hi -> exists k, bin_index n lo hi (Fin q) = Some k.
Proof.
  intros H1 H2. unfold bin_index.
  apply Qle_bool_iff in H1. apply Qle_bool_iff in H2. rewrite H1, H2.
  simpl. eexists. reflexivity.
Qed.

(** The bin [np.histogram] puts a sample in is the interval that holds
    the sample: for every bin [k] of the [n], the samples of bin [k] are
    those between its two edges, the upper edge excluded except for the
    last bin. *)
Lemma in_interval_bin_index (n : nat) (lo hi : Q) (k : nat) (v : fl) :
  lo < hi -> (k < n)%nat ->
  in_interval n lo hi k v = is_bin k (bin_index n lo hi v).
Proof.
  intros Hr Hk.
  assert (Hn : (0 < n)%nat) by lia.
  destruct v as [| | |q]; try reflexivity.
  change (in_interval n lo hi k (Fin q))
    with (Qle_bool (bin_edge n lo hi k) q
          && (Qlt_bool q (bin_edge n lo hi (S k))
              || ((S k =? n)%nat && Qle_bool q hi))).
  destruct (bin_index n lo hi (Fin q)) as [k'|] eqn:E.
  - destruct (bin_index_spec n lo hi q k' Hn Hr E)
      as ((Hlo & Hhi) & Hk' & Hedge & Hup).
    cbn [is_bin]. destruct (Nat.eqb_spec k' k) as [-> | Hne].
    + apply Qle_bool_iff in Hedge. rewrite Hedge. cbn [andb].
      destruct Hup as [Hup | (Hlast & Ehi)].
      * apply Qlt_bool_iff in Hup. rewrite Hup. reflexivity.
      * assert (E1 : (S k =? n)%nat = true) by (apply Nat.eqb_eq; lia).
        apply Qle_bool_iff in Hhi. rewrite E1, Hhi. apply orb_true_r.
    + destruct (Qle_bool (bin_edge n lo hi k) q) eqn:E1; [|reflexivity].
      apply Qle_bool_iff in E1. cbn [andb].
      destruct (Qlt_bool q (bin_edge n lo hi (S k))) eqn:E2.
      * exfalso. apply Qlt_bool_iff in E2.
        destruct (Nat.lt_ge_cases k k') as [Hlt | Hge].
        -- pose proof (bin_edge_monotone n lo hi (S k) k' Hn Hr Hlt) as Hm.
           qlra.
        -- assert (Hgt : (S k' <= k)%nat) by lia.
           pose proof (bin_edge_monotone n lo hi (S k') k Hn Hr Hgt) as Hm.
           destruct Hup as [Hup | (Hlast & _)]; [qlra|lia].
      * cbn [orb]. destruct (S k =? n)%nat eqn:E3; [|reflexivity].
        apply Nat.eqb_eq in E3. exfalso.
        assert (Hlt : (S k' <= k)%nat) by lia.
        pose proof (bin_edge_monotone n lo hi (S k') k Hn Hr Hlt) as Hm.
        destruct Hup as [Hup | (Hlast & _)]; [qlra|lia].
  - cbn [is_bin].
    assert (Hout : Qle_bool lo q && Qle_bool q hi = false).
    { unfold bin_index in E.
      destruct (Qle_bool lo q && Qle_bool q hi); [discriminate E|reflexivity]. }
    destruct (Qle_bool (bin_edge n lo hi k) q) eqn:E1; [|reflexivity].
    apply Qle_bool_iff in E1. cbn [andb].
    destruct (bin_edge_bounds n lo hi k Hr Hk) as (Hlo & _).
    assert (Hq : Qle_bool lo q = true) by (apply Qle_bool_iff; qlra).
    rewrite Hq in Hout. cbn [andb] in Hout. rewrite Hout, andb_false_r.
    apply Qle_bool_false_iff in Hout.
    assert (Hm : bin_edge n lo hi (S k) <= hi).
    { rewrite <- (bin_edge_last n lo hi Hn) at 2.
      apply bin_edge_monotone; [exact Hn|exact Hr|lia]. }
    rewrite orb_false_r. apply Qlt_bool_false_iff. qlra.
Qed.

Lemma filter_ext_fn {A : Type} (f g : A -> bool) (l : list A) :
  (forall x, f x = g x) -> filter f l = filter g l.
Proof.
  intro H. induction l as [|x l IH]; simpl; [reflexivity|].
  rewrite (H x), IH. reflexivity.
Qed.

(** The counts of [np.histogram] are the numbers of night pixels with
    positive radiance in each of the intervals. *)
Lemma histogram_counts (n : nat) (shape : nat * nat) (indata insza : grid fl)
  (sza_thr : fl) (lo hi : Q) (k : nat) :
  lo < hi -> (k < n)%nat ->
  Z.of_nat (List.length
              (filter (is_bin k)
                      (map (bin_index n lo hi)
                           (map (at_ indata)
                                (night_positive shape indata insza sza_thr)))))
  = bin_count n shape indata insza sza_thr lo hi k.
Proof.
  intros Hr Hk. unfold bin_count.
  rewrite map_map, filter_map_comm, length_map. do 2 f_equal.
  apply filter_ext_fn. intro p. symmetry.
  apply in_interval_bin_index; assumption.
Qed.

(** The pixels counted by the histogram are exactly the pixels of the
    scene that are night and have strictly positive radiance. *)
Lemma in_night_positive (shape : nat * nat) (indata insza : grid fl)
  (sza_thr : fl) (p : nat * nat) :
  In p (night_positive shape indata insza sza_thr) <->
  ((fst p < fst shape)%nat /\ (snd p < snd shape)%nat) /\
  fgt (at_ insza p) sza_thr = true /\ fgt (at_ indata p) (Fin 0) = true.
Proof.
  unfold night_positive. rewrite filter_In, in_pixels, andb_true_iff.
  reflexivity.
Qed.

Section BackgroundRad.

Variable n : nat.
Variables (shape : nat * nat) (indata insza : grid fl) (sza_thr : fl).
Variables lo hi : Q.
Hypothesis range_ok : lo < hi.

Local Abbreviation counts :=
  (map (bin_count n shape indata insza sza_thr lo hi) (seq 0 n)).
Local Abbreviation total := (hist_total n shape indata insza sza_thr lo hi).

(** [compute_background_rad] in terms of the bin counts. *)
Lemma compute_background_rad_counts (rad_sum_thr : fl) :
  background_rad_bins n shape indata insza sza_thr rad_sum_thr (lo, hi)
  = let hist := map (fun c => fround (fdiv (of_Z c) (of_Z total))) counts in
    if fle (nanmax hist) (Fin 0) || isnan (nanmax hist) then Some (Fin (-999))
    else Some (Fin (nth (cum_loop hist rad_sum_thr (Fin 0) 0)
                        (map (bin_edge n lo hi) (seq 0 (S n))) 0)).
Proof.
  unfold background_rad_bins. rewrite night_samples.
  unfold np_histogram. rewrite (hist_outer_edges_proper lo hi range_ok).
  cbv zeta.
  assert (E : map (fun k => Z.of_nat (List.length
                      (filter (is_bin k)
                         (map (bin_index n lo hi)
                            (map (at_ indata)
                               (night_positive shape indata insza sza_thr))))))
                  (seq 0 n)
              = counts).
  { apply map_ext_in. intros k Hk. apply in_seq in Hk.
    apply histogram_counts; [exact range_ok|lia]. }
  rewrite E. unfold hist_total. reflexivity.
Qed.

Lemma fold_add_zero (l : list Z) :
  (forall c, In c l -> c = 0%Z) -> fold_left Z.add l 0%Z = 0%Z.
Proof.
  induction l as [|c l IH]; intro H; simpl; [reflexivity|].
  rewrite (H c) by (left; reflexivity). simpl. apply IH.
  intros c' Hc'. apply H. right. exact Hc'.
Qed.

Lemma nanmax_all_nan (l : list fl) :
  (forall x, In x l -> x = NaN) -> nanmax l = NaN.
Proof.
  unfold nanmax. induction l as [|x l IH]; intro H; simpl; [reflexivity|].
  rewrite (H x) by (left; reflexivity). simpl. apply IH.
  intros y Hy. apply H. right. exact Hy.
Qed.

(** No night pixel with positive radiance inside the histogram range:
    every bin is empty, the normalised histogram is 0/0 everywhere and the
    sentinel is returned. *)
Lemma compute_background_rad_degenerate (rad_sum_thr : fl) :
  (forall p, In p (night_positive shape indata insza sza_thr) ->
             bin_index n lo hi (at_ indata p) = None) ->
  background_rad_bins n shape indata insza sza_thr rad_sum_thr (lo, hi)
  = Some (Fin (-999)).
Proof.
  intro Hnone. rewrite compute_background_rad_counts. cbv zeta.
  assert (Hc : forall c, In c counts -> c = 0%Z).
  { intros c Hc. apply in_map_iff in Hc. destruct Hc as (k & <- & Hk).
    apply in_seq in Hk. unfold bin_count.
    replace (filter _ _) with (@nil (nat * nat)); [reflexivity|].
    symmetry. induction (night_positive shape indata insza sza_thr)
      as [|p l IH]; [reflexivity|].
    simpl. rewrite (in_interval_bin_index n lo hi k _ range_ok) by lia.
    rewrite (Hnone p) by (left; reflexivity).
    cbn [is_bin].
    apply IH. intros q Hq. apply Hnone. right. exact Hq. }
  assert (Ht : total = 0%Z) by (apply fold_add_zero, Hc).
  rewrite Ht.
  rewrite nanmax_all_nan; [reflexivity|].
  intros x Hx. apply in_map_iff in Hx. destruct Hx as (c & <- & Hin).
  rewrite (Hc c Hin). reflexivity.
Qed.

End BackgroundRad.

Lemma nanmax_bool_nonempty (shape : nat * nat) (g : grid bool) :
  (0 < fst shape)%nat -> (0 < snd shape)%nat ->
  nanmax_bool (ravel shape g) = Some (existsb (fun b => b) (ravel shape g)).
Proof.
  intros Hr Hc.
  assert (Hin : In (at_ g (0, 0)%nat) (ravel shape g)).
  { rewrite ravel_pixels. apply in_map, in_pixels. simpl. lia. }
  destruct (ravel shape g); [destruct Hin|reflexivity].
Qed.

Lemma no_night_pixel (shape : nat * nat) (sza : grid fl) (thr : fl) :
  (forall p, In p (pixels shape) -> fgt (at_ sza p) thr = false) ->
  existsb (fun b => b) (ravel shape (sza .> full thr)%grid) = false.
Proof.
  intro H. destruct (existsb _ _) eqn:E; [|reflexivity].
  apply existsb_exists in E. destruct E as (b & Hin & Hb). subst b.
  rewrite ravel_pixels in Hin. apply in_map_iff in Hin.
  destruct Hin as (p & Hp & Hin). rewrite <- Hp. apply H, Hin.
Qed.

(** The search loop leaves an index of the histogram. *)
Lemma cum_loop_from (hist : list fl) (t : fl) :
  forall (c : fl) (i : nat), (pred i <= cum_loop hist t c i)%nat.
Proof.
  induction hist as [|h rest IH]; intros c i; cbn [cum_loop]; [lia|].
  destruct (fgt _ _); [lia|].
  specialize (IH (fround (fadd c h)) (S i)). cbn [pred] in IH. lia.
Qed.

Lemma cum_loop_range (hist : list fl) (t : fl) :
  forall (c : fl) (i : nat),
    hist <> [] ->
    (i <= cum_loop hist t c i < i + List.length hist)%nat.
Proof.
  induction hist as [|h rest IH]; intros c i Hne; [congruence|].
  cbn [cum_loop List.length]. destruct (fgt _ _); [lia|].
  destruct rest as [|h' rest'].
  - cbn [cum_loop pred List.length]. lia.
  - assert (Hne' : h' :: rest' <> []) by discriminate.
    specialize (IH (fround (fadd c h)) (S i) Hne').
    cbn [List.length] in *. lia.
Qed.

Lemma fgt_fraction (x : fl) (t t' : Q) :
  t <= t' -> fgt x (Fin t') = true -> fgt x (Fin t) = true.
Proof.
  intros Hle H. destruct x as [| | |q]; simpl in *; try congruence.
  apply Qlt_bool_iff in H. apply Qlt_bool_iff. qlra.
Qed.

(** A larger fraction ends the search at the same index or later. *)
Lemma cum_loop_monotone (hist : list fl) (t t' : Q) :
  t <= t' ->
  forall (c : fl) (i : nat),
    (cum_loop hist (Fin t) c i <= cum_loop hist (Fin t') c i)%nat.
Proof.
  intro Hle. induction hist as [|h rest IH]; intros c i; cbn [cum_loop]; [lia|].
  destruct (fgt (fround (fadd c h)) (Fin t')) eqn:E'.
  - rewrite (fgt_fraction _ t t' Hle E'). lia.
  - destruct (fgt (fround (fadd c h)) (Fin t)) eqn:E.
    + pose proof (cum_loop_from rest (Fin t') (fround (fadd c h)) (S i)) as H.
      cbn [pred] in H. exact H.
    + apply IH.
Qed.


(** When the fraction is never exceeded the loop ends on the last index. *)
Lemma cum_loop_last (qs : list Q) (t : Q) :
  forall (c : Q) (i0 : nat),
    (forall d, (d < List.length qs)%nat ->
               fold_left (fun acc q => round64 (acc + q)) (firstn (S d) qs) c
               <= t) ->
    cum_loop (map Fin qs) (Fin t) (Fin c) i0 = pred (i0 + List.length qs)%nat.
Proof.
  induction qs as [|q qs IH]; intros c i0 H.
  - simpl. rewrite Nat.add_0_r. reflexivity.
  - simpl. unfold fgt. cbn [flt].
    assert (H0 : Qlt_bool t (round64 (c + q)) = false).
    { apply Qlt_bool_false_iff. apply (H 0%nat). simpl. lia. }
    rewrite H0. rewrite IH.
    + f_equal. lia.
    + intros d Hd. apply (H (S d)). simpl. lia.
Qed.

Lemma nanmax_step_finite (qs : list Q) :
  forall a : Q,
  exists m,
    fold_left (fun acc x => if isnan x then acc
                            else if isnan acc then x else fmax acc x)
              (map Fin qs) (Fin a) = Fin m /\
    a <= m /\ (forall q, In q qs -> q <= m).
Proof.
  induction qs as [|q qs IH]; intro a; simpl.
  - exists a. split; [reflexivity|]. split; [apply Qle_refl|]. intros q [].
  - unfold fmax. cbn [flt].
    destruct (Qlt_bool a q) eqn:E.
    + apply Qlt_bool_iff in E. destruct (IH q) as (m & Hm & Hqm & Hall).
      exists m. split; [exact Hm|]. split.
      * apply Qle_trans with q; [apply Qlt_le_weak, E|exact Hqm].
      * intros q' [<- | Hin]; [exact Hqm|apply Hall, Hin].
    + apply Qlt_bool_false_iff in E. destruct (IH a) as (m & Hm & Ham & Hall).
      exists m. split; [exact Hm|]. split; [exact Ham|].
      intros q' [<- | Hin]; [|apply Hall, Hin].
      apply Qle_trans with a; assumption.
Qed.

Lemma nanmax_finite (qs : list Q) :
  qs <> [] ->
  exists m, nanmax (map Fin qs) = Fin m /\ (forall q, In q qs -> q <= m).
Proof.
  destruct qs as [|q qs]; [congruence|]. intros _.
  unfold nanmax. simpl.
  destruct (nanmax_step_finite qs q) as (m & Hm & Hqm & Hall).
  exists m. split; [exact Hm|].
  intros q' [<- | Hin]; [exact Hqm|apply Hall, Hin].
Qed.

Lemma fold_add_pos (l : list Z) :
  (forall c, In c l -> (0 <= c)%Z) ->
  forall a, (a < fold_left Z.add l a)%Z -> exists c, In c l /\ (0 < c)%Z.
Proof.
  induction l as [|c l IH]; intros Hnn a H; simpl in H; [lia|].
  destruct (Z.eq_dec c 0) as [-> | Hc].
  - rewrite Z.add_0_r in H.
    destruct (IH (fun c' Hc' => Hnn c' (or_intror Hc')) a H) as (c' & Hin & Hp).
    exists c'. split; [right; exact Hin|exact Hp].
  - exists c. split; [left; reflexivity|].
    pose proof (Hnn c (or_introl eq_refl)). lia.
Qed.

Lemma fold_Qplus_wd (l : list Q) :
  forall a b, a == b -> fold_left Qplus l a == fold_left Qplus l b.
Proof.
  induction l as [|q l IH]; intros a b H; simpl; [exact H|].
  apply IH. rewrite H. reflexivity.
Qed.

Lemma fold_Qplus_scaled (f : nat -> Z) (T : Z) (l : list nat) :
  forall a : Z,
    fold_left Qplus (map (fun k => inject_Z (f k) / inject_Z T) l)
              (inject_Z a / inject_Z T)
    == inject_Z (fold_left Z.add (map f l) a) / inject_Z T.
Proof.
  induction l as [|k l IH]; intro a; simpl; [reflexivity|].
  rewrite <- IH. apply fold_Qplus_wd.
  rewrite inject_Z_plus. unfold Qdiv. ring.
Qed.


Lemma firstn_seq_le (k : nat) :
  forall s n, (k <= n)%nat -> firstn k (seq s n) = seq s k.
Proof.
  induction k as [|k IH]; intros s n H; [reflexivity|].
  destruct n as [|n]; [lia|]. simpl. rewrite IH by lia. reflexivity.
Qed.

Lemma zero_over (T : Q) : 0 == inject_Z 0 / T.
Proof. unfold Qdiv. ring. Qed.

Lemma self_div (T : Q) : ~ T == 0 -> T / T == 1.
Proof. intro H. field. exact H. Qed.

Lemma inject_Z_pos (z : Z) : (0 < z)%Z -> 0 < inject_Z z.
Proof. intro H. unfold Qlt. simpl. lia. Qed.

Lemma fold_add_ge (l : list Z) :
  (forall x, In x l -> (0 <= x)%Z) ->
  forall a c, In c l -> (a + c <= fold_left Z.add l a)%Z.
Proof.
  induction l as [|x l IH]; intros Hnn a c Hin; [destruct Hin|].
  simpl. assert (Hl : forall y, In y l -> (0 <= y)%Z)
    by (intros y Hy; apply Hnn; right; exact Hy).
  assert (Hmono : forall b, (b <= fold_left Z.add l b)%Z).
  { clear -Hl. induction l as [|y l IHl]; intro b; simpl; [lia|].
    assert (0 <= y)%Z by (apply Hl; left; reflexivity).
    etransitivity; [|apply IHl; intros z Hz; apply Hl; right; exact Hz]. lia. }
  destruct Hin as [-> | Hin].
  - apply Hmono.
  - pose proof (Hnn x (or_introl eq_refl)).
    etransitivity; [|apply (IH Hl (a + x)%Z c Hin)]. lia.
Qed.

(** A night pixel with positive radiance inside the range makes the
    histogram non-empty. *)
Lemma hist_total_positive (n : nat) (shape : nat * nat) (indata insza : grid fl)
  (sza_thr : fl) (lo hi : Q) (p : nat * nat) (k : nat) :
  lo < hi ->
  In p (night_positive shape indata insza sza_thr) ->
  bin_index n lo hi (at_ indata p) = Some k ->
  (k < n)%nat ->
  (0 < hist_total n shape indata insza sza_thr lo hi)%Z.
Proof.
  intros Hr Hp Hk Hlt.
  assert (Hc : (0 < bin_count n shape indata insza sza_thr lo hi k)%Z).
  { unfold bin_count.
    induction (night_positive shape indata insza sza_thr) as [|q l IH];
      [destruct Hp|].
    cbn [filter]. destruct Hp as [-> | Hp].
    - rewrite (in_interval_bin_index n lo hi k _ Hr Hlt), Hk.
      cbn [is_bin]. rewrite Nat.eqb_refl.
      cbn [List.length]. lia.
    - specialize (IH Hp).
      destruct (in_interval n lo hi k (at_ indata q)); cbn [List.length]; lia. }
  assert (Hnn : forall x,
             In x (map (bin_count n shape indata insza sza_thr lo hi) (seq 0 n)) ->
             (0 <= x)%Z).
  { intros x Hx. apply in_map_iff in Hx. destruct Hx as (k' & <- & _).
    unfold bin_count. lia. }
  assert (Hin : In (bin_count n shape indata insza sza_thr lo hi k)
                   (map (bin_count n shape indata insza sza_thr lo hi) (seq 0 n)))
    by (apply in_map, in_seq; lia).
  pose proof (fold_add_ge _ Hnn 0%Z _ Hin) as Hge.
  unfold hist_total. lia.
Qed.

Lemma fold_left_map_fn {A B C : Type} (f : A -> C -> A) (g : B -> C)
  (l : list B) :
  forall a, fold_left f (map g l) a = fold_left (fun acc k => f acc (g k)) l a.
Proof.
  induction l as [|x l IH]; intro a; [reflexivity|]. simpl. apply IH.
Qed.

Lemma fold_Qplus_acc_le (l : list Q) :
  (forall x, In x l -> 0 <= x) ->
  forall a, a <= fold_left Qplus l a.
Proof.
  induction l as [|x l IH]; intros Hnn a; simpl.
  - apply Qle_refl.
  - apply Qle_trans with (a + x).
    + assert (0 <= x) by (apply Hnn; left; reflexivity). qlra.
    + apply IH. intros y Hy. apply Hnn. right. exact Hy.
Qed.

(** A partial sum of non-negative numbers is at most the full sum. *)
Lemma fold_Qplus_prefix_le (l : list Q) :
  (forall x, In x l -> 0 <= x) ->
  forall (d : nat) (a : Q),
    fold_left Qplus (firstn d l) a <= fold_left Qplus l a.
Proof.
  induction l as [|x l IH]; intros Hnn d a.
  - rewrite firstn_nil. apply Qle_refl.
  - destruct d as [|d]; simpl.
    + apply Qle_trans with (a + x).
      * assert (0 <= x) by (apply Hnn; left; reflexivity). qlra.
      * apply fold_Qplus_acc_le. intros y Hy. apply Hnn. right. exact Hy.
    + apply IH. intros y Hy. apply Hnn. right. exact Hy.
Qed.

Lemma inject_nat_nonneg (k : nat) : 0 <= inject_Z (Z.of_nat k).
Proof. change 0 with (inject_Z 0). rewrite <- Zle_Qle. lia. Qed.


(** In the other direction the relative excess is at most [4 m 2^-53], for
    any number of terms an array can hold. *)
Lemma running_sum_upper (fs : list Q) :
  (forall f, In f fs -> 0 <= f) ->
  forall (k : nat) (c s : Q),
    0 <= s -> 0 <= c ->
    (Z.of_nat (k + 2 * List.length fs) <= 4503599627370496)%Z ->
    c <= s * (1 + 2 * inject_Z (Z.of_nat k) * (1 # 9007199254740992)) ->
    fold_left (fun acc q => round64 (acc + q)) (map round64 fs) c
    <= fold_left Qplus fs s
       * (1 + 2 * inject_Z (Z.of_nat (k + 2 * List.length fs))
              * (1 # 9007199254740992)).
Proof.
  induction fs as [|f fs IH]; intros Hnn k c s Hs Hc Hk Hinv.
  - simpl. rewrite Nat.add_0_r. exact Hinv.
  - cbn [map fold_left List.length] in *.
    replace (k + 2 * S (List.length fs))%nat
      with ((k + 2) + 2 * List.length fs)%nat in * by lia.
    assert (Hf : 0 <= f) by (apply Hnn; left; reflexivity).
    pose proof (round64_nonneg f Hf) as Hrf0.
    assert (Hrf : round64 f <= f * (1 + (1 # 9007199254740992))).
    { destruct (Qeq_bool f 0) eqn:E.
      - unfold round64. rewrite E. apply Qeq_bool_iff in E. rewrite E.
        discriminate.
      - apply round64_error. apply Qle_lteq in Hf.
        destruct Hf as [H | H]; [exact H|].
        apply Qeq_bool_neq in E. exfalso. apply E. symmetry. exact H. }
    assert (Hsum : 0 <= c + round64 f) by qlra.
    pose proof (round64_nonneg _ Hsum) as Hc0.
    assert (Hc' : round64 (c + round64 f)
                  <= (c + round64 f) * (1 + (1 # 9007199254740992))).
    { destruct (Qeq_bool (c + round64 f) 0) eqn:E.
      - unfold round64 at 1. rewrite E. apply Qeq_bool_iff in E. rewrite E.
        discriminate.
      - apply round64_error. apply Qle_lteq in Hsum.
        destruct Hsum as [H | H]; [exact H|].
        apply Qeq_bool_neq in E. exfalso. apply E. symmetry. exact H. }
    apply IH.
    + intros y Hy. apply Hnn. right. exact Hy.
    + qlra.
    + exact Hc0.
    + exact Hk.
    + rewrite Nat2Z.inj_add, inject_Z_plus.
      change (inject_Z (Z.of_nat 2)) with 2.
      pose proof (inject_nat_nonneg k) as HK.
      assert (HKb : inject_Z (Z.of_nat k) <= 4503599627370496).
      { change 4503599627370496 with (inject_Z 4503599627370496).
        rewrite <- Zle_Qle. lia. }
      set (K := inject_Z (Z.of_nat k)) in *.
      set (rf := round64 f) in *. set (c' := round64 (c + rf)) in *.
      assert (H2 : 0 <= s * K) by (apply Qmult_le_0_compat; assumption).
      assert (H3 : 0 <= f * K) by (apply Qmult_le_0_compat; assumption).
      assert (H4 : s * K <= s * 4503599627370496).
      { rewrite !(Qmult_comm s). apply Qmult_le_compat_r; assumption. }
      qlra.
Qed.


Section BackgroundRadFacts.

Variable n : nat.
Variables (shape : nat * nat) (indata insza : grid fl) (sza_thr : fl).
Variables lo hi : Q.
Hypothesis range_ok : lo < hi.

Local Abbreviation count := (bin_count n shape indata insza sza_thr lo hi).
Local Abbreviation total := (hist_total n shape indata insza sza_thr lo hi).
Local Abbreviation freq := (bin_freq n shape indata insza sza_thr lo hi).
Local Abbreviation cum := (cum_freq n shape indata insza sza_thr lo hi).
Local Abbreviation ffreq := (float_freq n shape indata insza sza_thr lo hi).
Local Abbreviation fcum := (float_cum n shape indata insza sza_thr lo hi).

Hypothesis total_pos : (0 < total)%Z.

Lemma inject_total_nonzero : ~ inject_Z total == 0.
Proof.
  intro H. assert (Hlt : 0 < inject_Z total).
  { apply inject_Z_pos, total_pos. }
  rewrite H in Hlt. apply (Qlt_irrefl _ Hlt).
Qed.

(** The normalised histogram of the code: the rounded frequencies. *)
Lemma normalised_hist :
  map (fun c => fround (fdiv (of_Z c) (of_Z total))) (map count (seq 0 n))
  = map Fin (map ffreq (seq 0 n)).
Proof.
  rewrite !map_map. apply map_ext. intro k.
  unfold of_Z. rewrite (fdiv_Fin _ _ inject_total_nonzero). reflexivity.
Qed.

Lemma count_nonneg (k : nat) : (0 <= count k)%Z.
Proof. unfold bin_count. lia. Qed.

Lemma hist_total_unfold :
  total = fold_left Z.add (map count (seq 0 n)) 0%Z.
Proof. reflexivity. Qed.

Lemma bin_freq_nonneg (k : nat) : 0 <= freq k.
Proof.
  unfold bin_freq. apply Qle_shift_div_l.
  - apply inject_Z_pos, total_pos.
  - rewrite Qmult_0_l. change 0 with (inject_Z 0). rewrite <- Zle_Qle.
    apply count_nonneg.
Qed.

Lemma some_bin_positive : exists k, In k (seq 0 n) /\ 0 < freq k.
Proof.
  destruct (fold_add_pos (map count (seq 0 n))) with (a := 0%Z)
    as (c & Hin & Hc).
  - intros c Hc. apply in_map_iff in Hc. destruct Hc as (k & <- & _).
    apply count_nonneg.
  - rewrite <- hist_total_unfold. exact total_pos.
  - apply in_map_iff in Hin. destruct Hin as (k & <- & Hk).
    exists k. split; [exact Hk|]. unfold bin_freq.
    apply Qlt_shift_div_l.
    + apply inject_Z_pos, total_pos.
    + rewrite Qmult_0_l. apply inject_Z_pos, Hc.
Qed.

(** Rounding keeps the frequency of a non-empty bin positive: the
    histogram passes the test on its maximum. *)
Lemma nanmax_positive :
  let hist := map Fin (map ffreq (seq 0 n)) in
  fle (nanmax hist) (Fin 0) || isnan (nanmax hist) = false.
Proof.
  cbv zeta. destruct some_bin_positive as (k & Hk & Hpos).
  destruct (nanmax_finite (map ffreq (seq 0 n))) as (m & Hm & Hall).
  - intro E. apply (in_map ffreq) in Hk. rewrite E in Hk. destruct Hk.
  - rewrite Hm. simpl. rewrite orb_false_r. apply Qle_bool_false_iff.
    apply Qlt_le_trans with (ffreq k).
    + unfold float_freq. apply round64_pos, Hpos.
    + apply Hall, in_map, Hk.
Qed.

Lemma cum_prefix (d : nat) :
  (d < n)%nat ->
  fold_left Qplus (firstn (S d) (map freq (seq 0 n))) 0 = cum d.
Proof.
  intro Hd. unfold cum_freq. rewrite firstn_map, firstn_seq_le by lia.
  reflexivity.
Qed.

Lemma float_cum_prefix (d : nat) :
  (d < n)%nat ->
  fold_left (fun acc q => round64 (acc + q))
            (firstn (S d) (map ffreq (seq 0 n))) 0
  = fcum d.
Proof.
  intro Hd. unfold float_cum. rewrite firstn_map, firstn_seq_le by lia.
  apply (fold_left_map_fn (fun acc q => round64 (acc + q))).
Qed.

Lemma edge_nth (i : nat) :
  (i <= n)%nat ->
  nth i (map (bin_edge n lo hi) (seq 0 (S n))) 0 = bin_edge n lo hi i.
Proof.
  intro Hi.
  rewrite (nth_indep _ 0 (bin_edge n lo hi 0%nat))
    by (rewrite length_map, length_seq; lia).
  rewrite map_nth, seq_nth by lia. reflexivity.
Qed.

(** The result in terms of the index at which the search loop ends. *)
Lemma background_rad_index (t : fl) :
  background_rad_bins n shape indata insza sza_thr t (lo, hi)
  = Some (Fin (bin_edge n lo hi
                 (cum_loop (map Fin (map ffreq (seq 0 n))) t (Fin 0) 0))).
Proof.
  rewrite (compute_background_rad_counts _ _ _ _ _ _ _ range_ok). cbv zeta.
  rewrite normalised_hist, nanmax_positive.
  assert (Hne : map Fin (map ffreq (seq 0 n)) <> []).
  { destruct some_bin_positive as (k & Hk & _).
    intro E. apply (in_map ffreq), (in_map Fin) in Hk. rewrite E in Hk.
    destruct Hk. }
  pose proof (cum_loop_range _ t (Fin 0) 0%nat Hne) as Hi.
  rewrite !length_map, length_seq in Hi.
  rewrite edge_nth by lia. reflexivity.
Qed.

Lemma bins_pos : (0 < n)%nat.
Proof.
  pose proof total_pos as H. rewrite hist_total_unfold in H.
  destruct (Nat.eq_dec n 0) as [E | E]; [|lia].
  rewrite E in H. simpl in H. lia.
Qed.


(** The value returned when the running sum never exceeds the fraction. *)
Lemma background_rad_at_last (t : Q) :
  (forall k, (k < n)%nat -> fcum k <= t) ->
  background_rad_bins n shape indata insza sza_thr (Fin t) (lo, hi)
  = Some (Fin (bin_edge n lo hi (pred n))).
Proof.
  intros Hbelow.
  rewrite background_rad_index.
  rewrite (cum_loop_last _ t 0 0%nat).
  - rewrite length_map, length_seq. reflexivity.
  - intros d Hd. rewrite length_map, length_seq in Hd.
    rewrite float_cum_prefix by exact Hd. apply Hbelow, Hd.
Qed.

Lemma cum_scaled (l : list nat) (a : Z) :
  fold_left Qplus (map freq l) (inject_Z a / inject_Z total)
  == inject_Z (fold_left Z.add (map count l) a) / inject_Z total.
Proof. exact (fold_Qplus_scaled count total l a). Qed.

Lemma cum_last_is_one : cum (pred n) == 1.
Proof.
  unfold cum_freq. rewrite (Nat.succ_pred_pos n bins_pos).
  apply Qeq_trans
    with (fold_left Qplus (map freq (seq 0 n)) (inject_Z 0 / inject_Z total)).
  { apply fold_Qplus_wd, zero_over. }
  apply Qeq_trans with (inject_Z total / inject_Z total).
  { rewrite hist_total_unfold at 1. apply cum_scaled. }
  apply self_div, inject_total_nonzero.
Qed.

Lemma cum_freq_le_one (k : nat) : (k < n)%nat -> cum k <= 1.
Proof.
  intro Hk. pose proof bins_pos as Hn.
  rewrite <- cum_last_is_one.
  rewrite <- (cum_prefix k Hk).
  rewrite <- (cum_prefix (pred n)) by lia.
  replace (S (pred n)) with n by lia.
  assert (E : firstn n (map freq (seq 0 n)) = map freq (seq 0 n)).
  { apply firstn_all2. rewrite length_map, length_seq. lia. }
  rewrite E. apply fold_Qplus_prefix_le.
  intros x Hx. apply in_map_iff in Hx. destruct Hx as (k' & <- & _).
  apply bin_freq_nonneg.
Qed.

Lemma cum_freq_nonneg (k : nat) : 0 <= cum k.
Proof.
  unfold cum_freq. apply fold_Qplus_acc_le.
  intros x Hx. apply in_map_iff in Hx. destruct Hx as (k' & <- & _).
  apply bin_freq_nonneg.
Qed.

Lemma float_cum_rounded (k : nat) :
  fcum k
  = fold_left (fun acc q => round64 (acc + q))
              (map round64 (map freq (seq 0 (S k)))) 0.
Proof.
  unfold float_cum. rewrite map_map.
  symmetry. apply (fold_left_map_fn (fun acc q => round64 (acc + q))).
Qed.


(** No running sum exceeds 1 by more than [4 n 2^-53]. *)
Lemma float_cum_upper (k : nat) :
  (k < n)%nat -> (Z.of_nat (2 * n) <= 4503599627370496)%Z ->
  fcum k <= 1 + 4 * inject_Z (Z.of_nat n) * (1 # 9007199254740992).
Proof.
  intros Hk Hn.
  rewrite float_cum_rounded.
  pose proof (running_sum_upper (map freq (seq 0 (S k)))) as H.
  specialize (H (fun f Hf =>
                   match proj1 (in_map_iff _ _ _) Hf with
                   | ex_intro _ k (conj E _) =>
                       eq_ind _ (fun x => 0 <= x) (bin_freq_nonneg k) _ E
                   end)
                0%nat 0 0 (Qle_refl 0) (Qle_refl 0)).
  rewrite length_map, length_seq in H.
  assert (Hlen : (Z.of_nat (0 + 2 * S k) <= 4503599627370496)%Z) by lia.
  specialize (H Hlen).
  assert (H0 : 0 <= 0 * (1 + 2 * inject_Z (Z.of_nat 0) * (1 # 9007199254740992)))
    by (rewrite Qmult_0_l; apply Qle_refl).
  specialize (H H0).
  eapply Qle_trans; [exact H|].
  fold (cum k).
  pose proof (cum_freq_le_one k Hk) as H1.
  pose proof (cum_freq_nonneg k) as H2.
  assert (Hb : inject_Z (Z.of_nat (0 + 2 * S k)) <= 2 * inject_Z (Z.of_nat n)).
  { change 2 with (inject_Z 2). rewrite <- inject_Z_mult, <- Zle_Qle. lia. }
  pose proof (inject_nat_nonneg (0 + 2 * S k)) as Hb0.
  set (c := cum k) in *. set (a := inject_Z (Z.of_nat (0 + 2 * S k))) in *.
  set (N := inject_Z (Z.of_nat n)) in *.
  assert (H3 : c * a <= 1 * a).
  { apply Qmult_le_compat_r; assumption. }
  qlra.
Qed.


(** For every fraction the result is the lower edge of a bin. *)
Lemma background_rad_some_bin (t : Q) :
  exists i,
    (i < n)%nat /\
    background_rad_bins n shape indata insza sza_thr (Fin t) (lo, hi)
    = Some (Fin (bin_edge n lo hi i)).
Proof.
  eexists. split; [|apply background_rad_index].
  assert (Hne : map Fin (map ffreq (seq 0 n)) <> []).
  { destruct some_bin_positive as (k & Hk & _).
    intro E. apply (in_map ffreq), (in_map Fin) in Hk. rewrite E in Hk.
    destruct Hk. }
  pose proof (cum_loop_range _ (Fin t) (Fin 0) 0%nat Hne) as Hi.
  rewrite !length_map, length_seq in Hi. lia.
Qed.

(** A larger fraction is first exceeded at the same bin or at a later
    one. *)
Lemma background_rad_later_bin (t t' : Q) :
  t <= t' ->
  exists i i',
    (i <= i')%nat /\ (i' < n)%nat /\
    background_rad_bins n shape indata insza sza_thr (Fin t) (lo, hi)
    = Some (Fin (bin_edge n lo hi i)) /\
    background_rad_bins n shape indata insza sza_thr (Fin t') (lo, hi)
    = Some (Fin (bin_edge n lo hi i')).
Proof.
  intro Hle.
  eexists. eexists.
  split; [|split; [|split; apply background_rad_index]].
  - apply cum_loop_monotone, Hle.
  - assert (Hne : map Fin (map ffreq (seq 0 n)) <> []).
    { destruct some_bin_positive as (k & Hk & _).
      intro E. apply (in_map ffreq), (in_map Fin) in Hk. rewrite E in Hk.
      destruct Hk. }
    pose proof (cum_loop_range _ (Fin t') (Fin 0) 0%nat Hne) as Hi.
    rewrite !length_map, length_seq in Hi. lia.
Qed.

(** A fraction above every running sum is never exceeded: the loop runs to
    its end and the index is the last one. *)
Lemma background_rad_no_break (t : Q) :
  (Z.of_nat (2 * n) <= 4503599627370496)%Z ->
  1 + 4 * inject_Z (Z.of_nat n) * (1 # 9007199254740992) <= t ->
  background_rad_bins n shape indata insza sza_thr (Fin t) (lo, hi)
  = Some (Fin (bin_edge n lo hi (pred n))).
Proof.
  intros Hn Ht. apply background_rad_at_last.
  intros k Hk. apply Qle_trans with (2 := Ht).
  apply float_cum_upper; assumption.
Qed.

End BackgroundRadFacts.


(** The running sum is the one of the code, not the exact one.  In the
    scene of ten night pixels the frequencies are 0.2, 0.4, 0.3 and 0.1;
    their running sum in double precision exceeds 1 at the fourth bin
    ([round64_sums]), and with a fraction of 1 the code leaves the loop
    there and returns 0.0075, the lower edge of that bin. *)
Lemma running_sum_exceeds_one :
  exists e,
    compute_background_rad ten_shape ten_vi2 night_sza (Fin 97) (Fin 1) (0, 2)
    = Some (Fin e) /\
    e == 75 # 10000.
Proof.
  eexists. split; [vm_compute; reflexivity|]. reflexivity.
Qed.

(** With the default fraction, in the scene of a hundred night pixels the
    frequencies 0.01, 0.05 and 0.93 of the first three bins add up, in
    double precision, to more than the double 0.99: the loop is left at the
    third bin and its lower edge 0.005 is returned. *)
Lemma default_fraction_tie :
  exists e,
    compute_background_rad hundred_shape hundred_vi2 night_sza (Fin 97)
                           default_rad_sum_thr (0, 2)
    = Some (Fin e) /\
    e == 5 # 1000.
Proof.
  eexists. split; [vm_compute; reflexivity|]. reflexivity.
Qed.

(* ------------------------------------------------------------------ *)
(** ** Night-time detection: the 3x3 window step *)

Lemma reflect_inside (n i : nat) : (i < n)%nat -> reflect n (Z.of_nat i) = i.
Proof.
  intro H. unfold reflect.
  rewrite Z.mod_small by lia.
  assert (E : (Z.of_nat i <? Z.of_nat n)%Z = true) by (apply Z.ltb_lt; lia).
  rewrite E. apply Nat2Z.id.
Qed.

(** The sum filter counts the candidates of the window. *)
Lemma det_sum_count (shape : nat * nat) (out_dets : grid Z) (i j : nat) :
  exists q, det_sum shape out_dets i j = Fin q /\
            q == inject_Z (window_count shape out_dets i j).
Proof.
  unfold det_sum, convolve_cells, ones3, to_float, map1, of_Z, window_count, window3, at_.
  cbn [List.length Nat.div Nat.divmod fst snd seq flat_map map app nth fsum
       fold_left fmul fadd].
  eexists. split; [reflexivity|].
  rewrite !inject_Z_plus.
  change (Z.of_nat 0) with 0%Z. change (Z.of_nat 1) with 1%Z.
  change (Z.of_nat 2) with 2%Z. change (inject_Z 0) with 0.
  replace (Z.of_nat i + 1 - 0)%Z with (Z.of_nat i + 1)%Z by lia.
  replace (Z.of_nat i + 1 - 1)%Z with (Z.of_nat i + 0)%Z by lia.
  replace (Z.of_nat i + 1 - 2)%Z with (Z.of_nat i + -1)%Z by lia.
  replace (Z.of_nat j + 1 - 0)%Z with (Z.of_nat j + 1)%Z by lia.
  replace (Z.of_nat j + 1 - 1)%Z with (Z.of_nat j + 0)%Z by lia.
  replace (Z.of_nat j + 1 - 2)%Z with (Z.of_nat j + -1)%Z by lia.
  ring.
Qed.

(** The maximum filter over finite values. *)
Lemma fmax_fold_finite (vs : list fl) :
  (forall v, In v vs -> isfinite v = true) ->
  forall a : Q,
  exists m,
    fold_left fmax vs (Fin a) = Fin m /\
    (fle (Fin a) (Fin m) = true /\
     forall v, In v vs -> fle v (Fin m) = true) /\
    (m = a \/ In (Fin m) vs).
Proof.
  induction vs as [|v vs IH]; intros Hfin a.
  - exists a. simpl. split; [reflexivity|]. split; [|left; reflexivity].
    split; [apply Qle_bool_iff, Qle_refl|intros v []].
  - destruct v as [| | |q]; try (discriminate (Hfin _ (or_introl eq_refl))).
    assert (Hfin' : forall v, In v vs -> isfinite v = true)
      by (intros v Hv; apply Hfin; right; exact Hv).
    simpl. unfold fmax at 2. cbn [flt].
    destruct (Qlt_bool a q) eqn:E.
    + apply Qlt_bool_iff in E.
      destruct (IH Hfin' q) as (m & Hm & (Hqm & Hall) & Hin).
      exists m. split; [exact Hm|]. apply fle_Fin in Hqm. split.
      * split; [apply fle_Fin; apply Qle_trans with q;
                [apply Qlt_le_weak, E|exact Hqm]|].
        intros v [<- | Hv]; [apply fle_Fin, Hqm|apply Hall, Hv].
      * right. destruct Hin as [-> | Hin]; [left; reflexivity|right; exact Hin].
    + apply Qlt_bool_false_iff in E.
      destruct (IH Hfin' a) as (m & Hm & (Ham & Hall) & Hin).
      exists m. split; [exact Hm|]. apply fle_Fin in Ham. split.
      * split; [apply fle_Fin, Ham|].
        intros v [<- | Hv]; [|apply Hall, Hv].
        apply fle_Fin. apply Qle_trans with a; assumption.
      * destruct Hin as [-> | Hin]; [left; reflexivity|right; right; exact Hin].
Qed.

Lemma maximum_filter3_finite (shape : nat * nat) (image : grid fl) (i j : nat) :
  (forall p, In p (window3 shape i j) -> isfinite (at_ image p) = true) ->
  exists m,
    maximum_filter3 shape image i j = Fin m /\
    (forall p, In p (window3 shape i j) -> fle (at_ image p) (Fin m) = true) /\
    (exists p, In p (window3 shape i j) /\ at_ image p = Fin m).
Proof.
  intro Hfin. unfold maximum_filter3.
  change (fun p : nat * nat => image (fst p) (snd p)) with (at_ image).
  destruct (window3 shape i j) as [|p0 ps] eqn:Ew.
  - discriminate Ew.
  - simpl. destruct (at_ image p0) as [| | |a] eqn:E0;
      try (pose proof (Hfin p0 (or_introl eq_refl)) as H;
           rewrite E0 in H; discriminate H).
    destruct (fmax_fold_finite (map (at_ image) ps)) with (a := a)
      as (m & Hm & (Ham & Hall) & Hin).
    + intros v Hv. apply in_map_iff in Hv. destruct Hv as (p & <- & Hp).
      apply Hfin. right. exact Hp.
    + exists m. split; [exact Hm|]. split.
      * intros p [<- | Hp]; [rewrite E0; exact Ham|].
        apply Hall, in_map, Hp.
      * destruct Hin as [-> | Hin].
        -- exists p0. split; [left; reflexivity|exact E0].
        -- apply in_map_iff in Hin. destruct Hin as (p & Hp & Hin).
           exists p. split; [right; exact Hin|exact Hp].
Qed.

Lemma centre_in_window (shape : nat * nat) (i j : nat) :
  (i < fst shape)%nat -> (j < snd shape)%nat ->
  In (i, j) (window3 shape i j).
Proof.
  intros Hi Hj. unfold window3. simpl.
  do 4 right. left.
  rewrite !Z.add_0_r, !reflect_inside by assumption. reflexivity.
Qed.

Lemma inject_Z_one_iff (z : Z) : inject_Z z == 1 <-> z = 1%Z.
Proof.
  unfold Qeq. simpl. rewrite Z.mul_1_r. reflexivity.
Qed.

(** The step, cell by cell: where the window holds exactly one candidate
    the result is decided by the comparison with the window maximum,
    elsewhere the candidate mask is kept. *)
Lemma night_window_step_cell (shape : nat * nat) (in_vid : grid fl)
  (out_dets : grid Z) (i j : nat) :
  night_window_step shape in_vid out_dets i j
  = if (window_count shape out_dets i j =? 1)%Z
    then if feqb (in_vid i j) (maximum_filter3 shape in_vid i j)
         then 1%Z else 0%Z
    else out_dets i j.
Proof.
  destruct (det_sum_count shape out_dets i j) as (q & Hq & Eq).
  unfold night_window_step, where_, map2, lit, full. rewrite Hq.
  cbn [feqb].
  destruct (window_count shape out_dets i j =? 1)%Z eqn:E.
  - apply Z.eqb_eq in E. rewrite E in Eq. change (inject_Z 1) with 1 in Eq.
    apply Qeq_bool_iff in Eq. rewrite Eq. reflexivity.
  - apply Z.eqb_neq in E.
    destruct (Qeq_bool q 1) eqn:E1; [|reflexivity].
    apply Qeq_bool_iff in E1. rewrite Eq in E1.
    exfalso. exact (E (proj1 (inject_Z_one_iff _) E1)).
Qed.

(** The 3x3 sum filter of the step is a call of [convolve] that returns
    on every scene with at least one pixel. *)
Lemma det_sum_convolve (shape : nat * nat) (out_dets : grid Z) :
  (0 < fst shape)%nat -> (0 < snd shape)%nat ->
  convolve shape (to_float out_dets) ones3 = Some (det_sum shape out_dets).
Proof.
  intros Hr Hc. unfold convolve, depth_fits, det_sum, ones3.
  cbn [List.length hd Nat.div Nat.divmod fst snd].
  assert (E1 : (1 <=? fst shape)%nat = true) by (apply Nat.leb_le; lia).
  assert (E2 : (1 <=? snd shape)%nat = true) by (apply Nat.leb_le; lia).
  rewrite E1, E2. reflexivity.
Qed.

(** X28.  The window step, case by case.  For every pixel of the scene
    whose window (borders reflected) holds finite vis-diff values: where
    the window holds exactly one candidate, the pixel, candidate or not, is
    set when its vis-diff value is the maximum of the window and cleared
    otherwise; where the window count is 0 or more than 1 the pixel keeps
    its prior candidate status. *)
Theorem night_window_step_cases (shape : nat * nat) (in_vid : grid fl)
  (out_dets : grid Z) (i j : nat) :
  (i < fst shape)%nat -> (j < snd shape)%nat ->
  (forall p, In p (window3 shape i j) -> isfinite (at_ in_vid p) = true) ->
  let kept := night_window_step shape in_vid out_dets i j in
  (window_count shape out_dets i j = 1%Z ->
   (local_max shape in_vid i j -> kept = 1%Z) /\
   (~ local_max shape in_vid i j -> kept = 0%Z)) /\
  (window_count shape out_dets i j <> 1%Z -> kept = out_dets i j).
Proof.
  intros Hi Hj Hfin kept. unfold kept. rewrite night_window_step_cell.
  split.
  - intros Hc. apply Z.eqb_eq in Hc. rewrite Hc.
    destruct (maximum_filter3_finite shape in_vid i j Hfin)
      as (m & Hm & Hall & (pm & Hpm & Em)).
    rewrite Hm.
    pose proof (centre_in_window shape i j Hi Hj) as Hcentre.
    pose proof (Hfin _ Hcentre) as Hx. unfold at_ in Hx. simpl in Hx.
    destruct (in_vid i j) as [| | |x] eqn:Ex; try discriminate Hx.
    pose proof (Hall _ Hcentre) as Hxm. unfold at_ in Hxm. simpl in Hxm.
    rewrite Ex in Hxm. apply fle_Fin in Hxm.
    cbn [feqb]. split.
    + intro Hmax. unfold local_max in Hmax. rewrite Ex in Hmax.
      pose proof (Hmax pm Hpm) as Hmx. rewrite Em in Hmx.
      apply fle_Fin in Hmx.
      assert (E : Qeq_bool x m = true)
        by (apply Qeq_bool_iff, Qle_antisym; assumption).
      rewrite E. reflexivity.
    + intro Hnot. destruct (Qeq_bool x m) eqn:E; [|reflexivity].
      apply Qeq_bool_iff in E. exfalso. apply Hnot.
      unfold local_max. rewrite Ex. intros p Hp.
      pose proof (Hall p Hp) as Hpm'. pose proof (Hfin p Hp) as Hfp.
      destruct (at_ in_vid p) as [| | |y]; try discriminate Hfp.
      apply fle_Fin in Hpm'. apply fle_Fin. rewrite E. exact Hpm'.
  - intro Hc. apply Z.eqb_neq in Hc. rewrite Hc. reflexivity.
Qed.

(** The centre pixel of the 3 x 3 scene is the only candidate of its
    window and its right neighbour has a larger vis-diff value: it is
    cleared. *)
Lemma night_window_step_cases_witness :
  ((1 < fst step_shape)%nat /\ (1 < snd step_shape)%nat) /\
  window_count step_shape step_cand 1 1 = 1%Z /\
  ~ local_max step_shape step_vid 1 1 /\
  night_window_step step_shape step_vid step_cand 1%nat 1%nat = 0%Z.
Proof.
  assert (Hi : (1 < fst step_shape)%nat) by (simpl; lia).
  assert (Hj : (1 < snd step_shape)%nat) by (simpl; lia).
  assert (Hc : window_count step_shape step_cand 1 1 = 1%Z) by reflexivity.
  assert (Hn : ~ local_max step_shape step_vid 1 1).
  { intro H. specialize (H (1, 2)%nat). simpl in H.
    assert (F : false = true) by (apply H; do 5 right; left; reflexivity).
    discriminate F. }
  split; [split; assumption|]. split; [exact Hc|].
  split; [exact Hn|].
  refine (proj2 (proj1 (night_window_step_cases step_shape step_vid step_cand
                          1 1 Hi Hj _) Hc) Hn).
  intros p Hp. simpl in Hp.
  repeat (destruct Hp as [<- | Hp]; [reflexivity|]). destruct Hp.
Defined.

Lemma reflect_before (n : nat) : (0 < n)%nat -> reflect n (-1) = 0%nat.
Proof.
  intro H. unfold reflect.
  replace (-1)%Z with (2 * Z.of_nat n - 1 + (-1) * (2 * Z.of_nat n))%Z by lia.
  rewrite Z.mod_add by lia. rewrite Z.mod_small by lia.
  assert (E : (2 * Z.of_nat n - 1 <? Z.of_nat n)%Z = false)
    by (apply Z.ltb_ge; lia).
  rewrite E. replace (2 * Z.of_nat n - 1 - (2 * Z.of_nat n - 1))%Z with 0%Z by lia.
  reflexivity.
Qed.

Lemma reflect_after (n : nat) :
  (0 < n)%nat -> reflect n (Z.of_nat n) = pred n.
Proof.
  intro H. unfold reflect. rewrite Z.mod_small by lia.
  rewrite Z.ltb_irrefl. lia.
Qed.

(** A sum of non-negative numbers is at least the sum of two of its
    terms. *)
Lemma fold_add_two (l : list Z) (a b : nat) :
  (forall x, In x l -> (0 <= x)%Z) ->
  (a < b)%nat -> (b < List.length l)%nat ->
  (nth a l 0 + nth b l 0 <= fold_left Z.add l 0)%Z.
Proof.
  intros Hnn Hab Hb.
  assert (Hacc : forall l (c : Z), fold_left Z.add l c = (c + fold_left Z.add l 0)%Z).
  { clear. induction l as [|x l IH]; intro c; simpl; [lia|].
    rewrite (IH (c + x)%Z), (IH x). lia. }
  assert (Hpos : forall l, (forall x, In x l -> (0 <= x)%Z) ->
                           (0 <= fold_left Z.add l 0)%Z).
  { clear -Hacc. induction l as [|x l IH]; intro H; simpl; [lia|].
    rewrite Hacc. pose proof (H x (or_introl eq_refl)).
    assert (0 <= fold_left Z.add l 0)%Z
      by (apply IH; intros y Hy; apply H; right; exact Hy). lia. }
  assert (Hone : forall l (k : nat),
             (forall x, In x l -> (0 <= x)%Z) ->
             (nth k l 0 <= fold_left Z.add l 0)%Z).
  { clear -Hacc Hpos. induction l as [|x l IH]; intros k H.
    - destruct k; simpl; lia.
    - simpl fold_left. rewrite Hacc.
      pose proof (H x (or_introl eq_refl)).
      assert (Hl : forall y, In y l -> (0 <= y)%Z)
        by (intros y Hy; apply H; right; exact Hy).
      destruct k as [|k]; simpl nth.
      + pose proof (Hpos l Hl). lia.
      + pose proof (IH k Hl). lia. }
  revert a b Hab Hb. induction l as [|x l IH]; intros a b Hab Hb.
  - simpl in Hb. lia.
  - assert (Hl : forall y, In y l -> (0 <= y)%Z)
      by (intros y Hy; apply Hnn; right; exact Hy).
    simpl fold_left. rewrite Hacc.
    destruct b as [|b]; [lia|]. simpl in Hb.
    destruct a as [|a]; simpl nth.
    + pose proof (Hone l b Hl). lia.
    + pose proof (Hnn x (or_introl eq_refl)).
      assert (nth a l 0 + nth b l 0 <= fold_left Z.add l 0)%Z
        by (apply IH; [exact Hl|lia|lia]).
      lia.
Qed.

(** On the border of the scene the reflection repeats the pixel itself in
    its own window: a candidate there is counted at least twice. *)
Lemma border_window_count (shape : nat * nat) (out_dets : grid Z) (i j : nat) :
  (i < fst shape)%nat -> (j < snd shape)%nat ->
  (forall r c, out_dets r c = 0%Z \/ out_dets r c = 1%Z) ->
  (i = 0 \/ S i = fst shape \/ j = 0 \/ S j = snd shape)%nat ->
  (2 * out_dets i j <= window_count shape out_dets i j)%Z.
Proof.
  intros Hi Hj Hbin Hborder. unfold window_count.
  set (cells := map (at_ out_dets) (window3 shape i j)).
  assert (Hnn : forall x, In x cells -> (0 <= x)%Z).
  { intros x Hx. apply in_map_iff in Hx. destruct Hx as (p & <- & _).
    unfold at_. destruct (Hbin (fst p) (snd p)) as [-> | ->]; lia. }
  assert (Hlen : List.length cells = 9%nat) by reflexivity.
  assert (Hcentre : nth 4 cells 0%Z = out_dets i j).
  { unfold cells, window3, at_. cbn [flat_map map app nth fst snd].
    rewrite !Z.add_0_r, !reflect_inside by assumption. reflexivity. }
  assert (Hrow : reflect (fst shape) (Z.of_nat i + 0) = i)
    by (rewrite Z.add_0_r; apply reflect_inside, Hi).
  assert (Hcol : reflect (snd shape) (Z.of_nat j + 0) = j)
    by (rewrite Z.add_0_r; apply reflect_inside, Hj).
  destruct Hborder as [E | [E | [E | E]]].
  - assert (H1 : nth 1 cells 0%Z = out_dets i j).
    { unfold cells, window3, at_. cbn [flat_map map app nth fst snd].
      rewrite Hcol. subst i. simpl Z.add.
      rewrite reflect_before by lia. reflexivity. }
    pose proof (fold_add_two cells 1 4 Hnn) as H. rewrite H1, Hcentre in H.
    rewrite Hlen in H. lia.
  - assert (H7 : nth 7 cells 0%Z = out_dets i j).
    { unfold cells, window3, at_. cbn [flat_map map app nth fst snd].
      rewrite Hcol.
      replace (Z.of_nat i + 1)%Z with (Z.of_nat (fst shape)) by lia.
      rewrite reflect_after by lia. rewrite <- E. reflexivity. }
    pose proof (fold_add_two cells 4 7 Hnn) as H. rewrite H7, Hcentre in H.
    rewrite Hlen in H. lia.
  - assert (H3 : nth 3 cells 0%Z = out_dets i j).
    { unfold cells, window3, at_. cbn [flat_map map app nth fst snd].
      rewrite Hrow. subst j. simpl Z.add.
      rewrite reflect_before by lia. reflexivity. }
    pose proof (fold_add_two cells 3 4 Hnn) as H. rewrite H3, Hcentre in H.
    rewrite Hlen in H. lia.
  - assert (H5 : nth 5 cells 0%Z = out_dets i j).
    { unfold cells, window3, at_. cbn [flat_map map app nth fst snd].
      rewrite Hrow.
      replace (Z.of_nat j + 1)%Z with (Z.of_nat (snd shape)) by lia.
      rewrite reflect_after by lia. rewrite <- E. reflexivity. }
    pose proof (fold_add_two cells 4 5 Hnn) as H. rewrite H5, Hcentre in H.
    rewrite Hlen in H. lia.
Qed.

(** X29.  The window step never tests a candidate on the border of the
    scene: the reflection counts it at least twice in its own window, so
    the comparison with the window maximum is skipped and the candidate is
    kept whatever the vis-diff values of its neighbours. *)
Theorem night_border_candidate_kept (shape : nat * nat) (in_vid : grid fl)
  (out_dets : grid Z) (i j : nat) :
  (i < fst shape)%nat -> (j < snd shape)%nat ->
  (forall r c, out_dets r c = 0%Z \/ out_dets r c = 1%Z) ->
  (i = 0 \/ S i = fst shape \/ j = 0 \/ S j = snd shape)%nat ->
  out_dets i j = 1%Z ->
  night_window_step shape in_vid out_dets i j = 1%Z.
Proof.
  intros Hi Hj Hbin Hborder Hcand. rewrite night_window_step_cell.
  pose proof (border_window_count shape out_dets i j Hi Hj Hbin Hborder) as H.
  rewrite Hcand in H.
  assert (E : (window_count shape out_dets i j =? 1)%Z = false)
    by (apply Z.eqb_neq; lia).
  rewrite E. exact Hcand.
Qed.

(** The candidate in the middle of the upper border of the 3 x 3 scene
    [border_cand] is kept although the pixel below it has the larger
    vis-diff value. *)
Lemma night_border_candidate_kept_witness :
  ((0 < fst step_shape)%nat /\ (1 < snd step_shape)%nat) /\
  border_cand 0%nat 1%nat = 1%Z /\
  flt (step_vid 0%nat 1%nat) (step_vid 1%nat 1%nat) = true /\
  night_window_step step_shape step_vid border_cand 0%nat 1%nat = 1%Z.
Proof.
  assert (Hi : (0 < fst step_shape)%nat) by (simpl; lia).
  assert (Hj : (1 < snd step_shape)%nat) by (simpl; lia).
  split; [split; assumption|]. split; [reflexivity|]. split; [reflexivity|].
  apply (night_border_candidate_kept step_shape step_vid border_cand 0 1 Hi Hj).
  - intros r c. unfold border_cand.
    destruct ((r =? 0) && (c =? 1))%nat; [right|left]; reflexivity.
  - left. reflexivity.
  - reflexivity.
Defined.

(** C7.  The code misses the claim on the border of the scene.  In the
    example night scene the bright pixel in the corner (0, 0) is the only
    candidate among the four cells of its 3x3 neighbourhood, and its
    vis-diff value (0.1) is below that of its neighbour (1, 1) (0.2): the
    candidate does not have the highest vis-diff value of its window.  Yet
    the window step keeps it, and it is a detection in the result of
    [run_basic_night_detection] without being a definite detection.  The
    reflected border makes the sum filter count the corner pixel four
    times, so the test on the window maximum is skipped. *)
Lemma night_corner_candidate_kept :
  let thr_vis := Fin (2 # 800) in
  let cand := night_candidates night_vi2 night_vid night_pfp thr_vis
                               default_night_opts in
  let r := run_basic_night_detection night_shape night_vi2 night_sza night_vid
                                     night_pfp default_night_opts in
  compute_background_rad night_shape night_vi2 night_sza (Fin 97)
                         default_rad_sum_thr (0, 2) = Some thr_vis /\
  neighbourhood night_shape 0 0 = [(0, 0); (0, 1); (1, 0); (1, 1)]%nat /\
  map (at_ cand) (neighbourhood night_shape 0 0) = [1; 0; 0; 0]%Z /\
  flt (night_vid 0%nat 0%nat) (night_vid 1%nat 1%nat) = true /\
  window_count night_shape cand 0 0 = 4%Z /\
  night_window_step night_shape night_vid cand 0%nat 0%nat = 1%Z /\
  dets_at r 0 0 = (1, 0)%Z.
Proof.
  cbv zeta. split; [vm_compute; reflexivity|].
  split; [vm_compute; reflexivity|].
  split; [vm_compute; reflexivity|].
  split; [vm_compute; reflexivity|].
  split; [vm_compute; reflexivity|].
  split; [vm_compute; reflexivity|].
  vm_compute. reflexivity.
Qed.

(** In the same scene the window step turns a pixel that was no candidate
    into a detection: (1, 1) is not a candidate, its window holds the single
    candidate (0, 0), and its own vis-diff value is the maximum of its
    window. *)
Lemma night_noncandidate_promoted :
  let cand := night_candidates night_vi2 night_vid night_pfp (Fin (2 # 800))
                               default_night_opts in
  let r := run_basic_night_detection night_shape night_vi2 night_sza night_vid
                                     night_pfp default_night_opts in
  cand 1%nat 1%nat = 0%Z /\
  window_count night_shape cand 1 1 = 1%Z /\
  night_window_step night_shape night_vid cand 1%nat 1%nat = 1%Z /\
  dets_at r 1 1 = (1, 0)%Z.
Proof.
  cbv zeta. split; [vm_compute; reflexivity|].
  split; [vm_compute; reflexivity|].
  split; [vm_compute; reflexivity|].
  vm_compute. reflexivity.
Qed.

(* ------------------------------------------------------------------ *)
(** ** Night-time detection: degenerate scenes *)

Lemma outside_range_no_bin (n : nat) (v : fl) :
  fgt v (Fin 0) && fle v (Fin 2) = false ->
  fgt v (Fin 0) = true ->
  bin_index n 0 2 v = None.
Proof.
  intros H Hpos. rewrite Hpos in H. simpl in H.
  destruct v as [| | |q]; try reflexivity.
  unfold bin_index. simpl in H. rewrite H, andb_false_r. reflexivity.
Qed.

(** C8.  On a scene with at least one pixel, [run_basic_night_detection]
    ends without exception on an all-zero array on both degenerate paths:
    when no pixel has a solar zenith angle above the night threshold, and
    when the histogram is degenerate because no night pixel has a positive
    radiance inside the histogram range. *)
Theorem night_detection_degenerate (shape : nat * nat)
  (in_vi2_rad in_sza in_vid : grid fl) (in_pfp : grid Z) (opts : night_opts) :
  (0 < fst shape)%nat -> (0 < snd shape)%nat ->
  let r := run_basic_night_detection shape in_vi2_rad in_sza in_vid in_pfp opts in
  ((forall p, In p (pixels shape) ->
              fgt (at_ in_sza p) opts.(sza_thresh) = false) ->
   returns_zeros r) /\
  ((forall p, In p (pixels shape) ->
              fgt (at_ in_sza p) opts.(sza_thresh) = true ->
              fgt (at_ in_vi2_rad p) (Fin 0) && fle (at_ in_vi2_rad p) (Fin 2)
              = false) ->
   returns_zeros r).
Proof.
  intros Hr Hc r. unfold r, returns_zeros, run_basic_night_detection.
  rewrite (nanmax_bool_nonempty shape _ Hr Hc).
  split; intro H.
  - rewrite (no_night_pixel shape in_sza _ H).
    eexists. split; [reflexivity|]. reflexivity.
  - destruct (existsb _ _).
    + unfold compute_background_rad.
      rewrite (compute_background_rad_degenerate nbins shape in_vi2_rad in_sza
                 opts.(sza_thresh) 0 2 eq_refl default_rad_sum_thr).
      * eexists. split; [reflexivity|]. reflexivity.
      * intros p Hp. apply in_night_positive in Hp.
        destruct Hp as (Hin & Hnight & Hpos).
        apply outside_range_no_bin; [|exact Hpos].
        apply H; [apply in_pixels, Hin|exact Hnight].
    + eexists. split; [reflexivity|]. reflexivity.
Qed.

(** A day scene (solar zenith angle 10 degrees) and a night scene without
    radiance both give the all-zero array. *)
Lemma night_detection_degenerate_witness :
  ((0 < fst night_shape)%nat /\ (0 < snd night_shape)%nat) /\
  returns_zeros (run_basic_night_detection night_shape night_vi2 (lit 10)
                   night_vid night_pfp default_night_opts) /\
  returns_zeros (run_basic_night_detection night_shape (lit 0) night_sza
                   night_vid night_pfp default_night_opts).
Proof.
  assert (Hr : (0 < fst night_shape)%nat) by (simpl; lia).
  assert (Hc : (0 < snd night_shape)%nat) by (simpl; lia).
  split; [split; assumption|]. split.
  - apply (proj1 (night_detection_degenerate night_shape night_vi2 (lit 10)
                    night_vid night_pfp default_night_opts Hr Hc)).
    intros p _. reflexivity.
  - apply (proj2 (night_detection_degenerate night_shape (lit 0) night_sza
                    night_vid night_pfp default_night_opts Hr Hc)).
    intros p _ _. reflexivity.
Defined.


(* ------------------------------------------------------------------ *)
(** ** Invalid cells *)

Lemma fmul_nan_l (y : fl) : fmul NaN y = NaN.
Proof. reflexivity. Qed.

Lemma prod5_nan (c1 c2 c3 c4 c5 : fl) :
  c1 = NaN \/ c2 = NaN \/ c3 = NaN \/ c4 = NaN \/ c5 = NaN ->
  fmul (fmul (fmul (fmul c1 c2) c3) c4) c5 = NaN.
Proof.
  intros [-> | [-> | [-> | [-> | ->]]]];
    rewrite ?fmul_nan_r, ?fmul_nan_l; reflexivity.
Qed.

(** [comp_stat] between invalid bounds is invalid. *)
Lemma comp_stat_nan_bounds (X A B : grid fl) (i j : nat) :
  A i j = NaN -> B i j = NaN -> comp_stat X A B i j = NaN.
Proof.
  intros HA HB. unfold comp_stat, where_, map2, lit, full, fgt.
  rewrite HA, HB, flt_nan_r, fsub_nan_r. reflexivity.
Qed.

Lemma interp_nan (day grad : grid fl) (sza : grid fl) (i j : nat) :
  sza i j = NaN ->
  (day .+ grad .* where_ (sza .> lit 60)%grid (lit 60) sza)%grid i j = NaN.
Proof.
  intro H. unfold map2, where_, lit, full. rewrite H.
  rewrite fgt_nan_l, fmul_nan_r, fadd_nan_r. reflexivity.
Qed.

Lemma zscore_nan (x mea std : grid fl) (i j : nat) :
  x i j = NaN \/ mea i j = NaN \/ std i j = NaN ->
  ((x .- mea) ./ std)%grid i j = NaN.
Proof.
  unfold map2. intros [-> | [-> | ->]];
    rewrite ?fsub_nan_r, ?fdiv_nan_r; reflexivity.
Qed.

Lemma count_ratio_nan (cnt nwin : grid fl) (i j : nat) :
  cnt i j = NaN \/ nwin i j = NaN ->
  (lit 1 .- comp_stat (cnt ./ (nwin ./ lit 2)) (lit 0) (lit 1))%grid i j = NaN.
Proof.
  intro H. unfold map2 at 1. rewrite comp_stat_nan; [reflexivity|].
  unfold map2. destruct H as [-> | ->]; rewrite ?fdiv_nan_r; reflexivity.
Qed.

(** The confidence is invalid wherever one of the inputs of [do_stage5] is
    invalid. *)
Lemma do_stage5_nan
  (btd mea_btd std_btd bt_mir mea_mir std_mir sza nwin ncld nwat : grid fl)
  (i j : nat) :
  btd i j = NaN \/ mea_btd i j = NaN \/ std_btd i j = NaN \/
  bt_mir i j = NaN \/ mea_mir i j = NaN \/ std_mir i j = NaN \/
  sza i j = NaN \/ nwin i j = NaN \/ ncld i j = NaN \/ nwat i j = NaN ->
  do_stage5 btd mea_btd std_btd bt_mir mea_mir std_mir sza nwin ncld nwat i j
  = RNaN.
Proof.
  intro H. unfold do_stage5, map1, stage5_product. cbv zeta.
  unfold map2 at 1 2 3 4.
  rewrite prod5_nan; [reflexivity|].
  destruct H as [H | [H | [H | [H | [H | [H | [H | [H | [H | H]]]]]]]]].
  - right; right; left. apply comp_stat_nan, zscore_nan. auto.
  - right; right; left. apply comp_stat_nan, zscore_nan. auto.
  - right; right; left. apply comp_stat_nan, zscore_nan. auto.
  - left. apply comp_stat_nan, H.
  - right; left. apply comp_stat_nan, zscore_nan. auto.
  - right; left. apply comp_stat_nan, zscore_nan. auto.
  - left. apply comp_stat_nan_bounds; apply interp_nan, H.
  - do 3 right; left. apply count_ratio_nan. auto.
  - do 3 right; left. apply count_ratio_nan. auto.
  - do 4 right. apply count_ratio_nan. auto.
Qed.

Lemma threshold_nan (base adj lim : fl) (sza : grid fl) (i j : nat) :
  sza i j = NaN ->
  where_ ((full base .+ full adj .* sza) .< full lim)%grid (full lim)
         (full base .+ full adj .* sza)%grid i j = NaN.
Proof.
  intro H. unfold where_, map2, full. rewrite H, fmul_nan_r, fadd_nan_r.
  reflexivity.
Qed.

Lemma mir_rad_no_ir_invalid (MIR_RAD exp_rad : grid fl) (i j : nat) :
  MIR_RAD i j = NaN \/ exp_rad i j = NaN ->
  mir_rad_no_ir MIR_RAD exp_rad i j = Fin 0.
Proof.
  intro H. unfold mir_rad_no_ir, where_, map1, map2, lit, full.
  destruct H as [-> | ->]; rewrite ?fsub_nan_r; reflexivity.
Qed.

Lemma calc_frp_invalid (PYFc : PYF_Consts) (dd : data_dict) (frp : grid fl)
  (i j : nat) :
  calc_frp PYFc dd = Some frp ->
  (dd.(mean_mir) i j = NaN \/ dd.(fire_dets) i j = NaN -> frp i j = Fin 0) /\
  (fgt (dd.(fire_dets) i j) (Fin 0) = true ->
   fgt (dd.(mean_mir) i j) (Fin 0) = true ->
   dd.(pix_area) i j = NaN \/ dd.(MIR__BT) i j = NaN -> frp i j = NaN).
Proof.
  unfold calc_frp. destruct (dict_get _ _) as [a_val|]; [|discriminate].
  intro H. injection H as <-. unfold where_, map2, lit, full. split.
  - intros [H | H]; rewrite H, ?fgt_nan_l.
    + destruct (fgt (fire_dets dd i j) (Fin 0)); reflexivity.
    + reflexivity.
  - intros Hf Hm H. rewrite Hf, Hm.
    destruct H as [-> | ->]; rewrite ?fmul_nan_r; reflexivity.
Qed.

Section InvalidCells.

Variable PYFc : PYF_Consts.
Variable nanstd : nat * nat -> grid fl -> fl.
Variables i j : nat.

(** C9 (amended).  An invalid (NaN) input cell makes the corresponding cell
    of the confidence grid invalid, and of the FRP grid when the invalid
    operand is the pixel area or the MIR brightness temperature of a
    detected pixel with positive background mean.  The gating steps replace
    it by the valid value 0: the Stage 1 mask is 0 wherever the MIR, BTD,
    vis-diff or solar-zenith input is invalid, the MIR radiance without
    thermal part is 0 wherever one of its two operands is invalid, and the
    FRP is 0 wherever the background mean or the fire mask is invalid. *)
Theorem invalid_cells :
  (forall shape in_mir in_btd in_vid in_sza in_lsm ksizes ktb ksa do_lsm lv pfp,
      flt (Fin 1) PYFc.(stage1_pass_thresh) = true ->
      stage1_tests PYFc nanstd shape in_mir in_btd in_vid in_sza in_lsm ksizes
                   ktb ksa do_lsm lv = Some pfp ->
      in_mir i j = NaN \/ in_btd i j = NaN \/ in_vid i j = NaN \/
      in_sza i j = NaN ->
      pfp i j = 0%Z) /\
  (forall MIR_RAD exp_rad,
      MIR_RAD i j = NaN \/ exp_rad i j = NaN ->
      mir_rad_no_ir MIR_RAD exp_rad i j = Fin 0) /\
  (forall btd mea_btd std_btd bt_mir mea_mir std_mir sza nwin ncld nwat,
      btd i j = NaN \/ mea_btd i j = NaN \/ std_btd i j = NaN \/
      bt_mir i j = NaN \/ mea_mir i j = NaN \/ std_mir i j = NaN \/
      sza i j = NaN \/ nwin i j = NaN \/ ncld i j = NaN \/ nwat i j = NaN ->
      do_stage5 btd mea_btd std_btd bt_mir mea_mir std_mir sza nwin ncld nwat
                i j = RNaN) /\
  (forall dd frp,
      calc_frp PYFc dd = Some frp ->
      (dd.(mean_mir) i j = NaN \/ dd.(fire_dets) i j = NaN ->
       frp i j = Fin 0) /\
      (fgt (dd.(fire_dets) i j) (Fin 0) = true ->
       fgt (dd.(mean_mir) i j) (Fin 0) = true ->
       dd.(pix_area) i j = NaN \/ dd.(MIR__BT) i j = NaN ->
       frp i j = NaN)).
Proof.
  split; [|split; [|split]].
  - intros shape in_mir in_btd in_vid in_sza in_lsm ksizes ktb ksa do_lsm lv
           pfp Hpt Hrun H.
    apply (stage1_closed_gate PYFc nanstd shape in_mir in_btd in_vid in_sza
             in_lsm ksizes ktb ksa do_lsm lv pfp i j Hpt Hrun).
    destruct H as [H | [H | [H | H]]].
    + left. rewrite H. apply fge_nan_l.
    + right; left. rewrite H. apply fge_nan_l.
    + right; right. rewrite H. apply fge_nan_l.
    + left. unfold stage1_thresholds, set_initial_thresholds. cbn [fst].
      rewrite (threshold_nan _ _ _ in_sza i j H). apply fge_nan_r.
  - intros MIR_RAD exp_rad. apply mir_rad_no_ir_invalid.
  - intros btd mea_btd std_btd bt_mir mea_mir std_mir sza nwin ncld nwat.
    apply do_stage5_nan.
  - intros dd frp. apply calc_frp_invalid.
Qed.

End InvalidCells.

(** On the example scene with an invalid MIR value in the corner pixel: the
    Stage 1 mask is 0 there and the confidence is invalid; with an invalid
    background mean the FRP is 0. *)
Lemma invalid_cells_witness :
  (flt (Fin 1) example_consts.(stage1_pass_thresh) = true /\
   example_mir_invalid 0%nat 0%nat = NaN /\
   invalid_mean_dd.(mean_mir) 0%nat 0%nat = NaN) /\
  mask_or_zeros
    (stage1_tests example_consts example_nanstd (5, 5)%nat
       example_mir_invalid example_btd (lit 1) (lit 10) (full 2%Z) [3; 5; 7]%Z
       example_consts.(kern_thresh_btd) example_consts.(kern_thresh_sza_adj)
       true example_consts.(lsm_land_val)) 0%nat 0%nat = 0%Z /\
  do_stage5 example_btd (lit (1 # 2)) (lit (1 # 2)) example_mir_invalid
            (lit 300) (lit 1) (lit 10) (lit 8) (lit 0) (lit 0) 0%nat 0%nat
  = RNaN /\
  frp_or_nan (calc_frp example_consts invalid_mean_dd) 0%nat 0%nat = Fin 0.
Proof.
  split; [repeat split|].
  pose proof (invalid_cells example_consts example_nanstd 0 0)
    as (Hs1 & _ & Hconf & Hfrp).
  split; [|split].
  - refine (Hs1 (5, 5)%nat example_mir_invalid example_btd (lit 1) (lit 10)
              (full 2%Z) [3; 5; 7]%Z
              example_consts.(kern_thresh_btd)
              example_consts.(kern_thresh_sza_adj)
              true example_consts.(lsm_land_val) _ eq_refl eq_refl _).
    left. reflexivity.
  - apply Hconf. do 3 right. left. reflexivity.
  - refine (proj1 (Hfrp invalid_mean_dd
                     (frp_or_nan (calc_frp example_consts invalid_mean_dd))
                     eq_refl) _).
    left. reflexivity.
Defined.

(** C9 as stated fails: invalid cells are replaced by the valid value 0.
    With an invalid MIR radiance the radiance without thermal part is 0;
    with an invalid MIR brightness temperature in the corner pixel of the
    example scene [stage1_tests] returns a mask that is 0 there; with an
    invalid background mean [calc_frp] returns an FRP of 0. *)
Lemma invalid_cells_become_zero :
  mir_rad_no_ir (full NaN) (lit 1) 0%nat 0%nat = Fin 0 /\
  (exists pfp,
      stage1_tests example_consts example_nanstd (5, 5)%nat
        example_mir_invalid example_btd (lit 1) (lit 10) (full 2%Z) [3; 5; 7]%Z
        example_consts.(kern_thresh_btd) example_consts.(kern_thresh_sza_adj)
        true example_consts.(lsm_land_val) = Some pfp /\
      example_mir_invalid 0%nat 0%nat = NaN /\
      pfp 0%nat 0%nat = 0%Z) /\
  (exists frp,
      calc_frp example_consts invalid_mean_dd = Some frp /\
      invalid_mean_dd.(mean_mir) 0%nat 0%nat = NaN /\
      frp 0%nat 0%nat = Fin 0).
Proof.
  split; [reflexivity|]. split.
  - eexists. split; [reflexivity|]. split; reflexivity.
  - eexists. split; [reflexivity|]. split; reflexivity.
Qed.

(* ------------------------------------------------------------------ *)
(** ** Stage 5 confidence: examples *)

(** The hot pixel of the example scene: 340 K against a background of
    300 K with standard deviation 1, a BTD of 20 K against 0.5 K, eight
    window pixels without cloud or water.  The statistics are valid and the
    confidence is the fifth root of the product of the components; with an
    empty window the result is NaN. *)
Lemma do_stage5_confidence_witness :
  (~ (1 # 2) == 0 /\ ~ 1 == 0 /\ ~ 8 == 0) /\
  (let conf :=
     root5 (conf_c1 340 10 * conf_c2 340 300 1
            * conf_c3 20 (1 # 2) (1 # 2) 10 * conf_c4 0 8 * conf_c5 0 8) in
   do_stage5 (lit 20) (lit (1 # 2)) (lit (1 # 2)) (lit 340) (lit 300) (lit 1)
             (lit 10) (lit 8) (lit 0) (lit 0) 0%nat 0%nat = RFin conf /\
   (0 <= conf <= 1)%R) /\
  do_stage5 (lit 20) (lit (1 # 2)) (lit (1 # 2)) (lit 340) (lit 300) (lit 1)
            (lit 10) (lit 0) (lit 0) (lit 0) 0%nat 0%nat = RNaN.
Proof.
  assert (H1 : ~ (1 # 2) == 0) by (intro H; discriminate H).
  assert (H2 : ~ 1 == 0) by (intro H; discriminate H).
  assert (H3 : ~ 8 == 0) by (intro H; discriminate H).
  split; [split; [exact H1|split; [exact H2|exact H3]]|]. split.
  - destruct (proj1 (do_stage5_confidence
                       (const_grid 20) (const_grid (1 # 2)) (const_grid (1 # 2))
                       (const_grid 340) (const_grid 300) (const_grid 1)
                       (const_grid 10) (const_grid 8) (const_grid 0)
                       (const_grid 0) 0 0) H1 H2 H3)
      as (Hout & _ & Hb & _).
    split; [exact Hout|exact Hb].
  - refine (proj2 (do_stage5_confidence
                     (const_grid 20) (const_grid (1 # 2)) (const_grid (1 # 2))
                     (const_grid 340) (const_grid 300) (const_grid 1)
                     (const_grid 10) (const_grid 0) (const_grid 0)
                     (const_grid 0) 0 0) _ _).
    + reflexivity.
    + left. reflexivity.
Defined.

(** C2 as stated fails where the window statistics are unavailable: with
    the sentinel [nwin = 0] and no cloud or water pixel counted, the count
    ratios are 0/0 and [do_stage5] returns NaN, not the confidence 0. *)
Lemma do_stage5_unavailable_not_zero :
  let out :=
    do_stage5 (lit 20) (lit (1 # 2)) (lit (1 # 2)) (lit 340) (lit 300) (lit 1)
              (lit 10) (lit 0) (lit 0) (lit 0) 0%nat 0%nat in
  out = RNaN /\ out <> RFin 0%R.
Proof.
  cbv zeta.
  assert (E : do_stage5 (lit 20) (lit (1 # 2)) (lit (1 # 2)) (lit 340)
                        (lit 300) (lit 1) (lit 10) (lit 0) (lit 0) (lit 0)
                        0%nat 0%nat = RNaN) by reflexivity.
  split; [exact E|]. rewrite E. discriminate.
Qed.

(* ------------------------------------------------------------------ *)
(** ** Stage 1 thresholds: examples *)

(** With the default constants: at a solar zenith angle of 40 degrees the
    MIR threshold is 298.5 K; at 120 degrees the linear term (274.5 K) is
    below the floor and the threshold is the floor, 280 K. *)
Lemma set_initial_thresholds_floor_witness :
  fst (set_initial_thresholds (map1 Fin (const_grid 40))
         (Fin (3105 # 10)) (Fin (- (3 # 10))) (Fin 280)
         (Fin (175 # 100)) (Fin (- (49 # 10000))) (Fin 1)) 0%nat 0%nat
  =f= Fin (597 # 2) /\
  ((3105 # 10) + - (3 # 10) * 120 < 280 /\
   fst (set_initial_thresholds (map1 Fin (const_grid 120))
          (Fin (3105 # 10)) (Fin (- (3 # 10))) (Fin 280)
          (Fin (175 # 100)) (Fin (- (49 # 10000))) (Fin 1)) 0%nat 0%nat
   =f= Fin 280).
Proof.
  split.
  - pose proof (proj1 (proj1 (set_initial_thresholds_floor (const_grid 40)
                  (3105 # 10) (- (3 # 10)) 280 (175 # 100) (- (49 # 10000)) 1
                  0 0))) as H.
    cbv zeta in H.
    apply (feq_trans _ _ _ H). vm_compute. reflexivity.
  - assert (Hlt : (3105 # 10) + - (3 # 10) * 120 < 280) by reflexivity.
    split; [exact Hlt|].
    exact (proj1 (proj2 (proj2 (set_initial_thresholds_floor (const_grid 120)
                  (3105 # 10) (- (3 # 10)) 280 (175 # 100) (- (49 # 10000)) 1
                  0 0))) Hlt).
Defined.

(* ================================================================== *)
(** * Further properties of the two modules *)
(* ================================================================== *)

(* ------------------------------------------------------------------ *)
(** ** Stage 1: kernel sizes, votes and the land-sea mask *)

Section Stage1More.

Variable PYFc : PYF_Consts.
Variable nanstd : nat * nat -> grid fl -> fl.

(** [do_apply_stg1b_kern2] fails for a kernel size that is not supported
    or of which half exceeds an extent of the scene. *)
Lemma do_apply_unsupported (shape : nat * nat) (in_variable : grid fl) (ksize : Z) :
  ~ (In ksize [3; 5; 7; 9; 11]%Z /\
     (ksize / 2 <= Z.of_nat (fst shape))%Z /\
     (ksize / 2 <= Z.of_nat (snd shape))%Z) ->
  do_apply_stg1b_kern2 nanstd shape in_variable ksize = None.
Proof.
  intro Hbad. unfold do_apply_stg1b_kern2, convolve.
  destruct (_make_kern ksize) as [kern|] eqn:Ek; [|reflexivity].
  rewrite (make_kern_depth shape ksize kern Ek).
  destruct (ksize / 2 <=? Z.of_nat (fst shape))%Z eqn:Er; [|reflexivity].
  destruct (ksize / 2 <=? Z.of_nat (snd shape))%Z eqn:Ec; [|reflexivity].
  exfalso. apply Hbad. apply Z.leb_le in Er. apply Z.leb_le in Ec.
  split; [|split; assumption].
  destruct (in_dec Z.eq_dec ksize [3; 5; 7; 9; 11]%Z) as [H | H]; [exact H|].
  rewrite (make_kern_unsupported ksize H) in Ek. discriminate Ek.
Qed.

Lemma stage1b_loop_unsupported shape in_btd thr ksizes :
  forall votes,
    (exists k, In k ksizes /\
               ~ (In k [3; 5; 7; 9; 11]%Z /\
                  (k / 2 <= Z.of_nat (fst shape))%Z /\
                  (k / 2 <= Z.of_nat (snd shape))%Z)) ->
    stage1b_loop nanstd shape in_btd thr ksizes votes = None.
Proof.
  induction ksizes as [|k ks IH]; intros votes (k0 & Hin & Hbad).
  - destruct Hin.
  - simpl.
    destruct (do_apply_stg1b_kern2 nanstd shape in_btd k)
      as [[kerval stdval]|] eqn:Ek; [|reflexivity].
    apply IH. destruct Hin as [<- | Hin].
    + rewrite (do_apply_unsupported shape in_btd k Hbad) in Ek. discriminate Ek.
    + exists k0. split; assumption.
Qed.

Lemma supported_dec (shape : nat * nat) (ksizes : list Z) :
  (forall k, In k ksizes ->
             In k [3; 5; 7; 9; 11]%Z /\
             (k / 2 <= Z.of_nat (fst shape))%Z /\
             (k / 2 <= Z.of_nat (snd shape))%Z) \/
  (exists k, In k ksizes /\
             ~ (In k [3; 5; 7; 9; 11]%Z /\
                (k / 2 <= Z.of_nat (fst shape))%Z /\
                (k / 2 <= Z.of_nat (snd shape))%Z)).
Proof.
  induction ksizes as [|k ks IH].
  - left. intros k [].
  - destruct IH as [IH | (k0 & Hin & Hbad)].
    + destruct (in_dec Z.eq_dec k [3; 5; 7; 9; 11]%Z) as [Hk | Hk];
        [destruct (Z_le_dec (k / 2) (Z.of_nat (fst shape))) as [Hr | Hr];
         [destruct (Z_le_dec (k / 2) (Z.of_nat (snd shape))) as [Hc | Hc]|]|].
      * left. intros k' [<- | Hk']; [split; [|split]; assumption|apply IH, Hk'].
      * right. exists k. split; [left; reflexivity|]. intros (_ & _ & H).
        exact (Hc H).
      * right. exists k. split; [left; reflexivity|]. intros (_ & H & _).
        exact (Hr H).
      * right. exists k. split; [left; reflexivity|]. intros (H & _).
        exact (Hk H).
    + right. exists k0. split; [right; exact Hin|exact Hbad].
Qed.

(** X1.  [stage1_tests] returns a mask exactly when every kernel size of
    [ksizes] is one of 3, 5, 7, 9, 11 and half of it (1 to 5 pixels, the
    overlap depth of the filter) does not exceed the number of rows or of
    columns of the scene; a single other size makes the call fail, with the
    [ValueError] of [_make_kern] or of [convolve], whatever the grids
    hold. *)
Theorem stage1_tests_defined_iff shape in_mir in_btd in_vid in_sza in_lsm
      ksizes ktb ksa do_lsm lv :
  (exists pfp,
      stage1_tests PYFc nanstd shape in_mir in_btd in_vid in_sza in_lsm ksizes
                   ktb ksa do_lsm lv = Some pfp) <->
  (forall k, In k ksizes ->
             In k [3; 5; 7; 9; 11]%Z /\
             (k / 2 <= Z.of_nat (fst shape))%Z /\
             (k / 2 <= Z.of_nat (snd shape))%Z).
Proof.
  split.
  - intros (pfp & Hrun).
    destruct (supported_dec shape ksizes) as [H | H]; [exact H|].
    exfalso. unfold stage1_tests in Hrun.
    destruct (stage1_thresholds PYFc in_sza) as [mir_thresh btd_thresh].
    rewrite (stage1b_loop_unsupported _ _ _ _ _ H) in Hrun. discriminate Hrun.
  - apply stage1_tests_total.
Qed.

(** On a scene of 2 x 2 pixels the kernel sizes 3, 5, 7 fail: half of 7
    exceeds both extents of the scene. *)
Lemma stage1_small_scene_fails :
  stage1_tests example_consts example_nanstd (2, 2)%nat
    example_mir example_btd (lit 1) (lit 10) (full 2%Z) [3; 5; 7]%Z
    example_consts.(kern_thresh_btd) example_consts.(kern_thresh_sza_adj)
    true example_consts.(lsm_land_val)
  = None.
Proof. reflexivity. Qed.

(** The vote counter after the loop over the kernel sizes. *)
Lemma stage1b_loop_votes shape in_btd thr ksizes i j :
  forall (votes m : grid fl) (q0 : Q),
    votes i j = Fin q0 ->
    stage1b_loop nanstd shape in_btd thr ksizes votes = Some m ->
    exists q,
      m i j = Fin q /\
      q == q0 + inject_Z (Z.of_nat (kernel_votes nanstd shape in_btd thr ksizes i j)).
Proof.
  induction ksizes as [|k ks IH]; intros votes m q0 Hv Hrun.
  - simpl in Hrun. injection Hrun as <-. exists q0. split; [exact Hv|].
    unfold kernel_votes. simpl. change (inject_Z 0) with 0. qlra.
  - simpl in Hrun. unfold kernel_votes. simpl filter.
    unfold kernel_test at 1.
    destruct (do_apply_stg1b_kern2 nanstd shape in_btd k) as [[kerval stdval]|];
      [|discriminate].
    match type of Hrun with
    | stage1b_loop _ _ _ _ _ ?v = _ => set (votes' := v) in Hrun
    end.
    destruct (fge (kerval i j) (fmul stdval (thr i j))) eqn:E.
    + assert (Hv' : votes' i j = Fin (q0 + 1)).
      { unfold votes', where_, map1, map2, lit, full. rewrite E. simpl.
        rewrite Hv. reflexivity. }
      destruct (IH votes' m (q0 + 1) Hv' Hrun) as (q & Hq & Eq).
      exists q. split; [exact Hq|]. rewrite Eq.
      fold (kernel_votes nanstd shape in_btd thr ks i j).
      simpl List.length. rewrite Nat2Z.inj_succ, <- Z.add_1_l.
      rewrite inject_Z_plus. change (inject_Z 1) with 1. unfold kernel_votes.
      generalize (inject_Z (Z.of_nat (List.length
        (filter (kernel_test nanstd shape in_btd thr i j) ks)))).
      intro n. qlra.
    + assert (Hv' : votes' i j = Fin q0).
      { unfold votes', where_, map1, map2, lit, full. rewrite E. simpl.
        exact Hv. }
      exact (IH votes' m q0 Hv' Hrun).
Qed.

(** The mask at one pixel, in terms of the four tests and the kernel
    votes. *)
Lemma stage1_mask_cell shape in_mir in_btd in_vid in_sza in_lsm ksizes
      ktb ksa do_lsm lv pfp (t : Q) i j :
  PYFc.(stage1_pass_thresh) = Fin t -> 1 < t ->
  stage1_tests PYFc nanstd shape in_mir in_btd in_vid in_sza in_lsm ksizes
               ktb ksa do_lsm lv = Some pfp ->
  let votes :=
    kernel_votes nanstd shape in_btd
      (full ktb .+ full ksa .* in_sza)%grid ksizes i j in
  (pfp i j = 1%Z <->
   fge (in_mir i j) (fst (stage1_thresholds PYFc in_sza) i j) = true /\
   fge (in_btd i j) (snd (stage1_thresholds PYFc in_sza) i j) = true /\
   (do_lsm = true -> in_lsm i j = lv) /\
   fge (in_vid i j) (Fin 0) = true /\
   t <= inject_Z (Z.of_nat votes) + 2) /\
  (pfp i j = 0%Z \/ pfp i j = 1%Z).
Proof.
  intros Hpt Ht Hrun votes.
  assert (Hbin : pfp i j = 0%Z \/ pfp i j = 1%Z).
  { unfold stage1_tests in Hrun.
    destruct (stage1_thresholds PYFc in_sza) as [mir_thresh btd_thresh].
    destruct (stage1b_loop _ _ _ _ _ _) as [m|]; [|discriminate].
    injection Hrun as <-. unfold where_, full.
    match goal with |- context [if ?c then _ else _] => destruct c end; auto. }
  split; [|exact Hbin].
  assert (Hpt1 : flt (Fin 1) PYFc.(stage1_pass_thresh) = true).
  { rewrite Hpt. apply flt_Fin, Ht. }
  pose proof (stage1_closed_gate PYFc nanstd shape in_mir in_btd in_vid in_sza
                in_lsm ksizes ktb ksa do_lsm lv pfp i j Hpt1 Hrun) as Hclosed.
  unfold stage1_tests in Hrun.
  destruct (stage1_thresholds PYFc in_sza) as [mir_thresh btd_thresh].
  cbn [fst snd] in *.
  destruct (stage1b_loop _ _ _ _ _ _) as [m|] eqn:Eloop; [|discriminate].
  destruct (stage1b_loop_votes shape in_btd _ ksizes i j (zeros_like in_mir) m 0
              eq_refl Eloop) as (q & Hq & Eq).
  fold votes in Eq.
  injection Hrun as <-.
  destruct (fge (in_mir i j) (mir_thresh i j)) eqn:Em.
  2: { rewrite Hclosed by auto. split; [discriminate|]. intros (H & _). discriminate H. }
  destruct (fge (in_btd i j) (btd_thresh i j)) eqn:Eb.
  2: { rewrite Hclosed by auto. split; [discriminate|]. intros (_ & H & _). discriminate H. }
  destruct (fge (in_vid i j) (Fin 0)) eqn:Ev.
  2: { rewrite Hclosed by auto. split; [discriminate|].
       intros (_ & _ & _ & H & _). discriminate H. }
  clear Hclosed.
  unfold gate_test. rewrite Hpt.
  destruct do_lsm.
  - unfold where_, map2, map1, lit, full. rewrite Em, Eb, Ev, Hq.
    destruct (in_lsm i j =? lv)%Z eqn:El.
    + apply Z.eqb_eq in El. cbn [fadd fge fle].
      destruct (Qle_bool t (q + 1 + 1)) eqn:E.
      * apply Qle_bool_iff in E. split; [|reflexivity]. intros _.
        repeat split; auto. rewrite Eq in E. qlra.
      * split; [discriminate|]. intros (_ & _ & _ & _ & H).
        apply Qle_bool_false_iff in E. rewrite Eq in E. qlra.
    + apply Z.eqb_neq in El. cbn [fge fle].
      assert (E : Qle_bool t 0 = false) by (apply Qle_bool_false_iff; qlra).
      rewrite E. split; [discriminate|]. intros (_ & _ & H & _).
      exfalso. apply El, H. reflexivity.
  - unfold where_, map2, map1, lit, full. rewrite Em, Eb, Ev, Hq.
    cbn [fadd fge fle].
    destruct (Qle_bool t (q + 1 + 1)) eqn:E.
    + apply Qle_bool_iff in E. split; [|reflexivity]. intros _.
      repeat split; auto; try discriminate. rewrite Eq in E. qlra.
    + split; [discriminate|]. intros (_ & _ & _ & _ & H).
      apply Qle_bool_false_iff in E. rewrite Eq in E. qlra.
Qed.

(** X2.  With a finite pass threshold above one vote, a pixel is in the
    mask of [stage1_tests] exactly when it passes the MIR test, the BTD
    test, the land test (when the land-sea mask is applied) and the
    vis-diff test, and its kernel votes plus the two votes of the MIR and
    BTD tests reach the pass threshold; the mask holds 0 and 1 only. *)
Theorem stage1_mask_iff shape in_mir in_btd in_vid in_sza in_lsm ksizes
      ktb ksa do_lsm lv pfp (t : Q) i j :
  PYFc.(stage1_pass_thresh) = Fin t -> 1 < t ->
  stage1_tests PYFc nanstd shape in_mir in_btd in_vid in_sza in_lsm ksizes
               ktb ksa do_lsm lv = Some pfp ->
  let votes :=
    kernel_votes nanstd shape in_btd
      (full ktb .+ full ksa .* in_sza)%grid ksizes i j in
  (pfp i j = 1%Z <->
   fge (in_mir i j) (fst (stage1_thresholds PYFc in_sza) i j) = true /\
   fge (in_btd i j) (snd (stage1_thresholds PYFc in_sza) i j) = true /\
   (do_lsm = true -> in_lsm i j = lv) /\
   fge (in_vid i j) (Fin 0) = true /\
   t <= inject_Z (Z.of_nat votes) + 2) /\
  (pfp i j = 0%Z \/ pfp i j = 1%Z).
Proof.
  exact (stage1_mask_cell shape in_mir in_btd in_vid in_sza in_lsm ksizes
           ktb ksa do_lsm lv pfp t i j).
Qed.

Lemma filter_length_app {A : Type} (f : A -> bool) (l1 l2 : list A) (x : A) :
  List.length (filter f (l1 ++ x :: l2))
  = (List.length (filter f (l1 ++ l2)) + (if f x then 1 else 0))%nat.
Proof.
  rewrite !filter_app, !length_app. cbn [filter].
  destruct (f x); cbn [List.length]; lia.
Qed.

(** A list that holds every element at least as often as another list
    has at least as many elements passing a test. *)
Lemma filter_length_count (f : Z -> bool) (l : list Z) :
  forall l',
    (forall k, count_occ Z.eq_dec l k <= count_occ Z.eq_dec l' k)%nat ->
    (List.length (filter f l) <= List.length (filter f l'))%nat.
Proof.
  induction l as [|x l IH]; intros l' H.
  - cbn [filter List.length]. lia.
  - assert (Hin : In x l').
    { apply (count_occ_In Z.eq_dec). specialize (H x).
      rewrite count_occ_cons_eq in H by reflexivity. lia. }
    destruct (in_split _ _ Hin) as (l1 & l2 & ->).
    rewrite filter_length_app.
    assert (Hle : (List.length (filter f l)
                   <= List.length (filter f (l1 ++ l2)))%nat).
    { apply IH. intro k. specialize (H k).
      rewrite count_occ_app in H. rewrite count_occ_app.
      destruct (Z.eq_dec x k) as [-> | Hne].
      - rewrite !count_occ_cons_eq in H by reflexivity. lia.
      - rewrite !count_occ_cons_neq in H by exact Hne. lia. }
    cbn [filter]. destruct (f x); cbn [List.length]; lia.
Qed.

(** X3.  The kernel sizes vote independently: with a finite pass
    threshold above one vote, a list of kernel sizes that holds every size
    at least as often as another list (more sizes, or the same sizes in
    another order) gives a mask that holds every pixel of the other mask;
    two lists with the same sizes in any order give the same mask. *)
Theorem stage1_more_kernels_more_pixels shape in_mir in_btd in_vid in_sza
      in_lsm ksizes ksizes' ktb ksa do_lsm lv pfp pfp' (t : Q) i j :
  PYFc.(stage1_pass_thresh) = Fin t -> 1 < t ->
  (forall k, count_occ Z.eq_dec ksizes k <= count_occ Z.eq_dec ksizes' k)%nat ->
  stage1_tests PYFc nanstd shape in_mir in_btd in_vid in_sza in_lsm ksizes
               ktb ksa do_lsm lv = Some pfp ->
  stage1_tests PYFc nanstd shape in_mir in_btd in_vid in_sza in_lsm ksizes'
               ktb ksa do_lsm lv = Some pfp' ->
  (pfp i j <= pfp' i j)%Z /\
  ((forall k, count_occ Z.eq_dec ksizes' k <= count_occ Z.eq_dec ksizes k)%nat ->
   pfp i j = pfp' i j).
Proof.
  intros Hpt Ht Hcount Hrun Hrun'.
  destruct (stage1_mask_cell shape in_mir in_btd in_vid in_sza in_lsm ksizes
              ktb ksa do_lsm lv pfp t i j Hpt Ht Hrun) as (Hiff & Hbin).
  destruct (stage1_mask_cell shape in_mir in_btd in_vid in_sza in_lsm ksizes'
              ktb ksa do_lsm lv pfp' t i j Hpt Ht Hrun') as (Hiff' & Hbin').
  assert (Hmono : forall l l' (m m' : Z),
             (forall k, count_occ Z.eq_dec l k <= count_occ Z.eq_dec l' k)%nat ->
             (m = 1%Z <->
              fge (in_mir i j) (fst (stage1_thresholds PYFc in_sza) i j) = true /\
              fge (in_btd i j) (snd (stage1_thresholds PYFc in_sza) i j) = true /\
              (do_lsm = true -> in_lsm i j = lv) /\
              fge (in_vid i j) (Fin 0) = true /\
              t <= inject_Z (Z.of_nat
                     (kernel_votes nanstd shape in_btd
                        (full ktb .+ full ksa .* in_sza)%grid l i j)) + 2) ->
             (m' = 1%Z <->
              fge (in_mir i j) (fst (stage1_thresholds PYFc in_sza) i j) = true /\
              fge (in_btd i j) (snd (stage1_thresholds PYFc in_sza) i j) = true /\
              (do_lsm = true -> in_lsm i j = lv) /\
              fge (in_vid i j) (Fin 0) = true /\
              t <= inject_Z (Z.of_nat
                     (kernel_votes nanstd shape in_btd
                        (full ktb .+ full ksa .* in_sza)%grid l' i j)) + 2) ->
             m = 1%Z -> m' = 1%Z).
  { intros l l' m m' Hc Hm Hm' E. apply Hm'. apply Hm in E.
    destruct E as (H1 & H2 & H3 & H4 & H5).
    repeat (split; [assumption|]).
    apply Qle_trans with (1 := H5). apply Qplus_le_l.
    rewrite <- Zle_Qle. apply inj_le. unfold kernel_votes.
    apply filter_length_count, Hc. }
  split.
  - destruct Hbin as [-> | E]; [destruct Hbin' as [-> | ->]; lia|].
    rewrite E, (Hmono ksizes ksizes' _ _ Hcount Hiff Hiff' E). lia.
  - intro Hcount'.
    destruct Hbin as [E | E].
    + destruct Hbin' as [E' | E']; [congruence|].
      pose proof (Hmono ksizes' ksizes _ _ Hcount' Hiff' Hiff E'). congruence.
    + rewrite E, (Hmono ksizes ksizes' _ _ Hcount Hiff Hiff' E). reflexivity.
Qed.



(** X4.  A pass threshold above the number of kernel sizes plus two is
    out of reach: each kernel size gives one vote at most and the MIR and
    BTD tests one each, so that the mask of [stage1_tests] is empty. *)
Theorem stage1_threshold_out_of_reach shape in_mir in_btd in_vid in_sza in_lsm
      ksizes ktb ksa do_lsm lv pfp (t : Q) i j :
  PYFc.(stage1_pass_thresh) = Fin t ->
  inject_Z (Z.of_nat (List.length ksizes)) + 2 < t ->
  stage1_tests PYFc nanstd shape in_mir in_btd in_vid in_sza in_lsm ksizes
               ktb ksa do_lsm lv = Some pfp ->
  pfp i j = 0%Z.
Proof.
  intros Hpt Ht Hrun.
  assert (Hlen : 0 <= inject_Z (Z.of_nat (List.length ksizes))).
  { change 0 with (inject_Z 0). rewrite <- Zle_Qle. lia. }
  assert (H1 : 1 < t) by qlra.
  destruct (stage1_mask_cell shape in_mir in_btd in_vid in_sza in_lsm ksizes
              ktb ksa do_lsm lv pfp t i j Hpt H1 Hrun) as (Hiff & [E | E]);
    [exact E|].
  exfalso. apply Hiff in E. destruct E as (_ & _ & _ & _ & Hv).
  assert (Hle : inject_Z (Z.of_nat
                  (kernel_votes nanstd shape in_btd
                     (full ktb .+ full ksa .* in_sza)%grid ksizes i j))
                <= inject_Z (Z.of_nat (List.length ksizes))).
  { rewrite <- Zle_Qle. apply inj_le. unfold kernel_votes.
    apply filter_length_le. }
  qlra.
Qed.

(** X5.  The land-sea mask [sort_l1] builds when none is loaded holds the
    land value everywhere (for a land value that fits [uint8]): with it the
    land test of [stage1_tests] has no effect, and the mask is the one
    computed without land-sea masking. *)
Theorem stage1_all_land_is_unmasked shape in_mir in_btd in_vid in_sza in_lsm
      ksizes ktb ksa lv pfp_land pfp_off :
  (0 <= PYFc.(lsm_land_val) < 256)%Z ->
  stage1_tests PYFc nanstd shape in_mir in_btd in_vid in_sza
               (sort_l1_lsm PYFc) ksizes ktb ksa true PYFc.(lsm_land_val)
  = Some pfp_land ->
  stage1_tests PYFc nanstd shape in_mir in_btd in_vid in_sza
               in_lsm ksizes ktb ksa false lv
  = Some pfp_off ->
  forall i j, pfp_land i j = pfp_off i j.
Proof.
  intro Hrange. unfold stage1_tests.
  destruct (stage1_thresholds PYFc in_sza) as [mir_thresh btd_thresh].
  destruct (stage1b_loop _ _ _ _ _ _) as [m|]; [|discriminate].
  intros H1 H2 i j. injection H1 as <-. injection H2 as <-.
  unfold where_, map1, map2, sort_l1_lsm, full.
  rewrite Z.mod_small by exact Hrange.
  rewrite Z.eqb_refl. reflexivity.
Qed.

End Stage1More.

(** The centre pixel of the example scene: 340 K, a BTD of 20 K, on land,
    with three kernel votes. *)
Lemma stage1_mask_iff_witness :
  (example_consts.(stage1_pass_thresh) = Fin 4 /\ 1 < 4) /\
  (example_pfp 2%nat 2%nat = 1%Z <->
   fge (example_mir 2%nat 2%nat)
       (fst (stage1_thresholds example_consts (lit 10)) 2%nat 2%nat) = true /\
   fge (example_btd 2%nat 2%nat)
       (snd (stage1_thresholds example_consts (lit 10)) 2%nat 2%nat) = true /\
   (true = true -> full 2%Z 2%nat 2%nat = example_consts.(lsm_land_val)) /\
   fge (lit 1 2%nat 2%nat) (Fin 0) = true /\
   4 <= inject_Z (Z.of_nat
          (kernel_votes example_nanstd (5, 5)%nat example_btd
             (full example_consts.(kern_thresh_btd)
              .+ full example_consts.(kern_thresh_sza_adj) .* lit 10)%grid
             [3; 5; 7]%Z 2 2)) + 2) /\
  (example_pfp 2%nat 2%nat = 0%Z \/ example_pfp 2%nat 2%nat = 1%Z).
Proof.
  split; [split; reflexivity|].
  exact (stage1_mask_iff example_consts example_nanstd (5, 5)%nat
           example_mir example_btd (lit 1) (lit 10) (full 2%Z) [3; 5; 7]%Z
           example_consts.(kern_thresh_btd) example_consts.(kern_thresh_sza_adj)
           true example_consts.(lsm_land_val) example_pfp 4 2%nat 2%nat
           eq_refl eq_refl eq_refl).
Defined.

Lemma stage1_all_land_is_unmasked_witness :
  (0 <= example_consts.(lsm_land_val) < 256)%Z /\
  forall i j, example_pfp_land i j = example_pfp_unmasked i j.
Proof.
  split; [split; [discriminate|reflexivity]|].
  exact (stage1_all_land_is_unmasked example_consts example_nanstd (5, 5)%nat
           example_mir example_btd (lit 1) (lit 10) (full 0%Z) [3; 5; 7]%Z
           example_consts.(kern_thresh_btd) example_consts.(kern_thresh_sza_adj)
           example_consts.(lsm_land_val) example_pfp_land example_pfp_unmasked
           (conj (fun H => Z.le_0_2 H) eq_refl) eq_refl eq_refl).
Defined.

(** The example scene with the kernel sizes in another order. *)
Lemma stage1_more_kernels_more_pixels_witness :
  (example_consts.(stage1_pass_thresh) = Fin 4 /\ 1 < 4) /\
  (example_pfp 2%nat 2%nat <= example_pfp_reordered 2%nat 2%nat)%Z /\
  ((forall k, count_occ Z.eq_dec [7; 3; 5]%Z k
              <= count_occ Z.eq_dec [3; 5; 7]%Z k)%nat ->
   example_pfp 2%nat 2%nat = example_pfp_reordered 2%nat 2%nat).
Proof.
  split; [split; reflexivity|].
  refine (stage1_more_kernels_more_pixels example_consts example_nanstd
            (5, 5)%nat example_mir example_btd (lit 1) (lit 10) (full 2%Z)
            [3; 5; 7]%Z [7; 3; 5]%Z
            example_consts.(kern_thresh_btd) example_consts.(kern_thresh_sza_adj)
            true example_consts.(lsm_land_val) example_pfp example_pfp_reordered
            4 2%nat 2%nat eq_refl eq_refl _ eq_refl eq_refl).
  intro k. cbn [count_occ].
  destruct (Z.eq_dec 3 k), (Z.eq_dec 5 k), (Z.eq_dec 7 k); lia.
Defined.

(** With the example constants and a pass threshold of 6, three kernel
    sizes cannot give a detection. *)
Lemma stage1_threshold_out_of_reach_witness :
  (strict_consts.(stage1_pass_thresh) = Fin 6 /\
   inject_Z (Z.of_nat (List.length [3; 5; 7]%Z)) + 2 < 6) /\
  example_pfp_strict 2%nat 2%nat = 0%Z.
Proof.
  split; [split; reflexivity|].
  exact (stage1_threshold_out_of_reach strict_consts example_nanstd
           (5, 5)%nat example_mir example_btd (lit 1) (lit 10) (full 2%Z)
           [3; 5; 7]%Z
           strict_consts.(kern_thresh_btd) strict_consts.(kern_thresh_sza_adj)
           true strict_consts.(lsm_land_val) example_pfp_strict 6 2%nat 2%nat
           eq_refl eq_refl eq_refl).
Defined.

(* ------------------------------------------------------------------ *)
(** ** Thresholds and the solar zenith angle *)

Lemma feq_Fin_inv (x : fl) (q : Q) :
  x =f= Fin q -> exists q', x = Fin q' /\ q' == q.
Proof.
  destruct x as [| | |q']; simpl; try contradiction.
  intro H. exists q'. split; [reflexivity|exact H].
Qed.

Lemma linear_term_antitone (base adj s s' : Q) :
  adj <= 0 -> s <= s' -> base + adj * s' <= base + adj * s.
Proof. intros Ha Hs. Lqa.nra. Qed.

(** X7.  With non-positive adjustment slopes, as the defaults are, both
    Stage 1 thresholds fall, or stay, as the solar zenith angle grows: of
    two pixels the one with the larger angle never has the higher
    threshold. *)
Theorem set_initial_thresholds_antitone
  (sza : grid Q) (mbt madj mlim bbt badj blim : Q) (i j i' j' : nat) :
  madj <= 0 -> badj <= 0 -> sza i j <= sza i' j' ->
  let r := set_initial_thresholds (map1 Fin sza)
             (Fin mbt) (Fin madj) (Fin mlim) (Fin bbt) (Fin badj) (Fin blim) in
  fle (fst r i' j') (fst r i j) = true /\
  fle (snd r i' j') (snd r i j) = true.
Proof.
  intros Hm Hb Hs r. unfold r, set_initial_thresholds. cbn [fst snd].
  unfold where_, map2, map1, full.
  split.
  - destruct (feq_Fin_inv _ _ (threshold_cell mbt madj mlim (sza i j)))
      as (a & -> & Ea).
    destruct (feq_Fin_inv _ _ (threshold_cell mbt madj mlim (sza i' j')))
      as (a' & -> & Ea').
    apply fle_Fin. rewrite Ea, Ea'.
    apply Q.max_le_compat_l, linear_term_antitone; assumption.
  - destruct (feq_Fin_inv _ _ (threshold_cell bbt badj blim (sza i j)))
      as (a & -> & Ea).
    destruct (feq_Fin_inv _ _ (threshold_cell bbt badj blim (sza i' j')))
      as (a' & -> & Ea').
    apply fle_Fin. rewrite Ea, Ea'.
    apply Q.max_le_compat_l, linear_term_antitone; assumption.
Qed.

Lemma set_initial_thresholds_antitone_witness :
  (- (3 # 10) <= 0 /\ - (49 # 10000) <= 0 /\
   (fun i _ : nat => inject_Z (Z.of_nat i)) 10%nat 0%nat
   <= (fun i _ : nat => inject_Z (Z.of_nat i)) 50%nat 0%nat) /\
  let r := set_initial_thresholds
             (map1 Fin (fun i _ : nat => inject_Z (Z.of_nat i)))
             (Fin (3105 # 10)) (Fin (- (3 # 10))) (Fin 280)
             (Fin (175 # 100)) (Fin (- (49 # 10000))) (Fin 1) in
  fle (fst r 50%nat 0%nat) (fst r 10%nat 0%nat) = true /\
  fle (snd r 50%nat 0%nat) (snd r 10%nat 0%nat) = true.
Proof.
  split; [split; [discriminate|split; discriminate]|].
  apply (set_initial_thresholds_antitone
           (fun i _ : nat => inject_Z (Z.of_nat i))
           (3105 # 10) (- (3 # 10)) 280 (175 # 100) (- (49 # 10000)) 1
           10%nat 0%nat 50%nat 0%nat); discriminate.
Defined.

(* ------------------------------------------------------------------ *)
(** ** The background radiance: range of the result *)

Lemma sample_total_positive (n : nat) (shape : nat * nat)
  (indata insza : grid fl) (sza_thr : fl) (lo hi : Q) (p : nat * nat) (q : Q) :
  (0 < n)%nat -> lo < hi ->
  In p (night_positive shape indata insza sza_thr) ->
  at_ indata p = Fin q -> lo <= q -> q <= hi ->
  (0 < hist_total n shape indata insza sza_thr lo hi)%Z.
Proof.
  intros Hn Hr Hp Hq H1 H2.
  destruct (bin_index_inside n lo hi q H1 H2) as (k & Hk).
  apply (hist_total_positive n shape indata insza sza_thr lo hi p k Hr Hp).
  - rewrite Hq. exact Hk.
  - apply (bin_index_spec n lo hi q k Hn Hr Hk).
Qed.

Lemma background_rad_bins_monotone (n : nat) (shape : nat * nat)
  (indata insza : grid fl) (sza_thr : fl) (lo hi t t' : Q) :
  lo < hi -> t <= t' ->
  (exists p q, In p (night_positive shape indata insza sza_thr) /\
               at_ indata p = Fin q /\ lo <= q /\ q <= hi) ->
  (0 < n)%nat ->
  exists e e',
    background_rad_bins n shape indata insza sza_thr (Fin t) (lo, hi)
    = Some (Fin e) /\
    background_rad_bins n shape indata insza sza_thr (Fin t') (lo, hi)
    = Some (Fin e') /\
    e <= e'.
Proof.
  intros Hr Hle (p & q & Hp & Hq & H1 & H2) Hn.
  pose proof (sample_total_positive n shape indata insza sza_thr lo hi
                p q Hn Hr Hp Hq H1 H2) as Hpos.
  destruct (background_rad_later_bin n shape indata insza sza_thr lo hi
              Hr Hpos t t' Hle) as (i & i' & Hi & Hi' & Hrun & Hrun').
  exists (bin_edge n lo hi i), (bin_edge n lo hi i').
  split; [exact Hrun|]. split; [exact Hrun'|].
  apply bin_edge_monotone; assumption.
Qed.

(** X8.  Over a proper range and for every finite fraction,
    [compute_background_rad] never fails, and its result tells the two
    cases apart: it is the sentinel -999 when no night pixel with positive
    radiance lies inside the range, and otherwise the lower edge of one of
    the 800 bins, a value in [lo, hi). *)
Theorem compute_background_rad_range (shape : nat * nat)
  (indata insza : grid fl) (sza_thr : fl) (lo hi t : Q) :
  lo < hi ->
  let r := compute_background_rad shape indata insza sza_thr (Fin t) (lo, hi) in
  ((forall p q, In p (night_positive shape indata insza sza_thr) ->
                at_ indata p = Fin q -> ~ (lo <= q /\ q <= hi)) ->
   r = Some (Fin (-999))) /\
  ((exists p q, In p (night_positive shape indata insza sza_thr) /\
                at_ indata p = Fin q /\ lo <= q /\ q <= hi) ->
   exists i,
     (i < nbins)%nat /\
     r = Some (Fin (bin_edge nbins lo hi i)) /\
     lo <= bin_edge nbins lo hi i /\ bin_edge nbins lo hi i < hi).
Proof.
  intros Hr r. unfold r, compute_background_rad. split.
  - intro Hnone.
    apply (compute_background_rad_degenerate nbins shape indata insza sza_thr
             lo hi Hr).
    intros p Hp. destruct (at_ indata p) as [| | |q] eqn:E; try reflexivity.
    unfold bin_index.
    destruct (Qle_bool lo q) eqn:E1; [|reflexivity].
    destruct (Qle_bool q hi) eqn:E2; [|reflexivity].
    exfalso. apply (Hnone p q Hp E). split; apply Qle_bool_iff; assumption.
  - intros (p & q & Hp & Hq & H1 & H2).
    assert (Hn : (0 < nbins)%nat) by (unfold nbins; lia).
    pose proof (sample_total_positive nbins shape indata insza sza_thr lo hi
                  p q Hn Hr Hp Hq H1 H2) as Ht.
    destruct (background_rad_some_bin nbins shape indata insza sza_thr lo hi
                Hr Ht t) as (i & Hi & Hrun).
    exists i. split; [exact Hi|]. split; [exact Hrun|].
    apply bin_edge_bounds; assumption.
Qed.

(** X9.  With a fraction of 1 + 10^-12 or more, above every running sum
    that the rounded additions can reach, the search loop of
    [compute_background_rad] ends without its [break], and the result is
    the lower edge of the last bin, [hi - (hi - lo) / 800], whatever the
    radiances counted. *)
Theorem compute_background_rad_full_fraction (shape : nat * nat)
  (indata insza : grid fl) (sza_thr : fl) (lo hi t : Q) :
  lo < hi -> 1 + (1 # 1000000000000) <= t ->
  (exists p q, In p (night_positive shape indata insza sza_thr) /\
               at_ indata p = Fin q /\ lo <= q /\ q <= hi) ->
  exists e,
    compute_background_rad shape indata insza sza_thr (Fin t) (lo, hi)
    = Some (Fin e) /\
    e == hi - (hi - lo) / 800.
Proof.
  intros Hr Ht (p & q & Hp & Hq & H1 & H2).
  assert (Hn : (0 < nbins)%nat) by (unfold nbins; lia).
  pose proof (sample_total_positive nbins shape indata insza sza_thr lo hi
                p q Hn Hr Hp Hq H1 H2) as Hpos.
  exists (bin_edge nbins lo hi (pred nbins)). split.
  - apply (background_rad_no_break nbins shape indata insza sza_thr lo hi
             Hr Hpos t).
    + unfold nbins. lia.
    + apply Qle_trans with (2 := Ht). discriminate.
  - unfold bin_edge.
    change (inject_Z (Z.of_nat (pred nbins))) with (799 # 1).
    change (inject_Z (Z.of_nat nbins)) with (800 # 1).
    field.
Qed.

(** X10.  The background radiance never falls when the fraction grows: of
    two fractions, the larger one gives the same bin edge or a higher
    one. *)
Theorem compute_background_rad_monotone (shape : nat * nat)
  (indata insza : grid fl) (sza_thr : fl) (lo hi t t' : Q) :
  lo < hi -> t <= t' ->
  (exists p q, In p (night_positive shape indata insza sza_thr) /\
               at_ indata p = Fin q /\ lo <= q /\ q <= hi) ->
  exists e e',
    compute_background_rad shape indata insza sza_thr (Fin t) (lo, hi)
    = Some (Fin e) /\
    compute_background_rad shape indata insza sza_thr (Fin t') (lo, hi)
    = Some (Fin e') /\
    e <= e'.
Proof.
  intros Hr Hle Hs.
  assert (Hn : (0 < nbins)%nat) by (unfold nbins; lia).
  exact (background_rad_bins_monotone nbins shape indata insza sza_thr
           lo hi t t' Hr Hle Hs Hn).
Qed.

(** The dark pixel of the two-pixel night scene is counted by the
    histogram. *)
Lemma pair_sample :
  exists p q, In p (night_positive pair_shape pair_vi2 night_sza (Fin 97)) /\
              at_ pair_vi2 p = Fin q /\ 0 <= q /\ q <= 2.
Proof.
  exists (0, 1)%nat, (25 # 10000). split.
  - apply in_night_positive. split; [split; simpl; lia|].
    split; reflexivity.
  - split; [reflexivity|]. split; discriminate.
Qed.

Lemma compute_background_rad_range_witness :
  0 < 2 /\
  let r := compute_background_rad pair_shape pair_vi2 night_sza (Fin 97)
                                  (Fin (99 # 100)) (0, 2) in
  ((forall p q, In p (night_positive pair_shape pair_vi2 night_sza (Fin 97)) ->
                at_ pair_vi2 p = Fin q -> ~ (0 <= q /\ q <= 2)) ->
   r = Some (Fin (-999))) /\
  ((exists p q, In p (night_positive pair_shape pair_vi2 night_sza (Fin 97)) /\
                at_ pair_vi2 p = Fin q /\ 0 <= q /\ q <= 2) ->
   exists i,
     (i < nbins)%nat /\
     r = Some (Fin (bin_edge nbins 0 2 i)) /\
     0 <= bin_edge nbins 0 2 i /\ bin_edge nbins 0 2 i < 2).
Proof.
  split; [reflexivity|].
  exact (compute_background_rad_range pair_shape pair_vi2 night_sza (Fin 97)
           0 2 (99 # 100) eq_refl).
Defined.

Lemma compute_background_rad_full_fraction_witness :
  (0 < 2 /\ 1 + (1 # 1000000000000) <= 2) /\
  exists e,
    compute_background_rad pair_shape pair_vi2 night_sza (Fin 97) (Fin 2) (0, 2)
    = Some (Fin e) /\
    e == 2 - (2 - 0) / 800.
Proof.
  assert (H : 1 + (1 # 1000000000000) <= 2) by discriminate.
  split; [split; [reflexivity|exact H]|].
  exact (compute_background_rad_full_fraction pair_shape pair_vi2 night_sza
           (Fin 97) 0 2 2 eq_refl H pair_sample).
Defined.

Lemma compute_background_rad_monotone_witness :
  (0 < 2 /\ 1 # 2 <= 99 # 100) /\
  exists e e',
    compute_background_rad pair_shape pair_vi2 night_sza (Fin 97)
                           (Fin (1 # 2)) (0, 2) = Some (Fin e) /\
    compute_background_rad pair_shape pair_vi2 night_sza (Fin 97)
                           (Fin (99 # 100)) (0, 2) = Some (Fin e') /\
    e <= e'.
Proof.
  split; [split; [reflexivity|discriminate]|].
  refine (compute_background_rad_monotone pair_shape pair_vi2 night_sza
            (Fin 97) 0 2 (1 # 2) (99 # 100) eq_refl _ pair_sample).
  discriminate.
Defined.

(* ------------------------------------------------------------------ *)
(** ** Night-time detection: when it runs and what it returns *)

(** A night pixel whose radiance the histogram counts: solar zenith angle
    above the threshold, radiance in (0, 2]. *)
Lemma counted_pixel_sample (shape : nat * nat) (indata insza : grid fl)
  (sza_thr : fl) (p : nat * nat) :
  In p (pixels shape) ->
  fgt (at_ insza p) sza_thr = true ->
  fgt (at_ indata p) (Fin 0) = true ->
  fle (at_ indata p) (Fin 2) = true ->
  exists q, In p (night_positive shape indata insza sza_thr) /\
            at_ indata p = Fin q /\ 0 <= q /\ q <= 2.
Proof.
  intros Hin Hn Hpos Hle.
  destruct (at_ indata p) as [| | |q] eqn:E; try discriminate.
  exists q. split.
  - apply in_night_positive. rewrite E. split; [apply in_pixels, Hin|].
    split; assumption.
  - split; [reflexivity|]. apply Qlt_bool_iff in Hpos. apply fle_Fin in Hle.
    split; [qlra|exact Hle].
Qed.

(** The result of the histogram search, when it is not the sentinel, is
    a bin edge of the range [0, 2). *)
Lemma background_rad_not_sentinel (n : nat) (shape : nat * nat)
  (indata insza : grid fl) (sza_thr : fl) (t : Q) (v : fl) :
  (0 < n)%nat ->
  background_rad_bins n shape indata insza sza_thr (Fin t) (0, 2) = Some v ->
  feqb v (Fin (-999)) = false ->
  exists e, v = Fin e /\ 0 <= e /\ e < 2.
Proof.
  intros Hn Hrun Hs.
  set (inside := fun p : nat * nat =>
                   match bin_index n 0 2 (at_ indata p) with
                   | Some _ => true
                   | None => false
                   end).
  destruct (existsb inside (night_positive shape indata insza sza_thr)) eqn:E.
  - apply existsb_exists in E. destruct E as (p & Hp & Hin).
    unfold inside in Hin.
    destruct (bin_index n 0 2 (at_ indata p)) as [k|] eqn:Ek;
      [|discriminate].
    assert (Hk : (k < n)%nat).
    { destruct (at_ indata p) as [| | |q]; try discriminate.
      apply (bin_index_spec n 0 2 q k Hn eq_refl Ek). }
    pose proof (hist_total_positive n shape indata insza sza_thr 0 2 p k
                  eq_refl Hp Ek Hk) as Ht.
    destruct (background_rad_some_bin n shape indata insza sza_thr 0 2
                eq_refl Ht t) as (i & Hi & Hres).
    rewrite Hres in Hrun.
    injection Hrun as <-. eexists. split; [reflexivity|].
    apply bin_edge_bounds; [reflexivity|exact Hi].
  - exfalso.
    rewrite (compute_background_rad_degenerate n shape indata insza sza_thr
               0 2 eq_refl (Fin t)) in Hrun.
    + injection Hrun as <-. discriminate Hs.
    + intros p Hp.
      destruct (bin_index n 0 2 (at_ indata p)) eqn:Ek; [|reflexivity].
      exfalso.
      assert (Hex : existsb inside (night_positive shape indata insza sza_thr)
                    = true).
      { apply existsb_exists. exists p. split; [exact Hp|].
        unfold inside. rewrite Ek. reflexivity. }
      rewrite Hex in E. discriminate E.
Qed.

Lemma bins_positive : (0 < nbins)%nat.
Proof. unfold nbins. lia. Qed.

Lemma night_threshold_nonneg (shape : nat * nat) (indata insza : grid fl)
  (sza_thr : fl) (t : Q) (v : fl) :
  compute_background_rad shape indata insza sza_thr (Fin t) (0, 2) = Some v ->
  feqb v (Fin (-999)) = false ->
  exists e, v = Fin e /\ 0 <= e /\ e < 2.
Proof.
  exact (background_rad_not_sentinel nbins shape indata insza sza_thr t v
           bins_positive).
Qed.

(** The search succeeds when a sample lies inside the range [0, 2]. *)
Lemma background_rad_counted (n : nat) (shape : nat * nat)
  (indata insza : grid fl) (sza_thr : fl) (t : Q) (p : nat * nat) (q : Q) :
  (0 < n)%nat ->
  In p (night_positive shape indata insza sza_thr) ->
  at_ indata p = Fin q -> 0 <= q -> q <= 2 ->
  exists e,
    background_rad_bins n shape indata insza sza_thr (Fin t) (0, 2)
    = Some (Fin e) /\
    feqb (Fin e) (Fin (-999)) = false.
Proof.
  intros Hn Hp Hq H0 H2.
  pose proof (sample_total_positive n shape indata insza sza_thr 0 2 p q
                Hn eq_refl Hp Hq H0 H2) as Ht.
  destruct (background_rad_some_bin n shape indata insza sza_thr 0 2
              eq_refl Ht t) as (i & Hi & Hres).
  exists (bin_edge n 0 2 i). split; [exact Hres|].
  destruct (bin_edge_bounds n 0 2 i eq_refl Hi) as (Hlo & _).
  cbn [feqb]. destruct (Qeq_bool _ _) eqn:E; [|reflexivity].
  apply Qeq_bool_iff in E. rewrite E in Hlo.
  exfalso. exact (Qlt_not_le (-999) 0 eq_refl Hlo).
Qed.

Lemma night_threshold_counted (shape : nat * nat)
  (indata insza : grid fl) (sza_thr : fl) (t : Q) (p : nat * nat) (q : Q) :
  In p (night_positive shape indata insza sza_thr) ->
  at_ indata p = Fin q -> 0 <= q -> q <= 2 ->
  exists e,
    compute_background_rad shape indata insza sza_thr (Fin t) (0, 2)
    = Some (Fin e) /\
    feqb (Fin e) (Fin (-999)) = false.
Proof.
  exact (background_rad_counted nbins shape indata insza sza_thr t p q
           bins_positive).
Qed.

(** The search gives the sentinel when no night pixel has a radiance in
    (0, 2]. *)
Lemma background_rad_uncounted (n : nat) (shape : nat * nat)
  (indata insza : grid fl) (sza_thr : fl) (t : Q) :
  (forall p, In p (pixels shape) ->
             fgt (at_ insza p) sza_thr = true ->
             fgt (at_ indata p) (Fin 0) && fle (at_ indata p) (Fin 2) = false) ->
  background_rad_bins n shape indata insza sza_thr (Fin t) (0, 2)
  = Some (Fin (-999)).
Proof.
  intro H.
  apply (compute_background_rad_degenerate n shape indata insza sza_thr
           0 2 eq_refl (Fin t)).
  intros p Hp. apply in_night_positive in Hp.
  destruct Hp as (Hin & Hnight & Hpos).
  apply outside_range_no_bin; [|exact Hpos].
  apply H; [apply in_pixels, Hin|exact Hnight].
Qed.

Lemma night_threshold_uncounted (shape : nat * nat)
  (indata insza : grid fl) (sza_thr : fl) (t : Q) :
  (forall p, In p (pixels shape) ->
             fgt (at_ insza p) sza_thr = true ->
             fgt (at_ indata p) (Fin 0) && fle (at_ indata p) (Fin 2) = false) ->
  compute_background_rad shape indata insza sza_thr (Fin t) (0, 2)
  = Some (Fin (-999)).
Proof.
  exact (background_rad_uncounted nbins shape indata insza sza_thr t).
Qed.

Lemma some_night_pixel (shape : nat * nat) (sza : grid fl) (thr : fl)
  (p : nat * nat) :
  In p (pixels shape) -> fgt (at_ sza p) thr = true ->
  existsb (fun b => b) (ravel shape (sza .> full thr)%grid) = true.
Proof.
  intros Hin Hp. apply existsb_exists. exists true. split; [|reflexivity].
  rewrite ravel_pixels. apply in_map_iff. exists p. split; [|exact Hin].
  exact Hp.
Qed.

(** X11.  [run_basic_night_detection] reaches its detection stage, and
    returns the pair of masks, exactly when the scene holds a night pixel
    (solar zenith angle above the threshold) whose radiance is positive and
    at most 2, the upper end of the histogram range; in every other case it
    returns one array of zeros or, on a scene without pixels, fails. *)
Theorem night_detection_runs_iff (shape : nat * nat)
  (in_vi2_rad in_sza in_vid : grid fl) (in_pfp : grid Z) (opts : night_opts) :
  (exists out_dets def_dets,
      run_basic_night_detection shape in_vi2_rad in_sza in_vid in_pfp opts
      = Some (Detections out_dets def_dets)) <->
  (exists p, In p (pixels shape) /\
             fgt (at_ in_sza p) opts.(sza_thresh) = true /\
             fgt (at_ in_vi2_rad p) (Fin 0) = true /\
             fle (at_ in_vi2_rad p) (Fin 2) = true).
Proof.
  split.
  - intros (out_dets & def_dets & Hrun).
    set (counted := fun p : nat * nat =>
                      fgt (at_ in_sza p) opts.(sza_thresh)
                      && (fgt (at_ in_vi2_rad p) (Fin 0)
                          && fle (at_ in_vi2_rad p) (Fin 2))).
    destruct (existsb counted (pixels shape)) eqn:E.
    + apply existsb_exists in E. destruct E as (p & Hp & Hc).
      unfold counted in Hc. apply andb_true_iff in Hc. destruct Hc as (H1 & Hc).
      apply andb_true_iff in Hc. destruct Hc as (H2 & H3).
      exists p. repeat split; assumption.
    + exfalso. unfold run_basic_night_detection, default_rad_sum_thr in Hrun.
      destruct (nanmax_bool _) as [[|]|];
    [|discriminate Hrun|discriminate Hrun].
      rewrite (night_threshold_uncounted shape in_vi2_rad in_sza
                 opts.(sza_thresh) (round64 (99 # 100))) in Hrun.
      * discriminate Hrun.
      * intros p Hin Hnight.
        destruct (fgt (at_ in_vi2_rad p) (Fin 0)
                  && fle (at_ in_vi2_rad p) (Fin 2)) eqn:Ec; [|reflexivity].
        assert (Hex : existsb counted (pixels shape) = true).
        { apply existsb_exists. exists p. split; [exact Hin|].
          unfold counted. rewrite Hnight, Ec. reflexivity. }
        rewrite Hex in E. discriminate E.
  - intros (p & Hin & Hnight & Hpos & Hle).
    unfold run_basic_night_detection, default_rad_sum_thr.
    assert (Hshape : (0 < fst shape)%nat /\ (0 < snd shape)%nat).
    { apply in_pixels in Hin. lia. }
    rewrite (nanmax_bool_nonempty shape _ (proj1 Hshape) (proj2 Hshape)).
    rewrite (some_night_pixel shape in_sza _ p Hin Hnight).
    destruct (counted_pixel_sample shape in_vi2_rad in_sza _ p Hin Hnight
                Hpos Hle) as (q & Hp & Hq & H0 & H2).
    destruct (night_threshold_counted shape in_vi2_rad in_sza
                opts.(sza_thresh) (round64 (99 # 100)) p q Hp Hq H0 H2) as (e & Hres & Hs).
    rewrite Hres.
    rewrite Hs. eexists. eexists. reflexivity.
Qed.

Lemma window_step_binary (shape : nat * nat) (in_vid : grid fl)
  (cand : grid Z) (i j : nat) :
  (cand i j = 0%Z \/ cand i j = 1%Z) ->
  night_window_step shape in_vid cand i j = 0%Z \/
  night_window_step shape in_vid cand i j = 1%Z.
Proof.
  intro H. rewrite night_window_step_cell.
  destruct (_ =? 1)%Z; [|exact H].
  destruct (feqb _ _); auto.
Qed.

Lemma night_candidates_cell (in_vi2_rad in_vid : grid fl) (in_pfp : grid Z)
  (thr_vis : fl) (opts : night_opts) (i j : nat) :
  night_candidates in_vi2_rad in_vid in_pfp thr_vis opts i j
  = if ((in_pfp i j =? 1)%Z
        && fgt (in_vid i j) opts.(vid_thresh)
        && fgt (in_vi2_rad i j) (fmul thr_vis (Fin 2)))%bool
    then 1%Z else 0%Z.
Proof.
  unfold night_candidates, astype_uint8, where_, map1, map2, full.
  destruct (in_pfp i j =? 1)%Z; [|reflexivity].
  destruct (fgt (in_vid i j) _); [|reflexivity].
  destruct (fgt (in_vi2_rad i j) _); reflexivity.
Qed.

(** What the detection stage computes at one pixel: [step] is the result
    of the 3x3 window step on the candidates selected with the threshold
    found by the histogram search. *)
Lemma night_detection_cells (shape : nat * nat)
  (in_vi2_rad in_sza in_vid : grid fl) (in_pfp : grid Z) (opts : night_opts)
  (out_dets def_dets : grid Z) :
  run_basic_night_detection shape in_vi2_rad in_sza in_vid in_pfp opts
  = Some (Detections out_dets def_dets) ->
  exists (e : Q) (step : grid Z),
    0 <= e /\
    (forall i j,
        step i j
        = night_window_step shape in_vid
            (night_candidates in_vi2_rad in_vid in_pfp (Fin e) opts) i j) /\
    forall i j,
      def_dets i j
      = (if fgt (in_sza i j) opts.(sza_thresh)
         then if fgt (in_vid i j) opts.(def_fire_rad_vid)
              then if fgt (in_vi2_rad i j) opts.(def_fire_rad_vis)
                   then 1%Z else 0%Z
              else 0%Z
         else 0%Z) /\
      out_dets i j
      = (if fgt (in_sza i j) opts.(sza_thresh)
         then if (def_dets i j >? 0)%Z then 1%Z else step i j
         else 0%Z).
Proof.
  intro Hrun. unfold run_basic_night_detection, default_rad_sum_thr in Hrun.
  destruct (nanmax_bool _) as [[|]|];
    [|discriminate Hrun|discriminate Hrun].
  destruct (compute_background_rad _ _ _ _ _ _) as [thr_vis|] eqn:Ebg;
    [|discriminate Hrun].
  destruct (feqb thr_vis (Fin (-999))) eqn:Es; [discriminate Hrun|].
  destruct (night_threshold_nonneg _ _ _ _ _ _ Ebg Es) as (e & Ee & He & _).
  clear Ebg Es. subst thr_vis.
  injection Hrun as Eout Edef.
  exists e.
  exists (night_window_step shape in_vid
            (night_candidates in_vi2_rad in_vid in_pfp (Fin e) opts)).
  split; [exact He|]. split; [reflexivity|]. intros i j.
  rewrite <- Eout, <- Edef. split; reflexivity.
Qed.

(** X12.  The two masks of the detection stage: [def_dets] marks exactly
    the night pixels whose radiance and vis-diff value both exceed the
    definite-fire thresholds; both masks hold 0 and 1 only; every definite
    detection is a detection; no pixel outside the night is a detection. *)
Theorem night_detection_masks (shape : nat * nat)
  (in_vi2_rad in_sza in_vid : grid fl) (in_pfp : grid Z) (opts : night_opts)
  (out_dets def_dets : grid Z) (i j : nat) :
  run_basic_night_detection shape in_vi2_rad in_sza in_vid in_pfp opts
  = Some (Detections out_dets def_dets) ->
  (def_dets i j = 1%Z <->
   fgt (in_vi2_rad i j) opts.(def_fire_rad_vis) = true /\
   fgt (in_vid i j) opts.(def_fire_rad_vid) = true /\
   fgt (in_sza i j) opts.(sza_thresh) = true) /\
  (def_dets i j = 0%Z \/ def_dets i j = 1%Z) /\
  (out_dets i j = 0%Z \/ out_dets i j = 1%Z) /\
  (def_dets i j = 1%Z -> out_dets i j = 1%Z) /\
  (fgt (in_sza i j) opts.(sza_thresh) = false -> out_dets i j = 0%Z).
Proof.
  intro Hrun.
  destruct (night_detection_cells _ _ _ _ _ _ _ _ Hrun)
    as (e & step & _ & Estep & Hcells).
  destruct (Hcells i j) as (Hdef & Hout). clear Hcells Hrun.
  assert (Hstep : step i j = 0%Z \/ step i j = 1%Z).
  { rewrite Estep. apply window_step_binary.
    rewrite night_candidates_cell. destruct (_ && _)%bool; auto. }
  clear Estep.
  rewrite Hout, Hdef. clear Hout Hdef.
  destruct (fgt (in_sza i j) (sza_thresh opts));
    destruct (fgt (in_vid i j) (def_fire_rad_vid opts));
    destruct (fgt (in_vi2_rad i j) (def_fire_rad_vis opts));
    cbn [Z.gtb Z.compare];
    (split; [split; [intro H; try discriminate H; auto
                    |intros (H1 & H2 & H3); try discriminate; reflexivity]|]);
    (split; [auto|]); (split; [auto|]);
    (split; [intro H; try discriminate H; reflexivity
            |intro H; try discriminate H; reflexivity]).
Qed.

Lemma window_count_one_member (shape : nat * nat) (cand : grid Z) (i j : nat) :
  (forall p, 0 <= at_ cand p)%Z ->
  window_count shape cand i j = 1%Z ->
  exists p, In p (window3 shape i j) /\ (0 < at_ cand p)%Z.
Proof.
  intros Hnn Hone. unfold window_count in Hone.
  destruct (fold_add_pos (map (at_ cand) (window3 shape i j))) with (a := 0%Z)
    as (c & Hin & Hc).
  - intros c Hc. apply in_map_iff in Hc. destruct Hc as (p & <- & _).
    apply Hnn.
  - rewrite Hone. lia.
  - apply in_map_iff in Hin. destruct Hin as (p & <- & Hp).
    exists p. split; assumption.
Qed.

(** A candidate of the window step is a potential fire pixel with a
    vis-diff value above [vid_thresh] and a positive radiance. *)
Lemma night_candidate_pixel (in_vi2_rad in_vid : grid fl) (in_pfp : grid Z)
  (e : Q) (opts : night_opts) (p : nat * nat) :
  0 <= e ->
  (0 < at_ (night_candidates in_vi2_rad in_vid in_pfp (Fin e) opts) p)%Z ->
  at_ in_pfp p = 1%Z /\
  fgt (at_ in_vid p) opts.(vid_thresh) = true /\
  fgt (at_ in_vi2_rad p) (Fin 0) = true.
Proof.
  intros He Hp. unfold at_ in *. rewrite night_candidates_cell in Hp.
  destruct (in_pfp (fst p) (snd p) =? 1)%Z eqn:E1; [|simpl in Hp; lia].
  destruct (fgt (in_vid (fst p) (snd p)) _) eqn:E2; [|simpl in Hp; lia].
  destruct (fgt (in_vi2_rad (fst p) (snd p)) _) eqn:E3; [|simpl in Hp; lia].
  apply Z.eqb_eq in E1. split; [exact E1|]. split; [reflexivity|].
  destruct (in_vi2_rad (fst p) (snd p)) as [| | |q]; try discriminate;
    [reflexivity|].
  cbn [fmul fgt flt] in E3. apply Qlt_bool_iff in E3.
  apply Qlt_bool_iff. qlra.
Qed.

(** A pixel the window step leaves set has a candidate in its window. *)
Lemma window_step_member (shape : nat * nat) (in_vid : grid fl)
  (cand : grid Z) (i j : nat) :
  (i < fst shape)%nat -> (j < snd shape)%nat ->
  (forall p, 0 <= at_ cand p)%Z ->
  night_window_step shape in_vid cand i j = 1%Z ->
  exists p, In p (window3 shape i j) /\ (0 < at_ cand p)%Z.
Proof.
  intros Hi Hj Hnn Hstep. rewrite night_window_step_cell in Hstep.
  destruct (window_count shape cand i j =? 1)%Z eqn:E.
  - apply Z.eqb_eq in E. apply window_count_one_member; assumption.
  - exists (i, j). split; [apply centre_in_window; assumption|].
    unfold at_. cbn [fst snd]. rewrite Hstep. reflexivity.
Qed.

(** X13.  A detection that is not a definite detection always has a
    candidate inside its 3x3 window (borders reflected): a pixel flagged as
    potential fire pixel, with a vis-diff value above [vid_thresh] and a
    positive radiance. *)
Theorem night_detection_has_candidate (shape : nat * nat)
  (in_vi2_rad in_sza in_vid : grid fl) (in_pfp : grid Z) (opts : night_opts)
  (out_dets def_dets : grid Z) (i j : nat) :
  run_basic_night_detection shape in_vi2_rad in_sza in_vid in_pfp opts
  = Some (Detections out_dets def_dets) ->
  (i < fst shape)%nat -> (j < snd shape)%nat ->
  out_dets i j = 1%Z -> def_dets i j = 0%Z ->
  exists p,
    In p (window3 shape i j) /\
    at_ in_pfp p = 1%Z /\
    fgt (at_ in_vid p) opts.(vid_thresh) = true /\
    fgt (at_ in_vi2_rad p) (Fin 0) = true.
Proof.
  intros Hrun Hi Hj Hout Hdef.
  destruct (night_detection_cells _ _ _ _ _ _ _ _ Hrun)
    as (e & step & He & Estep & Hcells).
  destruct (Hcells i j) as (_ & Eout). clear Hcells Hrun.
  rewrite Hout, Hdef in Eout. cbn [Z.gtb Z.compare] in Eout.
  destruct (fgt (in_sza i j) (sza_thresh opts)); [|discriminate Eout].
  symmetry in Eout. rewrite Estep in Eout. clear Estep.
  assert (Hnn : forall p,
             (0 <= at_ (night_candidates in_vi2_rad in_vid in_pfp (Fin e) opts)
                       p)%Z).
  { intro p. unfold at_. rewrite night_candidates_cell.
    destruct (_ && _)%bool; lia. }
  destruct (window_step_member shape in_vid _ i j Hi Hj Hnn Eout)
    as (p & Hp & Hpos).
  exists p. split; [exact Hp|].
    exact (night_candidate_pixel _ _ _ e opts p He Hpos).
Qed.

Lemma window_count_zero (shape : nat * nat) (cand : grid Z) (i j : nat) :
  (forall p, In p (window3 shape i j) -> at_ cand p = 0%Z) ->
  window_count shape cand i j = 0%Z.
Proof.
  intro H. unfold window_count. apply fold_add_zero.
  intros c Hc. apply in_map_iff in Hc. destruct Hc as (p & <- & Hp).
  apply H, Hp.
Qed.

(** X14.  Where the 3x3 window (borders reflected) of a pixel holds no
    potential fire pixel, the night detection is the definite detection:
    [out_dets] and [def_dets] agree at that pixel. *)
Theorem night_detection_without_pfp (shape : nat * nat)
  (in_vi2_rad in_sza in_vid : grid fl) (in_pfp : grid Z) (opts : night_opts)
  (out_dets def_dets : grid Z) (i j : nat) :
  run_basic_night_detection shape in_vi2_rad in_sza in_vid in_pfp opts
  = Some (Detections out_dets def_dets) ->
  (i < fst shape)%nat -> (j < snd shape)%nat ->
  (forall p, In p (window3 shape i j) -> at_ in_pfp p <> 1%Z) ->
  out_dets i j = def_dets i j.
Proof.
  intros Hrun Hi Hj Hpfp.
  destruct (night_detection_cells _ _ _ _ _ _ _ _ Hrun)
    as (e & step & _ & Estep & Hcells).
  destruct (Hcells i j) as (Hdef & Hout). clear Hcells Hrun.
  assert (Hcand : forall p, In p (window3 shape i j) ->
            at_ (night_candidates in_vi2_rad in_vid in_pfp (Fin e) opts) p
            = 0%Z).
  { intros p Hp. unfold at_. rewrite night_candidates_cell.
    specialize (Hpfp p Hp). unfold at_ in Hpfp.
    apply Z.eqb_neq in Hpfp. rewrite Hpfp. reflexivity. }
  assert (Hstep : step i j = 0%Z).
  { rewrite Estep, night_window_step_cell.
    rewrite (window_count_zero _ _ _ _ Hcand). cbn [Z.eqb].
    exact (Hcand (i, j) (centre_in_window shape i j Hi Hj)). }
  rewrite Hout, Hstep, Hdef.
  destruct (fgt (in_sza i j) (sza_thresh opts)); [|reflexivity].
  destruct (fgt (in_vid i j) (def_fire_rad_vid opts)); [|reflexivity].
  destruct (fgt (in_vi2_rad i j) (def_fire_rad_vis opts)); reflexivity.
Qed.

(** The two-pixel night scene: the bright pixel is a detection, not a
    definite one (its vis-diff value is below 0.5). *)
Lemma night_detection_masks_witness :
  pair_run = Some (Detections (out_dets_of pair_run) (def_dets_of pair_run)) /\
  (def_dets_of pair_run 0%nat 0%nat = 1%Z <->
   fgt (pair_vi2 0%nat 0%nat) default_night_opts.(def_fire_rad_vis) = true /\
   fgt (pair_vid 0%nat 0%nat) default_night_opts.(def_fire_rad_vid) = true /\
   fgt (night_sza 0%nat 0%nat) default_night_opts.(sza_thresh) = true) /\
  (def_dets_of pair_run 0%nat 0%nat = 0%Z \/
   def_dets_of pair_run 0%nat 0%nat = 1%Z) /\
  (out_dets_of pair_run 0%nat 0%nat = 0%Z \/
   out_dets_of pair_run 0%nat 0%nat = 1%Z) /\
  (def_dets_of pair_run 0%nat 0%nat = 1%Z ->
   out_dets_of pair_run 0%nat 0%nat = 1%Z) /\
  (fgt (night_sza 0%nat 0%nat) default_night_opts.(sza_thresh) = false ->
   out_dets_of pair_run 0%nat 0%nat = 0%Z).
Proof.
  assert (Hrun : pair_run
                 = Some (Detections (out_dets_of pair_run)
                                    (def_dets_of pair_run))).
  { reflexivity. }
  split; [exact Hrun|].
  exact (night_detection_masks pair_shape pair_vi2 night_sza pair_vid night_pfp
           default_night_opts (out_dets_of pair_run) (def_dets_of pair_run)
           0%nat 0%nat Hrun).
Defined.

Lemma night_detection_has_candidate_witness :
  (pair_run = Some (Detections (out_dets_of pair_run) (def_dets_of pair_run)) /\
   ((0 < fst pair_shape)%nat /\ (0 < snd pair_shape)%nat) /\
   out_dets_of pair_run 0%nat 0%nat = 1%Z /\
   def_dets_of pair_run 0%nat 0%nat = 0%Z) /\
  exists p,
    In p (window3 pair_shape 0 0) /\
    at_ night_pfp p = 1%Z /\
    fgt (at_ pair_vid p) default_night_opts.(vid_thresh) = true /\
    fgt (at_ pair_vi2 p) (Fin 0) = true.
Proof.
  assert (Hrun : pair_run
                 = Some (Detections (out_dets_of pair_run)
                                    (def_dets_of pair_run))).
  { reflexivity. }
  assert (Hr : (0 < fst pair_shape)%nat) by (simpl; lia).
  assert (Hc : (0 < snd pair_shape)%nat) by (simpl; lia).
  assert (Hout : out_dets_of pair_run 0%nat 0%nat = 1%Z).
  { vm_compute. reflexivity. }
  assert (Hdef : def_dets_of pair_run 0%nat 0%nat = 0%Z).
  { vm_compute. reflexivity. }
  split; [split; [exact Hrun|split; [split; assumption|split; assumption]]|].
  exact (night_detection_has_candidate pair_shape pair_vi2 night_sza pair_vid
           night_pfp default_night_opts (out_dets_of pair_run)
           (def_dets_of pair_run) 0%nat 0%nat Hrun Hr Hc Hout Hdef).
Defined.

(** The two-pixel night scene without potential fire pixels. *)
Lemma night_detection_without_pfp_witness :
  (pair_run_no_pfp
   = Some (Detections (out_dets_of pair_run_no_pfp)
                      (def_dets_of pair_run_no_pfp)) /\
   ((0 < fst pair_shape)%nat /\ (0 < snd pair_shape)%nat)) /\
  out_dets_of pair_run_no_pfp 0%nat 0%nat
  = def_dets_of pair_run_no_pfp 0%nat 0%nat.
Proof.
  assert (Hrun : pair_run_no_pfp
                 = Some (Detections (out_dets_of pair_run_no_pfp)
                                    (def_dets_of pair_run_no_pfp))).
  { reflexivity. }
  assert (Hr : (0 < fst pair_shape)%nat) by (simpl; lia).
  assert (Hc : (0 < snd pair_shape)%nat) by (simpl; lia).
  split; [split; [exact Hrun|split; assumption]|].
  refine (night_detection_without_pfp pair_shape pair_vi2 night_sza pair_vid
            (full 0%Z) default_night_opts (out_dets_of pair_run_no_pfp)
            (def_dets_of pair_run_no_pfp) 0%nat 0%nat Hrun Hr Hc _).
  intros p _. discriminate.
Defined.

(* ------------------------------------------------------------------ *)
(** ** The sign of the fire radiative power *)

(** X15.  On a detected pixel with a positive background mean, positive
    pixel area and positive constants, the FRP of [calc_frp] has the sign
    of the excess of the MIR brightness temperature over its background
    mean: positive above the mean, zero at the mean, negative below. *)
Theorem calc_frp_sign (PYFc : PYF_Consts) (dd : data_dict)
  (s a area mir mea : Q) (i j : nat) :
  PYFc.(sigma) = Fin s ->
  dict_get PYFc.(rad_to_bt_dict) dd.(platform_name) = Some (Fin a) ->
  dd.(pix_area) i j = Fin area ->
  dd.(MIR__BT) i j = Fin mir ->
  dd.(mean_mir) i j = Fin mea ->
  fgt (dd.(fire_dets) i j) (Fin 0) = true ->
  0 < s -> 0 < a -> 0 < area -> 0 < mea ->
  exists frp v,
    calc_frp PYFc dd = Some frp /\ frp i j = Fin v /\
    (0 < v <-> mea < mir) /\ (v == 0 <-> mir == mea) /\ (v < 0 <-> mir < mea).
Proof.
  intros Hs Ha Harea Hmir Hmea Hdet Ps Pa Parea Pmea.
  unfold calc_frp. rewrite Ha.
  eexists. exists (area * s / a * (mir + - mea)). split; [reflexivity|].
  split.
  - unfold where_, map2, lit, full.
    rewrite Hdet, Hs, Harea, Hmir, Hmea.
    assert (Hpos : fgt (Fin mea) (Fin 0) = true) by (apply flt_Fin, Pmea).
    rewrite Hpos. unfold fsub. cbn [fmul fneg fadd].
    rewrite fdiv_Fin by (intro E; rewrite E in Pa; discriminate Pa).
    reflexivity.
  - assert (Hk : 0 < area * s / a).
    { apply Qlt_shift_div_l; [exact Pa|]. rewrite Qmult_0_l.
      apply Qmult_lt_0_compat; assumption. }
    set (k := area * s / a) in *.
    split; [|split]; split; intro H.
    + Lqa.nra.
    + Lqa.nra.
    + assert (E : mir + - mea == 0).
      { destruct (Qmult_integral _ _ H) as [E | E]; [|exact E].
        rewrite E in Hk. discriminate Hk. }
      qlra.
    + rewrite H. ring.
    + Lqa.nra.
    + Lqa.nra.
Qed.

Lemma calc_frp_sign_witness :
  (example_consts.(sigma) = Fin (5670373 # 100000000000000) /\
   dict_get example_consts.(rad_to_bt_dict) example_dd.(platform_name)
   = Some (Fin (3 # 1000000000)) /\
   example_dd.(pix_area) 2%nat 2%nat = Fin 4 /\
   example_dd.(MIR__BT) 2%nat 2%nat = Fin 340 /\
   example_dd.(mean_mir) 2%nat 2%nat = Fin 300 /\
   fgt (example_dd.(fire_dets) 2%nat 2%nat) (Fin 0) = true) /\
  exists frp v,
    calc_frp example_consts example_dd = Some frp /\ frp 2%nat 2%nat = Fin v /\
    (0 < v <-> 300 < 340) /\ (v == 0 <-> 340 == 300) /\ (v < 0 <-> 340 < 300).
Proof.
  assert (Hdet : fgt (example_dd.(fire_dets) 2%nat 2%nat) (Fin 0) = true).
  { vm_compute. reflexivity. }
  split.
  { split; [reflexivity|]. split; [reflexivity|]. split; [reflexivity|].
    split; [reflexivity|]. split; [reflexivity|exact Hdet]. }
  exact (calc_frp_sign example_consts example_dd
           (5670373 # 100000000000000) (3 # 1000000000) 4 340 300 2%nat 2%nat
           eq_refl eq_refl eq_refl eq_refl eq_refl Hdet
           eq_refl eq_refl eq_refl eq_refl).
Defined.

(* ------------------------------------------------------------------ *)
(** ** Stage 5 confidence: limits, contamination, monotonicity *)

Lemma conf_c45_bounds (cnt nwin : Q) : 0 <= conf_c4 cnt nwin <= 1.
Proof.
  unfold conf_c4.
  pose proof (clipped_ramp_bounds (cnt / (nwin / 2)) 0 1) as [? ?].
  split; qlra.
Qed.

Lemma conf_product_bounds (c1 c2 c3 c4 c5 : Q) :
  0 <= c1 <= 1 -> 0 <= c2 <= 1 -> 0 <= c3 <= 1 -> 0 <= c4 <= 1 ->
  0 <= c5 <= 1 -> 0 <= c1 * c2 * c3 * c4 * c5 <= 1.
Proof. intros. repeat apply unit_mult; assumption. Qed.

Section Stage5Value.

Variables btd mea_btd std_btd bt_mir mea_mir std_mir sza nwin ncld nwat : grid Q.
Variables i j : nat.

(** The confidence at a pixel with finite inputs and valid window
    statistics. *)
Lemma do_stage5_valid :
  ~ std_btd i j == 0 -> ~ std_mir i j == 0 -> ~ nwin i j == 0 ->
  do_stage5 (map1 Fin btd) (map1 Fin mea_btd) (map1 Fin std_btd)
            (map1 Fin bt_mir) (map1 Fin mea_mir) (map1 Fin std_mir)
            (map1 Fin sza) (map1 Fin nwin) (map1 Fin ncld)
            (map1 Fin nwat) i j
  = RFin (root5 (conf_c1 (bt_mir i j) (sza i j)
                 * conf_c2 (bt_mir i j) (mea_mir i j) (std_mir i j)
                 * conf_c3 (btd i j) (mea_btd i j) (std_btd i j) (sza i j)
                 * conf_c4 (ncld i j) (nwin i j)
                 * conf_c5 (nwat i j) (nwin i j))).
Proof.
  intros Hsb Hsm Hn.
  destruct (stage5_product_finite btd mea_btd std_btd bt_mir mea_mir std_mir
              sza nwin ncld nwat i j Hsb Hsm Hn) as (p & Hp & Ep).
  unfold do_stage5, map1 at 1. rewrite Hp. unfold np_power_fifth.
  assert (Hpos : Qlt_bool p 0 = false).
  { apply Qlt_bool_false_iff. rewrite Ep.
    apply conf_product_bounds;
      try apply clipped_ramp_bounds; apply conf_c45_bounds. }
  rewrite Hpos, (root5_proper p _ Ep). reflexivity.
Qed.

End Stage5Value.

Lemma conf_c1_night (x s : Q) :
  60 <= s -> conf_c1 x s == clipped_ramp x 280 310.
Proof.
  intro H. unfold conf_c1, sza_clip. apply clipped_ramp_wd; [reflexivity| |];
    rewrite (Q.min_r _ _ H); reflexivity.
Qed.

Lemma conf_c3_night (b m sd s : Q) :
  60 <= s -> conf_c3 b m sd s == clipped_ramp ((b - m) / sd) (3 # 2) 5.
Proof.
  intro H. unfold conf_c3, sza_clip. apply clipped_ramp_wd; [reflexivity| |];
    rewrite (Q.min_r _ _ H); reflexivity.
Qed.

Lemma conf_c1_noon (x s : Q) :
  s == 0 -> conf_c1 x s == clipped_ramp x 287 327.
Proof.
  intro H. unfold conf_c1, sza_clip. apply clipped_ramp_wd; [reflexivity| |];
    rewrite H; reflexivity.
Qed.

Lemma conf_c3_noon (b m sd s : Q) :
  s == 0 -> conf_c3 b m sd s == clipped_ramp ((b - m) / sd) 2 6.
Proof.
  intro H. unfold conf_c3, sza_clip. apply clipped_ramp_wd; [reflexivity| |];
    rewrite H; reflexivity.
Qed.

(** X16.  The limits of the confidence ramps at the two ends of the day:
    at every pixel with a solar zenith angle of 60 degrees or more the MIR
    ramp runs from 280 K to 310 K and the BTD z-score ramp from 1.5 to 5,
    whatever the angle; with the sun at the zenith they run from 287 K to
    327 K and from 2 to 6. *)
Theorem do_stage5_day_night_limits
  (btd mea_btd std_btd bt_mir mea_mir std_mir sza nwin ncld nwat : grid Q)
  (i j : nat) :
  ~ std_btd i j == 0 -> ~ std_mir i j == 0 -> ~ nwin i j == 0 ->
  let out :=
    do_stage5 (map1 Fin btd) (map1 Fin mea_btd) (map1 Fin std_btd)
              (map1 Fin bt_mir) (map1 Fin mea_mir) (map1 Fin std_mir)
              (map1 Fin sza) (map1 Fin nwin) (map1 Fin ncld)
              (map1 Fin nwat) i j in
  let z3 := (btd i j - mea_btd i j) / std_btd i j in
  let rest := fun c1 c3 =>
    RFin (root5 (c1 * conf_c2 (bt_mir i j) (mea_mir i j) (std_mir i j) * c3
                 * conf_c4 (ncld i j) (nwin i j)
                 * conf_c5 (nwat i j) (nwin i j))) in
  (60 <= sza i j ->
   out = rest (clipped_ramp (bt_mir i j) 280 310) (clipped_ramp z3 (3 # 2) 5)) /\
  (sza i j == 0 ->
   out = rest (clipped_ramp (bt_mir i j) 287 327) (clipped_ramp z3 2 6)).
Proof.
  intros Hsb Hsm Hn out z3 rest. unfold out, rest.
  rewrite (do_stage5_valid _ _ _ _ _ _ _ _ _ _ i j Hsb Hsm Hn).
  split; intro Hs; f_equal; apply root5_proper.
  - rewrite (conf_c1_night _ _ Hs), (conf_c3_night _ _ _ _ Hs). reflexivity.
  - rewrite (conf_c1_noon _ _ Hs), (conf_c3_noon _ _ _ _ Hs). reflexivity.
Qed.

Lemma clipped_ramp_saturated (x : Q) : 1 <= x -> clipped_ramp x 0 1 == 1.
Proof.
  intro H. unfold clipped_ramp.
  assert (H1 : 1 <= (x - 0) / (1 - 0)).
  { setoid_replace ((x - 0) / (1 - 0)) with x by field. exact H. }
  rewrite (Q.min_l _ _ H1). apply Q.max_r. discriminate.
Qed.

Lemma half_window_ratio (cnt nwin : Q) :
  0 < nwin -> nwin / 2 <= cnt -> 1 <= cnt / (nwin / 2).
Proof.
  intros Hn H. apply Qle_shift_div_l.
  - apply Qlt_shift_div_l; [reflexivity|]. rewrite Qmult_0_l. exact Hn.
  - rewrite Qmult_1_l. exact H.
Qed.

(** X17.  A pixel whose window statistics are valid and whose window holds
    at least half as many cloud pixels, or water pixels, as background
    pixels gets the confidence 0, whatever its temperatures. *)
Theorem do_stage5_contaminated
  (btd mea_btd std_btd bt_mir mea_mir std_mir sza nwin ncld nwat : grid Q)
  (i j : nat) :
  ~ std_btd i j == 0 -> ~ std_mir i j == 0 -> 0 < nwin i j ->
  nwin i j / 2 <= ncld i j \/ nwin i j / 2 <= nwat i j ->
  do_stage5 (map1 Fin btd) (map1 Fin mea_btd) (map1 Fin std_btd)
            (map1 Fin bt_mir) (map1 Fin mea_mir) (map1 Fin std_mir)
            (map1 Fin sza) (map1 Fin nwin) (map1 Fin ncld)
            (map1 Fin nwat) i j
  = RFin 0%R.
Proof.
  intros Hsb Hsm Hn Hc.
  assert (Hn0 : ~ nwin i j == 0).
  { intro E. rewrite E in Hn. discriminate Hn. }
  rewrite (do_stage5_valid _ _ _ _ _ _ _ _ _ _ i j Hsb Hsm Hn0).
  f_equal. apply root5_zero.
  destruct Hc as [Hc | Hc].
  - assert (E : conf_c4 (ncld i j) (nwin i j) == 0).
    { unfold conf_c4.
      rewrite (clipped_ramp_saturated _ (half_window_ratio _ _ Hn Hc)).
      reflexivity. }
    rewrite E. ring.
  - assert (E : conf_c5 (nwat i j) (nwin i j) == 0).
    { unfold conf_c5.
      rewrite (clipped_ramp_saturated _ (half_window_ratio _ _ Hn Hc)).
      reflexivity. }
    rewrite E. ring.
Qed.

Lemma clipped_ramp_monotone (x y a b : Q) :
  a < b -> x <= y -> clipped_ramp x a b <= clipped_ramp y a b.
Proof.
  intros Hab Hxy. unfold clipped_ramp.
  apply Q.max_le_compat_l, Q.min_le_compat_l.
  assert (Hd : 0 < b - a) by qlra.
  apply Qle_shift_div_l; [exact Hd|].
  setoid_replace ((x - a) / (b - a) * (b - a)) with (x - a)
    by (field; qlra).
  qlra.
Qed.

Lemma conf_c1_monotone (x y s : Q) : x <= y -> conf_c1 x s <= conf_c1 y s.
Proof.
  intro H. unfold conf_c1. apply clipped_ramp_monotone; [|exact H].
  assert (Ht : sza_clip s <= 60) by apply Q.le_min_r.
  setoid_replace ((280 - 287) / 60) with (- (7 # 60)) by reflexivity.
  setoid_replace ((310 - 327) / 60) with (- (17 # 60)) by reflexivity.
  qlra.
Qed.

Lemma conf_c2_monotone (x y m sd : Q) :
  0 < sd -> x <= y -> conf_c2 x m sd <= conf_c2 y m sd.
Proof.
  intros Hsd H. unfold conf_c2. apply clipped_ramp_monotone; [reflexivity|].
  apply Qle_shift_div_l; [exact Hsd|].
  setoid_replace ((x - m) / sd * sd) with (x - m)
    by (field; intro E; rewrite E in Hsd; discriminate Hsd).
  qlra.
Qed.

Lemma root5_monotone (p q : Q) : 0 <= p -> p <= q -> (root5 p <= root5 q)%R.
Proof.
  intros H0 Hpq. unfold root5.
  destruct (Qeq_bool p 0) eqn:Ep.
  - destruct (Qeq_bool q 0); [rlra|]. left. apply exp_pos.
  - assert (Hp : 0 < p).
    { apply Qle_lteq in H0. destruct H0 as [H | H]; [exact H|].
      symmetry in H. apply Qeq_bool_iff in H. congruence. }
    assert (Hq : Qeq_bool q 0 = false).
    { apply Qeq_bool_false. intro E. rewrite E in Hpq.
      apply (Qlt_not_le _ _ Hp Hpq). }
    rewrite Hq. apply Rle_Rpower_l; [rlra|]. split.
    + rewrite <- RMicromega.Q2R_0. apply Qlt_Rlt, Hp.
    + apply Qle_Rle, Hpq.
Qed.

Lemma product_monotone (a a' b b' c : Q) :
  0 <= a -> a <= a' -> 0 <= b -> b <= b' -> 0 <= c ->
  a * b * c <= a' * b' * c.
Proof.
  intros Ha Haa Hb Hbb Hc.
  apply Qmult_le_compat_r; [|exact Hc].
  apply Qle_trans with (a' * b).
  - apply Qmult_le_compat_r; assumption.
  - rewrite !(Qmult_comm a'). apply Qmult_le_compat_r; [exact Hbb|].
    apply Qle_trans with a; assumption.
Qed.

(** X18.  With valid window statistics the confidence never falls when the
    MIR brightness temperature of the pixel rises and everything else is
    kept: of two runs that differ in [bt_mir] only, the one with the hotter
    pixel gives the confidence that is at least as large. *)
Theorem do_stage5_monotone_mir
  (btd mea_btd std_btd bt_mir bt_mir' mea_mir std_mir sza nwin ncld nwat : grid Q)
  (i j : nat) :
  ~ std_btd i j == 0 -> 0 < std_mir i j -> ~ nwin i j == 0 ->
  bt_mir i j <= bt_mir' i j ->
  exists c c',
    do_stage5 (map1 Fin btd) (map1 Fin mea_btd) (map1 Fin std_btd)
              (map1 Fin bt_mir) (map1 Fin mea_mir) (map1 Fin std_mir)
              (map1 Fin sza) (map1 Fin nwin) (map1 Fin ncld)
              (map1 Fin nwat) i j = RFin c /\
    do_stage5 (map1 Fin btd) (map1 Fin mea_btd) (map1 Fin std_btd)
              (map1 Fin bt_mir') (map1 Fin mea_mir) (map1 Fin std_mir)
              (map1 Fin sza) (map1 Fin nwin) (map1 Fin ncld)
              (map1 Fin nwat) i j = RFin c' /\
    (c <= c')%R.
Proof.
  intros Hsb Hsm Hn Hle.
  assert (Hsm0 : ~ std_mir i j == 0).
  { intro E. rewrite E in Hsm. discriminate Hsm. }
  eexists. eexists.
  split; [apply (do_stage5_valid _ _ _ _ _ _ _ _ _ _ i j Hsb Hsm0 Hn)|].
  split; [apply (do_stage5_valid _ _ _ _ _ _ _ _ _ _ i j Hsb Hsm0 Hn)|].
  pose proof (clipped_ramp_bounds (bt_mir i j)
                (287 + (280 - 287) / 60 * sza_clip (sza i j))
                (327 + (310 - 327) / 60 * sza_clip (sza i j))) as [B1 _].
  pose proof (clipped_ramp_bounds
                ((bt_mir i j - mea_mir i j) / std_mir i j) (9 # 10) 6)
    as [B2 _].
  pose proof (clipped_ramp_bounds
                ((btd i j - mea_btd i j) / std_btd i j)
                (2 + ((3 # 2) - 2) / 60 * sza_clip (sza i j))
                (6 + (5 - 6) / 60 * sza_clip (sza i j))) as [B3 _].
  pose proof (conf_c45_bounds (ncld i j) (nwin i j)) as [B4 _].
  pose proof (conf_c45_bounds (nwat i j) (nwin i j)) as [B5 _].
  fold (conf_c1 (bt_mir i j) (sza i j)) in B1.
  fold (conf_c2 (bt_mir i j) (mea_mir i j) (std_mir i j)) in B2.
  fold (conf_c3 (btd i j) (mea_btd i j) (std_btd i j) (sza i j)) in B3.
  apply root5_monotone.
  - repeat apply Qmult_le_0_compat; assumption.
  - apply Qmult_le_compat_r; [|exact B5].
    apply Qmult_le_compat_r; [|exact B4].
    apply product_monotone; try assumption.
    + apply conf_c1_monotone, Hle.
    + apply conf_c2_monotone; assumption.
Qed.

Lemma do_stage5_day_night_limits_witness :
  (~ (1 # 2) == 0 /\ ~ 1 == 0 /\ ~ 8 == 0) /\
  (60 <= 100 ->
   do_stage5 (map1 Fin (const_grid 20)) (map1 Fin (const_grid (1 # 2)))
             (map1 Fin (const_grid (1 # 2))) (map1 Fin (const_grid 340))
             (map1 Fin (const_grid 300)) (map1 Fin (const_grid 1))
             (map1 Fin (const_grid 100)) (map1 Fin (const_grid 8))
             (map1 Fin (const_grid 0)) (map1 Fin (const_grid 0)) 0%nat 0%nat
   = RFin (root5 (clipped_ramp 340 280 310 * conf_c2 340 300 1
                  * clipped_ramp ((20 - (1 # 2)) / (1 # 2)) (3 # 2) 5
                  * conf_c4 0 8 * conf_c5 0 8))).
Proof.
  split; [split; [discriminate|split; discriminate]|].
  apply (do_stage5_day_night_limits
           (const_grid 20) (const_grid (1 # 2)) (const_grid (1 # 2))
           (const_grid 340) (const_grid 300) (const_grid 1) (const_grid 100)
           (const_grid 8) (const_grid 0) (const_grid 0) 0%nat 0%nat);
    discriminate.
Defined.

Lemma do_stage5_contaminated_witness :
  (~ (1 # 2) == 0 /\ ~ 1 == 0 /\ 0 < 8 /\ 8 / 2 <= 5) /\
  do_stage5 (map1 Fin (const_grid 20)) (map1 Fin (const_grid (1 # 2)))
            (map1 Fin (const_grid (1 # 2))) (map1 Fin (const_grid 340))
            (map1 Fin (const_grid 300)) (map1 Fin (const_grid 1))
            (map1 Fin (const_grid 10)) (map1 Fin (const_grid 8))
            (map1 Fin (const_grid 5)) (map1 Fin (const_grid 0)) 0%nat 0%nat
  = RFin 0%R.
Proof.
  split; [split; [discriminate|split; [discriminate|split;
                                        [reflexivity|discriminate]]]|].
  apply (do_stage5_contaminated
           (const_grid 20) (const_grid (1 # 2)) (const_grid (1 # 2))
           (const_grid 340) (const_grid 300) (const_grid 1) (const_grid 10)
           (const_grid 8) (const_grid 5) (const_grid 0) 0%nat 0%nat);
    try discriminate; [reflexivity|left; discriminate].
Defined.

Lemma do_stage5_monotone_mir_witness :
  (~ (1 # 2) == 0 /\ 0 < 1 /\ ~ 8 == 0 /\ 300 <= 340) /\
  exists c c',
    do_stage5 (map1 Fin (const_grid 20)) (map1 Fin (const_grid (1 # 2)))
              (map1 Fin (const_grid (1 # 2))) (map1 Fin (const_grid 300))
              (map1 Fin (const_grid 300)) (map1 Fin (const_grid 1))
              (map1 Fin (const_grid 10)) (map1 Fin (const_grid 8))
              (map1 Fin (const_grid 0)) (map1 Fin (const_grid 0)) 0%nat 0%nat
    = RFin c /\
    do_stage5 (map1 Fin (const_grid 20)) (map1 Fin (const_grid (1 # 2)))
              (map1 Fin (const_grid (1 # 2))) (map1 Fin (const_grid 340))
              (map1 Fin (const_grid 300)) (map1 Fin (const_grid 1))
              (map1 Fin (const_grid 10)) (map1 Fin (const_grid 8))
              (map1 Fin (const_grid 0)) (map1 Fin (const_grid 0)) 0%nat 0%nat
    = RFin c' /\
    (c <= c')%R.
Proof.
  split; [split; [discriminate|split; [reflexivity|split; discriminate]]|].
  apply (do_stage5_monotone_mir
           (const_grid 20) (const_grid (1 # 2)) (const_grid (1 # 2))
           (const_grid 300) (const_grid 340) (const_grid 300) (const_grid 1)
           (const_grid 10) (const_grid 8) (const_grid 0) (const_grid 0)
           0%nat 0%nat); try discriminate; reflexivity.
Defined.

(* ------------------------------------------------------------------ *)
(** ** Stage 5 confidence: a background without spread *)

Lemma Qsgn_pos (a : Q) : 0 < a -> Qsgn a = 1%Z.
Proof.
  unfold Qlt, Qsgn. simpl. rewrite Z.mul_1_r. intro H.
  apply Z.sgn_pos, H.
Qed.

Lemma Qsgn_neg (a : Q) : a < 0 -> Qsgn a = (-1)%Z.
Proof.
  unfold Qlt, Qsgn. simpl. rewrite Z.mul_1_r. intro H.
  apply Z.sgn_neg, H.
Qed.

(** The z-score over a standard deviation of 0. *)
Lemma zscore_flat (x m sd : grid Q) (i j : nat) :
  sd i j == 0 ->
  ((map1 Fin x .- map1 Fin m) ./ map1 Fin sd)%grid i j
  = inf_of_sign (Qsgn (x i j + - m i j)).
Proof.
  intro H. unfold map2, map1, fsub. cbn [fneg fadd fdiv].
  apply Qeq_bool_iff in H. rewrite H. reflexivity.
Qed.

Lemma comp_stat_pinf (X : grid fl) (a b : Q) (i j : nat) :
  X i j = PInf -> a < b -> comp_stat X (lit a) (lit b) i j = Fin 1.
Proof.
  intros H Hab. unfold comp_stat, where_, map2, lit, full. rewrite H.
  reflexivity.
Qed.

Lemma comp_stat_ninf (X : grid fl) (a b : Q) (i j : nat) :
  X i j = NInf -> a < b -> comp_stat X (lit a) (lit b) i j = Fin 0.
Proof.
  intros H Hab. unfold comp_stat, where_, map2, lit, full. rewrite H.
  reflexivity.
Qed.

Section Stage5Flat.

Variables btd mea_btd std_btd bt_mir mea_mir std_mir sza nwin ncld nwat : grid Q.
Variables i j : nat.

Lemma c1_cell :
  exists r,
    comp_stat (map1 Fin bt_mir)
      (lit 287 .+ ((lit 280 .- lit 287) ./ lit 60)
       .* where_ (map1 Fin sza .> lit 60)%grid (lit 60) (map1 Fin sza))%grid
      (lit 327 .+ ((lit 310 .- lit 327) ./ lit 60)
       .* where_ (map1 Fin sza .> lit 60)%grid (lit 60) (map1 Fin sza))%grid
      i j = Fin r /\
    r == conf_c1 (bt_mir i j) (sza i j).
Proof.
  destruct (sza_thr_cell sza i j) as (t & Ht & Et).
  assert (Ht60 : t <= 60) by (rewrite Et; apply Q.le_min_r).
  destruct (comp_stat_finite (map1 Fin bt_mir)
              (lit 287 .+ ((lit 280 .- lit 287) ./ lit 60)
               .* where_ (map1 Fin sza .> lit 60)%grid (lit 60) (map1 Fin sza))%grid
              (lit 327 .+ ((lit 310 .- lit 327) ./ lit 60)
               .* where_ (map1 Fin sza .> lit 60)%grid (lit 60) (map1 Fin sza))%grid
              i j (bt_mir i j)
              (287 + (280 - 287) / 60 * t) (327 + (310 - 327) / 60 * t))
    as (r & Hr & Er);
    [reflexivity | apply interp_cell, Ht | apply interp_cell, Ht | |].
  { setoid_replace ((280 - 287) / 60) with (- (7 # 60)) by reflexivity.
    setoid_replace ((310 - 327) / 60) with (- (17 # 60)) by reflexivity.
    qlra. }
  exists r. split; [exact Hr|]. rewrite Er. unfold conf_c1.
  apply clipped_ramp_wd; [reflexivity| |]; rewrite Et; reflexivity.
Qed.

Lemma c3_cell :
  ~ std_btd i j == 0 ->
  exists r,
    comp_stat ((map1 Fin btd .- map1 Fin mea_btd) ./ map1 Fin std_btd)%grid
      (lit 2 .+ ((lit (3 # 2) .- lit 2) ./ lit 60)
       .* where_ (map1 Fin sza .> lit 60)%grid (lit 60) (map1 Fin sza))%grid
      (lit 6 .+ ((lit 5 .- lit 6) ./ lit 60)
       .* where_ (map1 Fin sza .> lit 60)%grid (lit 60) (map1 Fin sza))%grid
      i j = Fin r /\
    r == conf_c3 (btd i j) (mea_btd i j) (std_btd i j) (sza i j).
Proof.
  intro Hsb.
  destruct (sza_thr_cell sza i j) as (t & Ht & Et).
  assert (Ht60 : t <= 60) by (rewrite Et; apply Q.le_min_r).
  destruct (comp_stat_finite
              ((map1 Fin btd .- map1 Fin mea_btd) ./ map1 Fin std_btd)%grid
              (lit 2 .+ ((lit (3 # 2) .- lit 2) ./ lit 60)
               .* where_ (map1 Fin sza .> lit 60)%grid (lit 60) (map1 Fin sza))%grid
              (lit 6 .+ ((lit 5 .- lit 6) ./ lit 60)
               .* where_ (map1 Fin sza .> lit 60)%grid (lit 60) (map1 Fin sza))%grid
              i j ((btd i j - mea_btd i j) / std_btd i j)
              (2 + ((3 # 2) - 2) / 60 * t) (6 + (5 - 6) / 60 * t))
    as (r & Hr & Er);
    [unfold map2, map1; apply fdiv_Fin, Hsb
    | apply interp_cell, Ht | apply interp_cell, Ht | |].
  { setoid_replace (((3 # 2) - 2) / 60) with (- (1 # 120)) by reflexivity.
    setoid_replace ((5 - 6) / 60) with (- (1 # 60)) by reflexivity.
    qlra. }
  exists r. split; [exact Hr|]. rewrite Er. unfold conf_c3.
  apply clipped_ramp_wd; [reflexivity| |]; rewrite Et; reflexivity.
Qed.

(** X19.  A background without spread ([std_mir = 0]) does not make
    [do_stage5] fail: the z-score of the MIR temperature is then infinite
    and its component is 1 for a pixel hotter than its background mean, so
    that the confidence is the fifth root of the product of the other four
    components; it is 0 for a colder pixel, which gets the confidence 0;
    and for a pixel exactly at the mean the z-score is 0/0 and the
    confidence is NaN. *)
Theorem do_stage5_flat_background :
  std_mir i j == 0 -> ~ std_btd i j == 0 -> ~ nwin i j == 0 ->
  let out :=
    do_stage5 (map1 Fin btd) (map1 Fin mea_btd) (map1 Fin std_btd)
              (map1 Fin bt_mir) (map1 Fin mea_mir) (map1 Fin std_mir)
              (map1 Fin sza) (map1 Fin nwin) (map1 Fin ncld)
              (map1 Fin nwat) i j in
  (mea_mir i j < bt_mir i j ->
   out = RFin (root5 (conf_c1 (bt_mir i j) (sza i j) * 1
                      * conf_c3 (btd i j) (mea_btd i j) (std_btd i j) (sza i j)
                      * conf_c4 (ncld i j) (nwin i j)
                      * conf_c5 (nwat i j) (nwin i j)))) /\
  (bt_mir i j < mea_mir i j -> out = RFin 0%R) /\
  (bt_mir i j == mea_mir i j -> out = RNaN).
Proof.
  intros Hflat Hsb Hn out.
  destruct c1_cell as (r1 & H1 & E1).
  destruct (c3_cell Hsb) as (r3 & H3 & E3).
  destruct (count_ratio_cell nwin i j ncld Hn) as (r4 & H4 & E4).
  destruct (count_ratio_cell nwin i j nwat Hn) as (r5 & H5 & E5).
  fold (conf_c4 (ncld i j) (nwin i j)) in E4.
  fold (conf_c5 (nwat i j) (nwin i j)) in E5.
  pose proof (zscore_flat bt_mir mea_mir std_mir i j Hflat) as Hz.
  assert (B1 : 0 <= r1 <= 1) by (rewrite E1; apply clipped_ramp_bounds).
  assert (B3 : 0 <= r3 <= 1) by (rewrite E3; apply clipped_ramp_bounds).
  assert (B4 : 0 <= r4 <= 1) by (rewrite E4; apply conf_c45_bounds).
  assert (B5 : 0 <= r5 <= 1) by (rewrite E5; apply conf_c45_bounds).
  assert (Hprod : forall c2 : fl,
             comp_stat ((map1 Fin bt_mir .- map1 Fin mea_mir)
                        ./ map1 Fin std_mir)%grid
                       (lit (9 # 10)) (lit 6) i j = c2 ->
             out = np_power_fifth
                     (fmul (fmul (fmul (fmul (Fin r1) c2) (Fin r3)) (Fin r4))
                           (Fin r5))).
  { intros c2 H2. unfold out, do_stage5, map1 at 1, stage5_product. cbv zeta.
    unfold map2 at 1 2 3 4. rewrite H1, H2, H3, H4, H5. reflexivity. }
  split; [|split]; intro Hcmp.
  - rewrite (Hprod (Fin 1)).
    + cbn [fmul np_power_fifth].
      assert (Hpos : Qlt_bool (r1 * 1 * r3 * r4 * r5) 0 = false).
      { apply Qlt_bool_false_iff.
        apply conf_product_bounds; try assumption. split; discriminate. }
      rewrite Hpos. f_equal. apply root5_proper.
      rewrite E1, E3, E4, E5. reflexivity.
    + apply comp_stat_pinf; [|reflexivity].
      rewrite Hz, Qsgn_pos by qlra. reflexivity.
  - rewrite (Hprod (Fin 0)).
    + cbn [fmul np_power_fifth].
      assert (Ez : r1 * 0 * r3 * r4 * r5 == 0) by ring.
      assert (Hpos : Qlt_bool (r1 * 0 * r3 * r4 * r5) 0 = false).
      { apply Qlt_bool_false_iff. rewrite Ez. discriminate. }
      rewrite Hpos. f_equal. apply root5_zero, Ez.
    + apply comp_stat_ninf; [|reflexivity].
      rewrite Hz, Qsgn_neg by qlra. reflexivity.
  - rewrite (Hprod NaN); [reflexivity|].
    apply comp_stat_nan.
    rewrite Hz, Qsgn_zero by (rewrite Hcmp; ring). reflexivity.
Qed.

End Stage5Flat.

Lemma do_stage5_flat_background_witness :
  (0 == 0 /\ ~ (1 # 2) == 0 /\ ~ 8 == 0) /\
  (300 < 340 ->
   do_stage5 (map1 Fin (const_grid 20)) (map1 Fin (const_grid (1 # 2)))
             (map1 Fin (const_grid (1 # 2))) (map1 Fin (const_grid 340))
             (map1 Fin (const_grid 300)) (map1 Fin (const_grid 0))
             (map1 Fin (const_grid 10)) (map1 Fin (const_grid 8))
             (map1 Fin (const_grid 0)) (map1 Fin (const_grid 0)) 0%nat 0%nat
   = RFin (root5 (conf_c1 340 10 * 1 * conf_c3 20 (1 # 2) (1 # 2) 10
                  * conf_c4 0 8 * conf_c5 0 8))).
Proof.
  split; [split; [reflexivity|split; discriminate]|].
  apply (do_stage5_flat_background
           (const_grid 20) (const_grid (1 # 2)) (const_grid (1 # 2))
           (const_grid 340) (const_grid 300) (const_grid 0) (const_grid 10)
           (const_grid 8) (const_grid 0) (const_grid 0) 0%nat 0%nat);
    [reflexivity|discriminate|discriminate].
Defined.

(* ------------------------------------------------------------------ *)
(** ** The derived datasets *)

Lemma mir_rad_no_ir_finite (MIR_RAD exp_rad : grid fl) (i j : nat) :
  isfinite (mir_rad_no_ir MIR_RAD exp_rad i j) = true.
Proof.
  unfold mir_rad_no_ir, where_, map1, lit, full.
  destruct (isfinite (map2 fsub MIR_RAD exp_rad i j)) eqn:E.
  - exact E.
  - reflexivity.
Qed.

Lemma nan_unless_finite_id (band : grid fl) (i j : nat) :
  isfinite (band i j) = true -> nan_unless_finite band i j = band i j.
Proof.
  intro H. unfold nan_unless_finite, where_, map1. rewrite H. reflexivity.
Qed.

Lemma nan_unless_finite_cell (band : grid fl) (i j : nat) :
  nan_unless_finite band i j
  = if isfinite (band i j) then band i j else NaN.
Proof. reflexivity. Qed.

Section FireDatasetsFacts.

Variable calc_rad_fromtb_arr : grid fl -> fl -> grid fl.
Variable vid_adjust_sza_arr : grid fl -> grid fl -> grid fl.
Variables VI1_RAD MIR_RAD LW1_RAD MIR__BT LW1__BT : grid fl.
Variables irrad_mir irrad_vi1 wvl_mir : fl.
Variable SZA : grid fl.

Local Abbreviation vis :=
  (VI1_RAD .* full irrad_mir ./ full irrad_vi1)%grid.

(** X20.  In the datasets of [compute_fire_datasets] the MIR radiance
    without its thermal part is finite at every pixel, whatever the inputs,
    and the last cleaning loop leaves it as it was computed; VI1_DIFF is
    then finite exactly where the scaled visible radiance is finite and NaN
    elsewhere; and where the MIR radiance, or the expected thermal
    radiance, is invalid, VI1_DIFF is not invalid but minus the scaled
    visible radiance. *)
Theorem compute_fire_datasets_differences (i j : nat) :
  let ds :=
    compute_fire_datasets calc_rad_fromtb_arr vid_adjust_sza_arr
      VI1_RAD MIR_RAD LW1_RAD MIR__BT LW1__BT irrad_mir irrad_vi1 wvl_mir SZA in
  let exp_rad := calc_rad_fromtb_arr LW1__BT wvl_mir in
  (isfinite (ds.(Datasets.MIR_RAD_NO_IR) i j) = true /\
   ds.(Datasets.MIR_RAD_NO_IR) i j = mir_rad_no_ir MIR_RAD exp_rad i j) /\
  (isfinite (ds.(Datasets.VI1_DIFF) i j) = isfinite (vis i j) /\
   (isfinite (vis i j) = false -> ds.(Datasets.VI1_DIFF) i j = NaN)) /\
  (MIR_RAD i j = NaN \/ exp_rad i j = NaN ->
   forall v, vis i j = Fin v ->
             ds.(Datasets.VI1_DIFF) i j = Fin (0 + - v)).
Proof.
  intros ds exp_rad. unfold ds.
  cbn [compute_fire_datasets Datasets.MIR_RAD_NO_IR Datasets.VI1_DIFF].
  fold exp_rad.
  pose proof (mir_rad_no_ir_finite MIR_RAD exp_rad i j) as Hfin.
  split; [|split].
  - rewrite nan_unless_finite_id by exact Hfin. split; [exact Hfin|reflexivity].
  - rewrite nan_unless_finite_cell.
    change ((mir_rad_no_ir MIR_RAD exp_rad .- vis)%grid i j)
      with (fsub (mir_rad_no_ir MIR_RAD exp_rad i j) (vis i j)).
    destruct (mir_rad_no_ir MIR_RAD exp_rad i j) as [| | |m]; try discriminate.
    destruct (vis i j) as [| | |v];
      (split; [reflexivity|intro H; try discriminate H; reflexivity]).
  - intros Hinv v Hv.
    rewrite nan_unless_finite_id.
    + unfold map2 at 1. rewrite (mir_rad_no_ir_invalid _ _ _ _ Hinv), Hv.
      reflexivity.
    + unfold map2 at 1. rewrite (mir_rad_no_ir_invalid _ _ _ _ Hinv), Hv.
      reflexivity.
Qed.

(** X21.  For finite, positive brightness temperatures the index
    [mi_ndfi] is a number strictly between -1 and 1, with the sign of the
    difference MIR - LW1 (the BTD); the cleaning loop does not change it. *)
Theorem compute_fire_datasets_ndfi (i j : nat) (m l : Q) :
  MIR__BT i j = Fin m -> LW1__BT i j = Fin l -> 0 < m -> 0 < l ->
  let ds :=
    compute_fire_datasets calc_rad_fromtb_arr vid_adjust_sza_arr
      VI1_RAD MIR_RAD LW1_RAD MIR__BT LW1__BT irrad_mir irrad_vi1 wvl_mir SZA in
  exists v,
    ds.(Datasets.mi_ndfi) i j = Fin v /\
    v == (m - l) / (m + l) /\
    - (1) < v /\ v < 1 /\
    (0 < v <-> l < m) /\
    ds.(Datasets.BTD) i j = Fin (m + - l).
Proof.
  intros Hm Hl Pm Pl ds. unfold ds.
  cbn [compute_fire_datasets Datasets.mi_ndfi Datasets.BTD].
  assert (Hs : 0 < m + l) by qlra.
  assert (Hs0 : ~ m + l == 0) by (intro E; rewrite E in Hs; discriminate Hs).
  exists ((m + - l) / (m + l)).
  split; [|split; [|split; [|split; [|split]]]].
  - unfold nan_unless_finite, where_, map1, map2. rewrite Hm, Hl.
    unfold fsub. cbn [fadd fneg]. rewrite (fdiv_Fin _ _ Hs0). reflexivity.
  - reflexivity.
  - apply Qlt_shift_div_l; [exact Hs|]. qlra.
  - apply Qlt_shift_div_r; [exact Hs|]. qlra.
  - split; intro H.
    + assert (H' : 0 < (m + - l) / (m + l) * (m + l)).
      { apply Qmult_lt_0_compat; assumption. }
      setoid_replace ((m + - l) / (m + l) * (m + l)) with (m + - l) in H'
        by (field; exact Hs0).
      qlra.
    + apply Qlt_shift_div_l; [exact Hs|]. qlra.
  - unfold map2. rewrite Hm, Hl. reflexivity.
Qed.

End FireDatasetsFacts.

Lemma compute_fire_datasets_ndfi_witness :
  (lit 330 0%nat 0%nat = Fin 330 /\ lit 300 0%nat 0%nat = Fin 300 /\
   0 < 330 /\ 0 < 300) /\
  exists v,
    (compute_fire_datasets (fun t _ => t) (fun d _ => d)
       (lit 1) (lit 2) (lit 9) (lit 330) (lit 300)
       (Fin 1) (Fin 1) (Fin 4) (lit 30)).(Datasets.mi_ndfi) 0%nat 0%nat
    = Fin v /\
    v == (330 - 300) / (330 + 300) /\
    - (1) < v /\ v < 1 /\
    (0 < v <-> 300 < 330) /\
    (compute_fire_datasets (fun t _ => t) (fun d _ => d)
       (lit 1) (lit 2) (lit 9) (lit 330) (lit 300)
       (Fin 1) (Fin 1) (Fin 4) (lit 30)).(Datasets.BTD) 0%nat 0%nat
    = Fin (330 + - 300).
Proof.
  split; [split; [reflexivity|split; [reflexivity|split; reflexivity]]|].
  exact (compute_fire_datasets_ndfi (fun t _ => t) (fun d _ => d)
           (lit 1) (lit 2) (lit 9) (lit 330) (lit 300)
           (Fin 1) (Fin 1) (Fin 4) (lit 30) 0%nat 0%nat 330 300
           eq_refl eq_refl eq_refl eq_refl).
Defined.

(* ------------------------------------------------------------------ *)
(** ** Radiometric conversions *)

Lemma Rdiv_le_one (a b : R) : (0 < b -> a <= b -> a / b <= 1)%R.
Proof.
  intros Hb H. apply (Rmult_le_reg_r b); [exact Hb|].
  replace (a / b * b)%R with a by (field; rlra). rlra.
Qed.

Lemma exp_gt_1 (x : R) : (0 < x -> 1 < exp x)%R.
Proof. intro H. rewrite <- exp_0. apply exp_increasing, H. Qed.

(** X23.  In exact arithmetic [calc_tb_fromrad] inverts [calc_rad_fromtb]
    and the other way round: for a positive wavelength, a positive
    temperature is recovered from its radiance, which is positive, and a
    positive radiance from its brightness temperature. *)
Theorem calc_rad_tb_round_trip (x cwl : R) :
  (0 < x)%R -> (0 < cwl)%R ->
  (0 < calc_rad_fromtb x cwl)%R /\
  calc_tb_fromrad (calc_rad_fromtb x cwl) cwl = x /\
  calc_rad_fromtb (calc_tb_fromrad x cwl) cwl = x.
Proof.
  intros Hx Hc.
  assert (Hc5 : (0 < cwl ^ 5)%R) by (apply pow_lt, Hc).
  assert (Hc1 : (0 < 1.1910429e8)%R) by rlra.
  assert (Hc2 : (0 < 1.4387752e4)%R) by rlra.
  split; [|split].
  - unfold calc_rad_fromtb. cbv zeta.
    assert (He : (1 < exp (1.4387752e4 / (cwl * x)))%R).
    { apply exp_gt_1. apply Rdiv_lt_0_compat; [exact Hc2|].
      apply Rmult_lt_0_compat; assumption. }
    apply Rdiv_lt_0_compat; [exact Hc1|].
    apply Rmult_lt_0_compat; [exact Hc5|rlra].
  - unfold calc_tb_fromrad, calc_rad_fromtb. cbv zeta.
    set (u := (1.4387752e4 / (cwl * x))%R).
    assert (Hu : (0 < u)%R).
    { apply Rdiv_lt_0_compat; [exact Hc2|].
      apply Rmult_lt_0_compat; assumption. }
    assert (He : (1 < exp u)%R) by (apply exp_gt_1, Hu).
    replace (1.1910429e8 / (1.1910429e8 / (cwl ^ 5 * (exp u - 1)) * cwl ^ 5)
             + 1)%R with (exp u) by (field; split; rlra).
    rewrite ln_exp. unfold u. field. split; rlra.
  - unfold calc_tb_fromrad, calc_rad_fromtb. cbv zeta.
    set (v := (1.1910429e8 / (x * cwl ^ 5) + 1)%R).
    assert (Hq : (0 < 1.1910429e8 / (x * cwl ^ 5))%R).
    { apply Rdiv_lt_0_compat; [exact Hc1|].
      apply Rmult_lt_0_compat; assumption. }
    assert (Hv : (1 < v)%R) by (unfold v; rlra).
    assert (Hl : (0 < ln v)%R).
    { rewrite <- ln_1. apply ln_increasing; rlra. }
    replace (1.4387752e4 / (cwl * (1.4387752e4 / (cwl * ln v))))%R
      with (ln v) by (field; split; rlra).
    rewrite exp_ln by rlra. unfold v. field. split; rlra.
Qed.

Lemma calc_rad_tb_round_trip_witness :
  ((0 < 300)%R /\ (0 < 3.9)%R) /\
  (0 < calc_rad_fromtb 300 3.9)%R /\
  calc_tb_fromrad (calc_rad_fromtb 300 3.9) 3.9 = 300%R /\
  calc_rad_fromtb (calc_tb_fromrad 300 3.9) 3.9 = 300%R.
Proof.
  assert (H1 : (0 < 300)%R) by rlra.
  assert (H2 : (0 < 3.9)%R) by rlra.
  split; [split; assumption|].
  exact (calc_rad_tb_round_trip 300 3.9 H1 H2).
Defined.

Lemma Rpower_ge_1 (u r : R) : (1 <= u -> 0 <= r -> 1 <= Rpower u r)%R.
Proof.
  intros Hu Hr. unfold Rpower.
  rewrite <- exp_0. destruct (Rle_lt_or_eq_dec _ _ Hr) as [Hr' | <-].
  - destruct (Rle_lt_or_eq_dec _ _ Hu) as [Hu' | <-].
    + left. apply exp_increasing. apply Rmult_lt_0_compat; [exact Hr'|].
      rewrite <- ln_1. apply ln_increasing; rlra.
    + rewrite ln_1, Rmult_0_r. right. reflexivity.
  - rewrite Rmult_0_l. right. reflexivity.
Qed.

(** X25.  The adjustment [vid_adjust_sza] subtracts lies between [min_v]
    and [max_v]: for [min_v <= max_v] and a non-negative rise the adjusted
    value is between [in_vid - max_v] and [in_vid - min_v]; and for a
    non-negative slope strength it never grows with the solar zenith
    angle. *)
Theorem vid_adjust_sza_bounds
  (in_vid sza sza' sza_adj min_v max_v slo_str slo_rise : R) :
  (min_v <= max_v)%R -> (0 <= slo_rise)%R ->
  let adj := vid_adjust_sza in_vid sza sza_adj min_v max_v slo_str slo_rise in
  let adj' := vid_adjust_sza in_vid sza' sza_adj min_v max_v slo_str slo_rise in
  (in_vid - max_v <= adj <= in_vid - min_v)%R /\
  ((0 <= slo_str)%R -> (sza <= sza')%R -> (adj' <= adj)%R).
Proof.
  intros Hv Hr adj adj'. unfold adj, adj', vid_adjust_sza. cbv zeta.
  assert (Hpow : forall s,
             (1 <= Rpower (1 + exp (- slo_str * (s - sza_adj))) slo_rise)%R).
  { intro s. apply Rpower_ge_1; [|exact Hr].
    pose proof (exp_pos (- slo_str * (s - sza_adj))). rlra. }
  assert (Hfrac : forall s,
             (0 < 1 / Rpower (1 + exp (- slo_str * (s - sza_adj))) slo_rise
              <= 1)%R).
  { intro s. specialize (Hpow s). split.
    - apply Rdiv_lt_0_compat; rlra.
    - apply Rdiv_le_one; rlra. }
  split.
  - destruct (Hfrac sza) as [H0 H1].
    set (f := (1 / Rpower (1 + exp (- slo_str * (sza - sza_adj))) slo_rise)%R)
      in *.
    assert ((max_v - min_v) * f <= (max_v - min_v) * 1)%R.
    { apply Rmult_le_compat_l; rlra. }
    assert (0 <= (max_v - min_v) * f)%R.
    { apply Rmult_le_pos; rlra. }
    split; rlra.
  - intros Hs Hle.
    assert (Hexp : (exp (- slo_str * (sza' - sza_adj))
                    <= exp (- slo_str * (sza - sza_adj)))%R).
    { destruct (Rle_lt_or_eq_dec _ _ Hle) as [Hlt | ->]; [|right; reflexivity].
      destruct (Rle_lt_or_eq_dec _ _ Hs) as [Hs' | <-].
      - left. apply exp_increasing.
        assert (slo_str * (sza - sza_adj) < slo_str * (sza' - sza_adj))%R.
        { apply Rmult_lt_compat_l; rlra. }
        rlra.
      - right. f_equal. ring. }
    assert (Hp : (Rpower (1 + exp (- slo_str * (sza' - sza_adj))) slo_rise
                  <= Rpower (1 + exp (- slo_str * (sza - sza_adj))) slo_rise)%R).
    { apply Rle_Rpower_l; [exact Hr|].
      pose proof (exp_pos (- slo_str * (sza' - sza_adj))). split; rlra. }
    pose proof (Hpow sza) as P1. pose proof (Hpow sza') as P2.
    assert (Hinv : (1 / Rpower (1 + exp (- slo_str * (sza - sza_adj))) slo_rise
                    <= 1 / Rpower (1 + exp (- slo_str * (sza' - sza_adj)))
                             slo_rise)%R).
    { unfold Rdiv. rewrite !Rmult_1_l. apply Rinv_le_contravar; rlra. }
    assert ((max_v - min_v)
            * (1 / Rpower (1 + exp (- slo_str * (sza - sza_adj))) slo_rise)
            <= (max_v - min_v)
               * (1 / Rpower (1 + exp (- slo_str * (sza' - sza_adj))) slo_rise))%R.
    { apply Rmult_le_compat_l; rlra. }
    rlra.
Qed.

Lemma vid_adjust_sza_bounds_witness :
  ((0.04 <= 0.115)%R /\ (0 <= 0.2)%R) /\
  let adj := vid_adjust_sza 1 30 82 0.04 0.115 1.8 0.2 in
  let adj' := vid_adjust_sza 1 100 82 0.04 0.115 1.8 0.2 in
  (1 - 0.115 <= adj <= 1 - 0.04)%R /\
  ((0 <= 1.8)%R -> (30 <= 100)%R -> (adj' <= adj)%R).
Proof.
  assert (H1 : (0.04 <= 0.115)%R) by rlra.
  assert (H2 : (0 <= 0.2)%R) by rlra.
  split; [split; assumption|].
  exact (vid_adjust_sza_bounds 1 30 100 82 0.04 0.115 1.8 0.2 H1 H2).
Defined.

(* ------------------------------------------------------------------ *)
(** ** The diffusion step *)

Lemma diffusion_term_nonneg (v : R) : (0 <= Rabs v * exp (- (Rabs v ^ 2)))%R.
Proof.
  apply Rmult_le_pos; [apply Rabs_pos|left; apply exp_pos].
Qed.

Lemma zero_term : (0 * exp (- (0 ^ 2)) = 0)%R.
Proof. ring. Qed.

(** No pixel is lowered. *)
Lemma py_aniso_step_nonneg (shape : nat * nat) (in_img : grid R)
  (niter : nat) (kappa gamma : R) (r c : nat) :
  (0 <= gamma)%R ->
  (in_img r c <= py_aniso shape in_img niter kappa gamma r c)%R.
Proof.
  intro Hg. unfold py_aniso. cbv zeta.
  assert (H : forall (b : bool) (v : R),
             (0 <= (if b then Rabs v else 0)
                   * exp (- ((if b then Rabs v else 0) ^ 2)))%R).
  { intros [|] v; [apply diffusion_term_nonneg|rewrite zero_term; rlra]. }
  pose proof (H ((1 <=? r) && (r + 1 <? fst shape))%nat
                (in_img (r + 1)%nat c - in_img r c)%R) as H1.
  pose proof (H ((1 <=? r) && (r + 1 <? fst shape))%nat
                (in_img (r - 1)%nat c - in_img r c)%R) as H2.
  pose proof (H ((1 <=? c) && (c + 1 <? snd shape))%nat
                (in_img r (c + 1)%nat - in_img r c)%R) as H3.
  pose proof (H ((1 <=? c) && (c + 1 <? snd shape))%nat
                (in_img r (c - 1)%nat - in_img r c)%R) as H4.
  match goal with
  | |- (_ <= _ + gamma * ?s)%R =>
      assert (0 <= gamma * s)%R by (apply Rmult_le_pos; rlra)
  end.
  rlra.
Qed.

(** X26.  [py_aniso] only ever adds to the image: for a non-negative step
    [gamma] no pixel of the result is below the input pixel; the pixels of
    the four corners, and every pixel of a uniform image, are returned
    unchanged; and the result does not depend on [niter] and [kappa], which
    the function never reads. *)
Theorem py_aniso_never_lowers (shape : nat * nat) (in_img : grid R)
  (niter niter' : nat) (kappa kappa' gamma : R) (r c : nat) :
  (0 <= gamma)%R ->
  let out := py_aniso shape in_img niter kappa gamma in
  (in_img r c <= out r c)%R /\
  ((r = 0%nat \/ fst shape <= r + 1)%nat ->
   (c = 0%nat \/ snd shape <= c + 1)%nat -> out r c = in_img r c) /\
  ((forall r' c', in_img r' c' = in_img r c) -> out r c = in_img r c) /\
  out r c = py_aniso shape in_img niter' kappa' gamma r c.
Proof.
  intros Hg out. unfold out.
  split; [apply py_aniso_step_nonneg, Hg|].
  unfold py_aniso. cbv zeta.
  split; [|split].
  - intros Hr Hc.
    assert (Er : ((1 <=? r) && (r + 1 <? fst shape))%nat = false).
    { destruct Hr as [-> | Hr]; [reflexivity|].
      apply andb_false_iff. right. apply Nat.ltb_ge. lia. }
    assert (Ec : ((1 <=? c) && (c + 1 <? snd shape))%nat = false).
    { destruct Hc as [-> | Hc]; [reflexivity|].
      apply andb_false_iff. right. apply Nat.ltb_ge. lia. }
    rewrite Er, Ec. ring.
  - intro Hu.
    rewrite (Hu (r + 1)%nat c), (Hu (r - 1)%nat c), (Hu r (c + 1)%nat),
      (Hu r (c - 1)%nat).
    replace (in_img r c - in_img r c)%R with 0%R by ring.
    rewrite Rabs_R0.
    destruct ((1 <=? r) && (r + 1 <? fst shape))%nat,
             ((1 <=? c) && (c + 1 <? snd shape))%nat; ring.
  - reflexivity.
Qed.

Lemma py_aniso_never_lowers_witness :
  (0 <= 0.2)%R /\
  let img : grid R := fun r c => INR (r * c) in
  let out := py_aniso (3, 3)%nat img 5 20 0.2 in
  (img 1%nat 1%nat <= out 1%nat 1%nat)%R /\
  ((1 = 0 \/ fst (3, 3) <= 1 + 1)%nat ->
   (1 = 0 \/ snd (3, 3) <= 1 + 1)%nat -> out 1%nat 1%nat = img 1%nat 1%nat) /\
  ((forall r' c', img r' c' = img 1%nat 1%nat) ->
   out 1%nat 1%nat = img 1%nat 1%nat) /\
  out 1%nat 1%nat = py_aniso (3, 3)%nat img 1 1 0.2 1%nat 1%nat.
Proof.
  assert (H : (0 <= 0.2)%R) by rlra.
  split; [exact H|].
  exact (py_aniso_never_lowers (3, 3)%nat (fun r c => INR (r * c))
           5 1 20 1 0.2 1%nat 1%nat H).
Defined.

Lemma sum_repeat (v : R) (n : nat) :
  fold_right Rplus 0%R (repeat v n) = (INR n * v)%R.
Proof.
  induction n as [|n IH]; [simpl; ring|].
  cbn [repeat fold_right]. rewrite IH, S_INR. ring.
Qed.

(** The standard deviation of one value [x] and [n] copies of a value
    [a >= x]. *)
Lemma nanstd_one_and_copies (x a : R) (n : nat) :
  (x <= a)%R ->
  np_nanstd (x :: repeat a n) = (sqrt (INR n) / (INR n + 1) * (a - x))%R.
Proof.
  intro Hle. unfold np_nanstd, np_mean. cbv zeta.
  rewrite length_map. cbn [List.length map fold_right].
  rewrite repeat_length, S_INR, sum_repeat.
  assert (Hn : (0 <= INR n)%R) by apply pos_INR.
  set (N := INR n) in *.
  set (m := ((x + N * a) / (N + 1))%R).
  rewrite map_repeat.
  rewrite sum_repeat. fold N.
  assert (Ex : (x - m = - (N * (a - x)) / (N + 1))%R).
  { unfold m. field. rlra. }
  assert (Ea : (a - m = (a - x) / (N + 1))%R).
  { unfold m. field. rlra. }
  rewrite Ex, Ea.
  replace (((- (N * (a - x)) / (N + 1)) ^ 2
            + N * ((a - x) / (N + 1)) ^ 2) / (N + 1))%R
    with (N * ((a - x) / (N + 1)) ^ 2)%R by (field; rlra).
  rewrite sqrt_mult_alt by exact Hn.
  replace (((a - x) / (N + 1)) ^ 2)%R
    with (((a - x) / (N + 1)) * ((a - x) / (N + 1)))%R by ring.
  rewrite sqrt_square.
  - field. rlra.
  - apply Rmult_le_pos; [rlra|]. left. apply Rinv_0_lt_compat. rlra.
Qed.

(** X27.  [get_aniso_diffs] does not depend on the iteration counts it is
    given, only on how many there are: every layer after the first is the
    same one-step result of [py_aniso], and the standard deviation over the
    stack is, at every pixel, the increment of that one step scaled by
    [sqrt n / (n + 1)] for [n] entries in [niter_list]; for an empty list
    it is 0. *)
Theorem get_aniso_diffs_one_step (shape : nat * nat) (vid_ds : grid R)
  (niter_list : list nat) (r c : nat) :
  let n := INR (List.length niter_list) in
  get_aniso_diffs shape vid_ds niter_list r c
  = (sqrt n / (n + 1) * (py_aniso shape vid_ds 1 1 0.2 r c - vid_ds r c))%R.
Proof.
  intro n. unfold n, get_aniso_diffs. cbv zeta. cbn [map].
  rewrite map_map.
  rewrite (map_ext _ (fun _ => py_aniso shape vid_ds 1 1 0.2 r c))
    by (intro k; reflexivity).
  rewrite map_const. apply nanstd_one_and_copies.
  assert (Hg : (0 <= 0.2)%R) by rlra.
  apply (py_aniso_step_nonneg shape vid_ds 1 1 0.2 r c Hg).
Qed.
